(** * claude-code-sdk-go: subprocess transport and streaming decode pipeline

    A shallow embedding of the Go sources

    - [internal/transport] (SubprocessCLITransport: Connect, Disconnect,
      ReceiveMessages, collectStderr, processStdout, processLine,
      handleProcessExit),
    - [internal/validation] (size constants, TruncateError),
    - [internal/errors] (the error structs and their constructors),
    - [internal] (Client.ProcessQuery) and the root package (Query and the
      Options accessors),

    followed by the properties of the delivery protocol that the design
    document states about them.

    Conventions.  A Go [string] is a sequence of bytes, here [list ascii];
    [len] is its byte length as an integer.  A Go [int] is the 64-bit
    two's-complement integer of amd64/arm64 and is written out with its
    wrap-around where arithmetic is performed on it.  A nil pointer or nil
    interface is [None]. *)

From Stdlib Require Import ZArith List Ascii String Bool Lia DecimalString.
Import ListNotations.

Set Implicit Arguments.

(* ===================================================================== *)
(** * Go strings *)
(* ===================================================================== *)

Module GoString.

Definition gostring := list ascii.

(** A string literal of the source. *)
Definition str (s : string) : gostring := list_ascii_of_string s.

(** [len(s)]. *)
Definition len (s : gostring) : Z := Z.of_nat (List.length s).

Fixpoint eqb (a b : gostring) : bool :=
  match a, b with
  | [], [] => true
  | x :: a', y :: b' => Ascii.eqb x y && eqb a' b'
  | _, _ => false
  end.

(** [strings.HasPrefix(s, prefix)]. *)
Fixpoint HasPrefix (s prefix : gostring) : bool :=
  match prefix, s with
  | [], _ => true
  | p :: ps, c :: cs => Ascii.eqb p c && HasPrefix cs ps
  | _ :: _, [] => false
  end.

(** [strings.Contains(s, substr)]. *)
Fixpoint Contains (s substr : gostring) : bool :=
  HasPrefix s substr
  || match s with
     | [] => false
     | _ :: cs => Contains cs substr
     end.

(** The white space of [strings.TrimSpace] is that of [unicode.IsSpace].
    A Go string is a sequence of bytes, read as UTF-8; the white-space
    runes are, with their encodings:
    - one byte: tab, line feed, vertical tab, form feed, carriage return
      and space;
    - two bytes: U+0085 (C2 85) and U+00A0 (C2 A0);
    - three bytes: U+1680 (E1 9A 80), U+2000 to U+200A (E2 80 80 to
      E2 80 8A), U+2028 and U+2029 (E2 80 A8, E2 80 A9), U+202F
      (E2 80 AF), U+205F (E2 81 9F) and U+3000 (E3 80 80).
    The decoder of [unicode/utf8] accepts a rune in its shortest encoding
    only and reads any other byte as the one-byte U+FFFD, which is not
    white space: a string begins (ends) with a white-space rune exactly
    when it begins (ends) with one of these byte sequences. *)
Definition isSpace (c : ascii) : bool :=
  let n := nat_of_ascii c in
  Nat.eqb n 9 || Nat.eqb n 10 || Nat.eqb n 11 || Nat.eqb n 12
  || Nat.eqb n 13 || Nat.eqb n 32.

Definition isSpace2 (a b : ascii) : bool :=
  let a := nat_of_ascii a in
  let b := nat_of_ascii b in
  Nat.eqb a 194 && (Nat.eqb b 133 || Nat.eqb b 160).

Definition isSpace3 (a b c : ascii) : bool :=
  let a := nat_of_ascii a in
  let b := nat_of_ascii b in
  let c := nat_of_ascii c in
  (Nat.eqb a 225 && Nat.eqb b 154 && Nat.eqb c 128)
  || (Nat.eqb a 226 && Nat.eqb b 128
      && ((Nat.leb 128 c && Nat.leb c 138)
          || Nat.eqb c 168 || Nat.eqb c 169 || Nat.eqb c 175))
  || (Nat.eqb a 226 && Nat.eqb b 129 && Nat.eqb c 159)
  || (Nat.eqb a 227 && Nat.eqb b 128 && Nat.eqb c 128).

(** The string begins with a white-space rune, [two] and [three] telling
    the encodings of two and of three bytes. *)
Definition leads (two : ascii -> ascii -> bool)
           (three : ascii -> ascii -> ascii -> bool) (s : gostring) : bool :=
  match s with
  | [] => false
  | a :: r =>
      isSpace a
      || match r with
         | [] => false
         | b :: r2 =>
             two a b
             || match r2 with
                | [] => false
                | c :: _ => three a b c
                end
         end
  end.

(** The string without the white-space runes it begins with. *)
Fixpoint strip (two : ascii -> ascii -> bool)
         (three : ascii -> ascii -> ascii -> bool) (s : gostring) : gostring :=
  match s with
  | [] => []
  | a :: r =>
      if isSpace a then strip two three r
      else
        match r with
        | [] => s
        | b :: r2 =>
            if two a b then strip two three r2
            else
              match r2 with
              | [] => s
              | c :: r3 => if three a b c then strip two three r3 else s
              end
        end
  end.

(** The encodings read from the last byte backwards, for the end of a
    string. *)
Definition isSpace2Rev (a b : ascii) : bool := isSpace2 b a.
Definition isSpace3Rev (a b c : ascii) : bool := isSpace3 c b a.

(** [strings.TrimLeftFunc(s, unicode.IsSpace)] *)
Definition trimLeft (s : gostring) : gostring := strip isSpace2 isSpace3 s.

(** [strings.TrimRightFunc(s, unicode.IsSpace)] *)
Definition trimRight (s : gostring) : gostring :=
  rev (strip isSpace2Rev isSpace3Rev (rev s)).

(** [strings.TrimSpace(s)]: its fast path for ASCII and its fall back to
    [TrimFunc] and [TrimRightFunc] together trim the left end and then the
    right end. *)
Definition TrimSpace (s : gostring) : gostring := trimRight (trimLeft s).

Definition toLowerChar (c : ascii) : ascii :=
  let n := nat_of_ascii c in
  if Nat.leb 65 n && Nat.leb n 90 then ascii_of_nat (n + 32) else c.

(** [strings.ToLower(s)], as far as the code looks at it: the ASCII
    letters are lowered.  The code only asks whether the result contains
    "error"; [strings.ToLower] also maps letters outside ASCII, but none of
    them to one of the letters e, r, o (only U+0130 and U+212A map into
    ASCII, to i and k), and it maps no rune to nothing, so the answer is
    the same. *)
Definition ToLower (s : gostring) : gostring := map toLowerChar s.

(** [strings.Join(elems, sep)]. *)
Fixpoint Join (elems : list gostring) (sep : gostring) : gostring :=
  match elems with
  | [] => []
  | [x] => x
  | x :: rest => x ++ sep ++ Join rest sep
  end.

(** The verb [%d] of [fmt]. *)
Definition itoa (z : Z) : gostring :=
  str (NilZero.string_of_int (Z.to_int z)).

Definition newline : ascii := ascii_of_nat 10.
Definition carriageReturn : ascii := ascii_of_nat 13.
Definition dquote : ascii := ascii_of_nat 34.

(** A literal of the source that contains double quotes, written with
    single quotes in their place. *)
Definition quoted (s : string) : gostring :=
  map (fun c => if Ascii.eqb c "'" then dquote else c) (str s).

End GoString.

Import GoString.

(* ===================================================================== *)
(** * Package errors *)
(* ===================================================================== *)

Module Errors.

(** The error values that travel on the error channels.  [errorString] is
    the value built by [fmt.Errorf] and [errors.New]; the other
    constructors are the structs of the package, with the embedded
    [SDKError.Message] as first field. *)
Inductive error : Type :=
| errorString (s : gostring)
| CLIConnectionError (Message : gostring)
| CLINotFoundError (Message CLIPath : gostring)
| ProcessError (Message : gostring) (ExitCode : option Z) (Stderr : gostring)
| CLIJSONDecodeError (Message Line : gostring) (OriginalError : error).

(** The method [Error()]. *)
Fixpoint ErrorText (e : error) : gostring :=
  match e with
  | errorString s => s
  | CLIConnectionError m => m
  | CLINotFoundError m _ => m
  | ProcessError m _ _ => m
  | CLIJSONDecodeError m _ orig => m ++ str ": " ++ ErrorText orig
  end.

Definition NewCLINotFoundError (message cliPath : gostring) : error :=
  let message :=
    if negb (eqb cliPath []) then message ++ str ": " ++ cliPath else message in
  CLINotFoundError message cliPath.

Definition NewProcessError (message : gostring) (exitCode : option Z)
           (stderr : gostring) : error :=
  let message :=
    match exitCode with
    | Some code => message ++ str " (exit code: " ++ itoa code ++ str ")"
    | None => message
    end in
  let message :=
    if negb (eqb stderr [])
    then message ++ [newline] ++ str "Error output: " ++ stderr
    else message in
  ProcessError message exitCode stderr.

Definition NewCLIJSONDecodeError (line : gostring) (originalError : error)
  : error :=
  let truncated :=
    if (100 <? len line)%Z then firstn 100 line ++ str "..." else line in
  CLIJSONDecodeError (str "Failed to decode JSON: " ++ truncated)
                     line originalError.

Definition isCLIJSONDecodeError (e : error) : bool :=
  match e with CLIJSONDecodeError _ _ _ => true | _ => false end.

(** The field [Line] of a decode error. *)
Definition decodeLine (e : error) : option gostring :=
  match e with CLIJSONDecodeError _ l _ => Some l | _ => None end.

(** The field [OriginalError] of a decode error ([Unwrap]). *)
Definition Unwrap (e : error) : option error :=
  match e with CLIJSONDecodeError _ _ o => Some o | _ => None end.

End Errors.

Import Errors.

(* ===================================================================== *)
(** * Package validation *)
(* ===================================================================== *)

Module Validation.

Definition MaxStringLength : Z := 10000.
Definition MaxStderrLines : Z := 1000.
Definition MaxStderrLineLength : Z := 1000.
Definition MaxJSONSize : Z := 10 * 1024 * 1024.

(** White space of the regular-expression class [\s]:
    tab, line feed, form feed, carriage return, space. *)
Definition isReSpace (c : ascii) : bool :=
  let n := nat_of_ascii c in
  Nat.eqb n 9 || Nat.eqb n 10 || Nat.eqb n 12 || Nat.eqb n 13 || Nat.eqb n 32.

Definition isLetter (c : ascii) : bool :=
  let n := nat_of_ascii c in
  (Nat.leb 65 n && Nat.leb n 90) || (Nat.leb 97 n && Nat.leb n 122).

(** A match of [/[^\s]+] starts here. *)
Definition startsUnixPath (s : gostring) : bool :=
  match s with
  | c :: d :: _ => Ascii.eqb c "/" && negb (isReSpace d)
  | _ => false
  end.

(** A match of [[A-Za-z]:\\[^\s]+] starts here. *)
Definition startsWindowsPath (s : gostring) : bool :=
  match s with
  | c :: d :: e :: f :: _ =>
      isLetter c && Ascii.eqb d ":" && Ascii.eqb e "\" && negb (isReSpace f)
  | _ => false
  end.

(** [pathPattern.ReplaceAllString(msg, "[path]")] for the pattern
    [(/[^\s]+|[A-Za-z]:\\[^\s]+)]: leftmost matches, each extended over the
    whole run of non-space bytes that follows.  [inMatch] says that the
    byte at hand continues a match that has been replaced already. *)
Fixpoint replacePaths (inMatch : bool) (s : gostring) : gostring :=
  match s with
  | [] => []
  | c :: rest =>
      if inMatch then
        if isReSpace c then c :: replacePaths false rest
        else replacePaths true rest
      else if startsUnixPath s || startsWindowsPath s
           then str "[path]" ++ replacePaths true rest
           else c :: replacePaths false rest
  end.

(** [TruncateError(err, maxLength)]; a nil [err] is [None]. *)
Definition TruncateError (err : option error) (maxLength : Z) : gostring :=
  match err with
  | None => []
  | Some e =>
      let msg := ErrorText e in
      let msg := replacePaths false msg in
      if (maxLength <? len msg)%Z
      then firstn (Z.to_nat maxLength) msg ++ str "..."
      else msg
  end.

End Validation.

(* ===================================================================== *)
(** * Options and their accessors (root package) *)
(* ===================================================================== *)

Module Config.

(** Go's [int] on a 64-bit platform. *)
Definition int_min : Z := - 2 ^ 63.
Definition int_max : Z := 2 ^ 63 - 1.
Definition in_int (z : Z) : Prop := (int_min <= z <= int_max)%Z.

(** The value of an integer expression after it wraps around in 64 bits. *)
Definition wrap64 (z : Z) : Z := ((z + 2 ^ 63) mod 2 ^ 64 - 2 ^ 63)%Z.

(** The fields of [Options] that the transport reads; the remaining
    fields only feed the construction of command-line arguments. *)
Record Options : Type := {
  Cwd : gostring;
  MessageBufferSize : Z;
  ErrorBufferSize : Z;
  QueryTimeout : Z
}.

Definition NewOptions : Options :=
  {| Cwd := []; MessageBufferSize := 10; ErrorBufferSize := 1;
     QueryTimeout := 0 |}.

(** [time.Second], in nanoseconds, the unit of [time.Duration]. *)
Definition Second : Z := 1000000000.

(** The receiver [o *Options] may be nil. *)
Definition GetCwd (o : option Options) : gostring :=
  match o with
  | None => []
  | Some o => Cwd o
  end.

Definition GetMessageBufferSize (o : option Options) : Z :=
  match o with
  | None => 10
  | Some o => if (MessageBufferSize o <=? 0)%Z then 10 else MessageBufferSize o
  end.

Definition GetErrorBufferSize (o : option Options) : Z :=
  match o with
  | None => 1
  | Some o => if (ErrorBufferSize o <=? 0)%Z then 1 else ErrorBufferSize o
  end.

(** [time.Duration(o.QueryTimeout) * time.Second]: a product of two
    64-bit integers. *)
Definition GetQueryTimeout (o : option Options) : Z :=
  match o with
  | None => 0
  | Some o =>
      if (QueryTimeout o <=? 0)%Z then 0
      else wrap64 (QueryTimeout o * Second)
  end.

End Config.

Import Config.

(* ===================================================================== *)
(** * bufio.Scanner with the default line splitter *)
(* ===================================================================== *)

Module Bufio.

(** What the read end of a pipe delivers: the bytes written to it, ended
    by EOF ([readErr = None]) or by a read error. *)
Record stream : Type := { bytes : gostring; readErr : option error }.

Definition ErrTooLong : error :=
  errorString (str "bufio.Scanner: token too long").

(** [dropCR]: a trailing carriage return is removed from a token. *)
Definition dropCR (data : gostring) : gostring :=
  match rev data with
  | c :: r => if Ascii.eqb c carriageReturn then rev r else data
  | [] => data
  end.

(** The tokens [ScanLines] yields on [d], with a buffer that may grow to
    [maxTokenSize] bytes ([Scanner.Buffer(_, maxTokenSize)]).  [cur] holds,
    in reverse, the bytes of the line being read.  A line feed ends the
    token; [Scan] gives up with [ErrTooLong] (the flag of the result) as
    soon as the buffer is full of bytes of one line with no line feed among
    them; at the end of the input a non-empty rest is the last token. *)
Fixpoint scanFrom (maxTokenSize : Z) (cur d : gostring)
  : list gostring * bool :=
  match d with
  | [] =>
      (match cur with [] => [] | _ :: _ => [dropCR (rev cur)] end, false)
  | c :: rest =>
      if Ascii.eqb c newline then
        let (toks, tooLong) := scanFrom maxTokenSize [] rest in
        (dropCR (rev cur) :: toks, tooLong)
      else if (maxTokenSize <=? len cur + 1)%Z then ([], true)
      else scanFrom maxTokenSize (c :: cur) rest
  end.

(** The run of [for scanner.Scan() { ... scanner.Text() ... }] and the
    value of [scanner.Err()] after it: [ErrTooLong], else the read error
    of the stream, else nil. *)
Record scanned : Type := { tokens : list gostring; scanErr : option error }.

Definition Scan (maxTokenSize : Z) (r : stream) : scanned :=
  let (toks, tooLong) := scanFrom maxTokenSize [] (bytes r) in
  {| tokens := toks;
     scanErr := if tooLong then Some ErrTooLong else readErr r |}.

End Bufio.

(* ===================================================================== *)
(** * Buffered channels *)
(* ===================================================================== *)

Module Chan.

(** A channel made by [make(chan A, cap)]: the queue [buf] of values sent
    and not yet received (oldest first), the values [got] that the
    receiving side has taken so far, and how many times [close] ran on it
    (a second [close] is a run-time panic in Go; the count lets the
    properties say that it never happens). *)
Record chan (A : Type) : Type :=
  { cap : nat; buf : list A; got : list A; closes : nat }.

Arguments cap {A} _.
Arguments buf {A} _.
Arguments got {A} _.
Arguments closes {A} _.

Section Ops.
Variable A : Type.

(** The channel that [make(chan A, n)] returns, when it returns one. *)
Definition make (n : Z) : chan A :=
  {| cap := Z.to_nat n; buf := []; got := []; closes := 0 |}.

(** The statement [make(chan A, n)] with its run-time check
    ([runtime.makechan]): it panics with "makechan: size out of range"
    when [n] is negative or when [n] elements of [elemSize] bytes do not
    fit in [limit] bytes, the most that the platform lets the buffer of a
    channel have (on the 64-bit platforms 2^48 bytes less the header of
    the channel).  [None] is that panic.  A buffer that passes the check
    is taken to be granted by the machine. *)
Definition makechan (limit elemSize n : Z) : option (chan A) :=
  if (n <? 0)%Z || (limit <? elemSize * n)%Z then None else Some (make n).

Definition full (c : chan A) : bool := Nat.leb (cap c) (List.length (buf c)).

(** A send that is ready at once: there is room in the buffer.  This is
    the readiness test of [case ch <- v] in a [select]; a plain statement
    [ch <- v] parks the goroutine when it is [None]. *)
Definition trySend (c : chan A) (v : A) : option (chan A) :=
  if full c then None
  else Some {| cap := cap c; buf := buf c ++ [v]; got := got c;
               closes := closes c |}.

(** A receive that is ready at once ([case v := <-ch] in a [select]):
    the oldest queued value. *)
Definition tryRecv (c : chan A) : option (A * chan A) :=
  match buf c with
  | [] => None
  | v :: rest =>
      Some (v, {| cap := cap c; buf := rest; got := got c;
                  closes := closes c |})
  end.

(** The receiving side takes the oldest queued value. *)
Definition consume (c : chan A) : chan A :=
  match buf c with
  | [] => c
  | v :: rest =>
      {| cap := cap c; buf := rest; got := got c ++ [v];
         closes := closes c |}
  end.

(** A send under backpressure that completes: when the buffer is full
    the sender waits until the receiving side has taken the oldest
    value (on an unbuffered channel the value is handed over). *)
Definition sendWait (c : chan A) (v : A) : chan A :=
  match trySend c v with
  | Some c' => c'
  | None =>
      let c1 := consume c in
      match trySend c1 v with
      | Some c' => c'
      | None => {| cap := cap c1; buf := buf c1; got := got c1 ++ [v];
                   closes := closes c1 |}
      end
  end.

(** [close(ch)] *)
Definition close (c : chan A) : chan A :=
  {| cap := cap c; buf := buf c; got := got c; closes := S (closes c) |}.

(** Everything the receiving side obtains from the channel, in order:
    what it has taken and what is still queued (queued values remain
    receivable after [close]). *)
Definition delivered (c : chan A) : list A := got c ++ buf c.

End Ops.

End Chan.

Import Chan.

(* ===================================================================== *)
(** * Package transport: the session *)
(* ===================================================================== *)

Module Transport.

(** The dynamic value of the field [options interface{}].  In this
    repository [*Options] is the only type with the accessors
    [GetMessageBufferSize], [GetErrorBufferSize] and [GetCwd]; a value of
    another type answers none of the three type assertions. *)
Inductive optionsValue : Type :=
| NilOptions
| OptionsPtr (o : option Options)
| OtherOptions.

(** [*exec.Cmd]: [Process] is nil until [Start] has succeeded. *)
Record Cmd : Type := { Process : option nat }.

(** The read end of a pipe of the child. *)
Inductive pipe : Type := Pipe (fd : nat).

Record SubprocessCLITransport : Type := {
  prompt : gostring;
  options : optionsValue;
  cliPath : gostring;
  cwd : gostring;
  cmd : option Cmd;
  stdout : option pipe;
  stderr : option pipe;
  connected : bool
}.

(** [NewSubprocessCLITransport]; [found] is what [findCLI] returns on the
    machine and [wd] what [os.Getwd] returns. *)
Definition NewSubprocessCLITransport (found wd : gostring)
           (prompt : gostring) (options : optionsValue) (cliPath : gostring)
  : SubprocessCLITransport :=
  let cliPath := if eqb cliPath [] then found else cliPath in
  let cwd :=
    match options with
    | OptionsPtr o => GetCwd o
    | _ => []
    end in
  let cwd := if eqb cwd [] then wd else cwd in
  {| prompt := prompt; options := options; cliPath := cliPath; cwd := cwd;
     cmd := None; stdout := None; stderr := None; connected := false |}.

(** What the operating system and the collaborators answer during one
    [Connect]. *)
Inductive startResult : Type :=
| Started (pid : nat)
| StartNotFound
| StartFailed.

Record connectEnv : Type := {
  nodeInPath : bool;
  builtArgs : list gostring + error;
  cwdError : option error;
  stdoutPipeResult : option pipe;
  stderrPipeResult : option pipe;
  startOutcome : startResult
}.

Definition buildCommand (t : SubprocessCLITransport) (env : connectEnv)
  : list gostring + error :=
  let cmd := [cliPath t; str "--output-format"; str "stream-json";
              str "--verbose"] in
  match options t with
  | NilOptions => inl (cmd ++ [str "--print"; prompt t])
  | _ =>
      match builtArgs env with
      | inr err =>
          inr (errorString (str "failed to build CLI args: " ++ ErrorText err))
      | inl args => inl (cmd ++ args ++ [str "--print"; prompt t])
      end
  end.

Definition nodeMissingMessage : gostring :=
  str "Claude Code requires Node.js, which is not installed." ++ [newline; newline]
  ++ str "Install Node.js from: https://nodejs.org/" ++ [newline; newline]
  ++ str "After installing Node.js, install Claude Code:" ++ [newline]
  ++ str "  npm install -g @anthropic-ai/claude-code".

Definition cliMissingMessage : gostring :=
  str "Claude Code not found. Install with:" ++ [newline]
  ++ str "  npm install -g @anthropic-ai/claude-code" ++ [newline; newline]
  ++ str "If already installed locally, try:" ++ [newline]
  ++ quoted "  export PATH='$HOME/node_modules/.bin:$PATH'"
  ++ [newline; newline]
  ++ str "Or specify the path when creating transport:" ++ [newline]
  ++ quoted "  NewSubprocessCLITransport(..., '/path/to/claude')".

Definition withHandles (t : SubprocessCLITransport) (c : option Cmd)
           (out err : option pipe) (conn : bool) : SubprocessCLITransport :=
  {| prompt := prompt t; options := options t; cliPath := cliPath t;
     cwd := cwd t; cmd := c; stdout := out; stderr := err;
     connected := conn |}.

(** [Connect]: the session after the call and the error returned. *)
Definition Connect (t : SubprocessCLITransport) (env : connectEnv)
  : SubprocessCLITransport * option error :=
  if connected t then (t, None)
  else if eqb (cliPath t) [] then
    if negb (nodeInPath env)
    then (t, Some (NewCLINotFoundError nodeMissingMessage []))
    else (t, Some (NewCLINotFoundError cliMissingMessage []))
  else
    match buildCommand t env with
    | inr err => (t, Some err)
    | inl _ =>
        let c := Some {| Process := None |} in
        let t1 := withHandles t c (stdout t) (stderr t) false in
        match (if negb (eqb (cwd t) []) then cwdError env else None) with
        | Some err =>
            (t1, Some (errorString
                         (str "invalid working directory: " ++ ErrorText err)))
        | None =>
            match stdoutPipeResult env with
            | None =>
                (withHandles t c None (stderr t) false,
                 Some (CLIConnectionError (str "Failed to create stdout pipe")))
            | Some out =>
                match stderrPipeResult env with
                | None =>
                    (withHandles t c None None false,
                     Some (CLIConnectionError
                             (str "Failed to create stderr pipe")))
                | Some err =>
                    match startOutcome env with
                    | StartNotFound =>
                        (withHandles t c None None false,
                         Some (NewCLINotFoundError
                                 (str "Claude Code not found at: " ++ cliPath t)
                                 (cliPath t)))
                    | StartFailed =>
                        (withHandles t c None None false,
                         Some (CLIConnectionError
                                 (str "Failed to start Claude Code")))
                    | Started pid =>
                        (withHandles t (Some {| Process := Some pid |})
                                     (Some out) (Some err) true, None)
                    end
                end
            end
        end
    end.

(** What [Disconnect] asks of the operating system, in order. *)
Inductive osAction : Type :=
| Interrupt | Kill | Wait | CloseStdout | CloseStderr.

(** What the child does during one [Disconnect]: whether the interrupt
    signal could be sent, and whether the child exits within the grace
    period of five seconds. *)
Record stopEnv : Type := { signalOk : bool; exitsInGrace : bool }.

(** [Disconnect]: the session after the call, the error returned and the
    requests made. *)
Definition Disconnect (t : SubprocessCLITransport) (env : stopEnv)
  : SubprocessCLITransport * option error * list osAction :=
  match connected t, cmd t with
  | true, Some c =>
      let stop :=
        match Process c with
        | Some _ =>
            if signalOk env then
              if exitsInGrace env then [Interrupt; Wait]
              else [Interrupt; Wait; Kill]
            else [Interrupt; Kill; Wait]
        | None => []
        end in
      let closeOut :=
        match stdout t with Some _ => [CloseStdout] | None => [] end in
      let closeErr :=
        match stderr t with Some _ => [CloseStderr] | None => [] end in
      (withHandles t None None None false, None, stop ++ closeOut ++ closeErr)
  | _, _ => (t, None, [])
  end.

(** [IsConnected] *)
Definition IsConnected (t : SubprocessCLITransport) : bool :=
  connected t
  && match cmd t with
     | Some c => match Process c with Some _ => true | None => false end
     | None => false
     end.

(** The buffer sizes [ReceiveMessages] and [ProcessQuery] read from the
    options. *)
Definition bufferSizes (options : optionsValue) : Z * Z :=
  match options with
  | OptionsPtr o => (GetMessageBufferSize o, GetErrorBufferSize o)
  | _ => (10%Z, 1%Z)
  end.

(** ** The receive cycle *)

Section Decoder.

(** The decoded record, Go's [map[string]interface{}], and
    [json.Unmarshal([]byte(line), &data)] into it: the record or the
    parse error.  The decode loop does not look into either. *)
Variable data : Type.
Variable Unmarshal : gostring -> data + error.

(** What a producer does to its two channels, in the order it does it
    (a history kept beside the channels; the code has no such value):
    a record sent, an error sent, an error taken back out of the error
    channel by the producer itself, and the two closes. *)
Inductive event : Type :=
| SentMsg (d : data)
| SentErr (e : error)
| Dropped (e : error)
| ClosedMsg
| ClosedErr.

(** The two channels of one receive cycle. *)
Record chans : Type :=
  { msgCh : chan data; errCh : chan error; trace : list event }.

(** [make(chan ..., msgBufSize)] and [make(chan error, errBufSize)] *)
Definition newChans (msgBufSize errBufSize : Z) : chans :=
  {| msgCh := make data msgBufSize; errCh := make error errBufSize;
     trace := [] |}.

(** The two [make] statements of a call, with their run-time checks: a
    record channel of elements of [elemSize] bytes, and an error channel,
    whose elements are interface values of 16 bytes.  [None] is the panic
    of the first [make] that fails its check; it strikes the goroutine of
    the caller, before any goroutine of the call is started. *)
Definition makeChans (limit elemSize msgBufSize errBufSize : Z) : option chans :=
  match makechan data limit elemSize msgBufSize with
  | Some m =>
      match makechan error limit 16 errBufSize with
      | Some e => Some {| msgCh := m; errCh := e; trace := [] |}
      | None => None
      end
  | None => None
  end.

(** A plain send [errCh <- e]: [None] when the buffer is full, where the
    goroutine parks until a receiver makes room. *)
Definition sendErr (s : chans) (e : error) : option chans :=
  match trySend (errCh s) e with
  | Some c =>
      Some {| msgCh := msgCh s; errCh := c; trace := trace s ++ [SentErr e] |}
  | None => None
  end.

(** The send of [case msgCh <- data] once it has been chosen. *)
Definition sendMsg (s : chans) (d : data) : chans :=
  {| msgCh := sendWait (msgCh s) d; errCh := errCh s;
     trace := trace s ++ [SentMsg d] |}.

(** [close(msgCh); close(errCh)] *)
Definition closeBoth (s : chans) : chans :=
  {| msgCh := close (msgCh s); errCh := close (errCh s);
     trace := trace s ++ [ClosedMsg; ClosedErr] |}.

(** How a function of the producer goroutine comes back: with a nil
    error, with an error, not at all because a send parked it, or by a
    panic with the given value. *)
Inductive ctl : Type :=
| RetNil
| RetErr (e : error)
| Parked
| Panicked (v : gostring).

(** The result of [cmd.Wait()]. *)
Inductive waitOutcome : Type :=
| WaitNil
| WaitExitError (exitCode : Z)
| WaitOtherError (e : error).

(** Where a run-time panic strikes the goroutine: while the [i]-th call
    of [scanner.Scan] and the decoding of its line are under way (before
    anything is sent for that line), or in [cmd.Wait] (a nil [cmd] after
    a concurrent [Disconnect]). *)
Inductive panicPoint : Type :=
| PanicScanning (i : nat)
| PanicWaiting.

(** Everything outside the goroutine during one receive cycle:
    - what the child writes to its two pipes and how it exits;
    - [stderrSeen]: how many lines the stderr goroutine has appended at
      the moment [collectStderr] returns its slice (the goroutine has
      only just been started, so this is 0 unless the scheduler runs it
      first);
    - the context: [doneAtCheck i] says that the check at the top of
      iteration [i] finds [ctx.Done()] ready, [doneAtSend i] that the
      [select] around the record send of iteration [i] ends by
      [ctx.Done()] (the send was abandoned); [ctxErr] is [ctx.Err()];
    - an optional panic and its value. *)
Record cycleEnv : Type := {
  stdoutBytes : Bufio.stream;
  stderrBytes : Bufio.stream;
  stderrSeen : nat;
  doneAtCheck : nat -> bool;
  doneAtSend : nat -> bool;
  ctxErr : error;
  waitResult : waitOutcome;
  panicAt : option (panicPoint * gostring)
}.

Definition panicsScanning (env : cycleEnv) (i : nat) : option gostring :=
  match panicAt env with
  | Some (PanicScanning j, v) => if Nat.eqb i j then Some v else None
  | _ => None
  end.

Definition panicsWaiting (env : cycleEnv) : option gostring :=
  match panicAt env with
  | Some (PanicWaiting, v) => Some v
  | _ => None
  end.

Definition stderrMarker : gostring :=
  str "[stderr truncated - too many lines]".

(** One iteration of the loop of [collectStderr]. *)
Definition collectLine (stderrLines : list gostring) (line : gostring)
  : list gostring :=
  let line :=
    if (Validation.MaxStderrLineLength <? len line)%Z
    then firstn (Z.to_nat Validation.MaxStderrLineLength) line ++ str "..."
    else line in
  if (Z.of_nat (List.length stderrLines) <? Validation.MaxStderrLines)%Z
  then stderrLines ++ [line]
  else if (Z.of_nat (List.length stderrLines) =? Validation.MaxStderrLines)%Z
       then stderrLines ++ [stderrMarker]
       else stderrLines.

(** The variable [stderrLines] of the stderr goroutine when its loop has
    ended. *)
Definition collected (r : Bufio.stream) : list gostring :=
  fold_left collectLine
            (Bufio.tokens (Bufio.Scan Validation.MaxJSONSize r)) [].

(** [collectStderr] returns the slice value that [stderrLines] holds at
    the [return]: the lines appended until then.  Later appends of the
    goroutine change its own variable, not the slice returned. *)
Definition collectStderr (r : Bufio.stream) (seen : nat) : list gostring :=
  firstn seen (collected r).

Definition tooLargeError : error :=
  NewCLIJSONDecodeError
    (str "[JSON too large]")
    (errorString (str "JSON exceeds maximum size of "
                      ++ itoa Validation.MaxJSONSize ++ str " bytes")).

(** [processLine]; [cancelled] says that the [select] around the record
    send ends by [ctx.Done()]. *)
Definition processLine (cancelled : bool) (cerr : error) (line : gostring)
           (s : chans) : chans * ctl :=
  if (Validation.MaxJSONSize <? len line)%Z then
    match sendErr s tooLargeError with
    | Some s' => (s', RetErr (errorString (str "JSON too large")))
    | None => (s, Parked)
    end
  else
    match Unmarshal line with
    | inr err =>
        if HasPrefix line (str "{") || HasPrefix line (str "[") then
          let truncatedLine :=
            if (200 <? len line)%Z then firstn 200 line ++ str "..."
            else line in
          match sendErr s (NewCLIJSONDecodeError truncatedLine err) with
          | Some s' => (s', RetErr err)
          | None => (s, Parked)
          end
        else (s, RetNil)
    | inl d =>
        if cancelled then (s, RetErr cerr) else (sendMsg s d, RetNil)
    end.

(** The [for scanner.Scan()] loop of [processStdout] from iteration [i]
    on, over the tokens still to come; [None] when [Scan] has returned
    false, otherwise how the function returned from inside the loop. *)
Fixpoint scanLoop (env : cycleEnv) (i : nat) (toks : list gostring)
         (s : chans) : chans * option ctl :=
  match panicsScanning env i with
  | Some v => (s, Some (Panicked v))
  | None =>
      match toks with
      | [] => (s, None)
      | tok :: rest =>
          if doneAtCheck env i then (s, Some RetNil)
          else
            let line := TrimSpace tok in
            if eqb line [] then scanLoop env (S i) rest s
            else
              match processLine (doneAtSend env i) (ctxErr env) line s with
              | (s', RetNil) => scanLoop env (S i) rest s'
              | (s', c) => (s', Some c)
              end
      end
  end.

(** [processStdout] *)
Definition processStdout (env : cycleEnv) (s : chans) : chans * ctl :=
  let sc := Bufio.Scan Validation.MaxJSONSize (stdoutBytes env) in
  match scanLoop env 0 (Bufio.tokens sc) s with
  | (s', Some c) => (s', c)
  | (s', None) =>
      match Bufio.scanErr sc with
      | Some err =>
          match sendErr s' (CLIConnectionError (str "Error reading stdout")) with
          | Some s'' => (s'', RetErr err)
          | None => (s', Parked)
          end
      | None => (s', RetNil)
      end
  end.

(** [handleProcessExit] *)
Definition handleProcessExit (env : cycleEnv) (stderrLines : list gostring)
           (s : chans) : chans * ctl :=
  match panicsWaiting env with
  | Some v => (s, Panicked v)
  | None =>
      match waitResult env with
      | WaitExitError exitCode =>
          let stderrOutput := Join stderrLines [newline] in
          if negb (eqb stderrOutput [])
             && Contains (ToLower stderrOutput) (str "error")
          then
            let sanitizedStderr :=
              Validation.TruncateError (Some (errorString stderrOutput)) 1000 in
            match sendErr s (NewProcessError (str "CLI process failed")
                                             (Some exitCode) sanitizedStderr) with
            | Some s' => (s', RetNil)
            | None => (s, Parked)
            end
          else (s, RetNil)
      | _ => (s, RetNil)
      end
  end.

(** The body of the goroutine of [ReceiveMessages], up to its return. *)
Definition receiveBody (env : cycleEnv) (s : chans) : chans * ctl :=
  let stderrLines := collectStderr (stderrBytes env) (stderrSeen env) in
  match processStdout env s with
  | (s1, RetNil) => handleProcessExit env stderrLines s1
  | (s1, RetErr _) => (s1, RetNil)
  | r => r
  end.

(** How a goroutine ends: it has run its deferred function and exited,
    or it is parked for good on a send. *)
Inductive outcome : Type :=
| Exited (s : chans)
| Blocked (s : chans).

(** The deferred function of the goroutine: after a panic the recovered
    value is sent as an error; then both channels are closed. *)
Definition receiveDeferred (r : chans * ctl) : outcome :=
  match r with
  | (s, Parked) => Blocked s
  | (s, Panicked v) =>
      match sendErr s (errorString (str "panic in ReceiveMessages: " ++ v)) with
      | Some s' => Exited (closeBoth s')
      | None => Blocked s
      end
  | (s, _) => Exited (closeBoth s)
  end.

(** The goroutine of [handleNotConnected]. *)
Definition handleNotConnected (s : chans) : outcome :=
  match sendErr s (CLIConnectionError (str "Not connected")) with
  | Some s' => Exited (closeBoth s')
  | None => Blocked s
  end.

(** [ReceiveMessages], once its two channels are made (the run-time check
    of [make] is [makeChans]): the channels as the goroutine it starts
    leaves them. *)
Definition ReceiveMessages (t : SubprocessCLITransport) (env : cycleEnv)
  : outcome :=
  let (msgBufSize, errBufSize) := bufferSizes (options t) in
  let s := newChans msgBufSize errBufSize in
  if negb (IsConnected t) then handleNotConnected s
  else receiveDeferred (receiveBody env s).

Definition final (o : outcome) : chans :=
  match o with Exited s => s | Blocked s => s end.

End Decoder.

End Transport.

Import Transport.

(* ===================================================================== *)
(** * The forwarding goroutines of Client.ProcessQuery and Query *)
(* ===================================================================== *)

Module Client.

Section Forwarding.

(** The values read from the upstream record channel, the values written
    to the downstream one, and the conversion between them
    ([Client.parseMessage] in [ProcessQuery], [convertMessage] in
    [Query]; nil is [None]). *)
Variables In Out : Type.
Variable convert : In -> option Out.

(** What one turn of the [for { select { ... } }] loop is given by the
    runtime, with the scheduling facts that decide the nested [select]:
    - a record from the upstream record channel, and whether the send of
      its conversion is abandoned for [ctx.Done()];
    - the upstream record channel found closed;
    - a value from the upstream error channel (a nil error is [None]),
      whether [ctx.Done()] is ready when it is forwarded, and the
      runtime's pick if both the send and [ctx.Done()] are ready;
    - the upstream error channel found closed;
    - [ctx.Done()];
    - a panic while the turn is handled (before anything is sent). *)
Inductive arrival : Type :=
| GotMsg (m : In) (abandoned : bool)
| MsgClosed
| GotErr (e : option error) (ctxDone pickSend : bool)
| ErrClosed
| CtxDone
| Panics (v : gostring).

(** The nested [select] that forwards an error:
<<
    select {
    case errCh <- err:
    case <-ctx.Done(): return
    default:
        select {
        case <-errCh: errCh <- err
        default:
        }
    }
    return
>>
    The result is the error channel afterwards with what was done to
    it, or [None] if the plain send of the inner [select] parks the
    goroutine. *)
Definition forwardError (ctxDone pickSend : bool) (errCh : chan error)
           (err : error) : option (chan error * list (event Out)) :=
  match trySend errCh err with
  | Some c' =>
      if ctxDone && negb pickSend then Some (errCh, [])
      else Some (c', [SentErr Out err])
  | None =>
      if ctxDone then Some (errCh, [])
      else
        match tryRecv errCh with
        | Some (old, c1) =>
            match trySend c1 err with
            | Some c2 => Some (c2, [Dropped Out old; SentErr Out err])
            | None => None
            end
        | None => Some (errCh, [])
        end
  end.

(** The loop over the turns still to come.  With no turn left the
    [select] waits ([Parked]). *)
Fixpoint forwardLoop (turns : list arrival) (s : chans Out)
  : chans Out * ctl :=
  match turns with
  | [] => (s, Parked)
  | a :: rest =>
      match a with
      | GotMsg m abandoned =>
          match convert m with
          | Some msg =>
              if abandoned then (s, RetNil)
              else forwardLoop rest (sendMsg s msg)
          | None => forwardLoop rest s
          end
      | MsgClosed => (s, RetNil)
      | GotErr None _ _ => forwardLoop rest s
      | GotErr (Some err) ctxDone pickSend =>
          match forwardError ctxDone pickSend (errCh s) err with
          | Some (c, evs) =>
              ({| msgCh := msgCh s; errCh := c; trace := trace s ++ evs |},
               RetNil)
          | None => (s, Parked)
          end
      | ErrClosed => (s, RetNil)
      | CtxDone => (s, RetNil)
      | Panics v => (s, Panicked v)
      end
  end.

(** The deferred function of [ProcessQuery]: the recovered panic is sent
    with a plain send. *)
Definition processQueryDeferred (r : chans Out * ctl) : outcome Out :=
  match r with
  | (s, Parked) => Blocked s
  | (s, Panicked v) =>
      match sendErr s (errorString (str "panic in ProcessQuery: " ++ v)) with
      | Some s' => Exited (closeBoth s')
      | None => Blocked s
      end
  | (s, _) => Exited (closeBoth s)
  end.

(** [Client.ProcessQuery], once its two channels are made: the channels
    as its goroutine leaves them.  [found], [wd] and [cenv] are what the
    machine answers to the construction of the transport and to
    [Connect]; [turns] is what the loop over the transport's channels is
    given. *)
Definition ProcessQuery (found wd : gostring) (cenv : connectEnv)
           (prompt : gostring) (options : optionsValue)
           (turns : list arrival) : outcome Out :=
  let (msgBufSize, errBufSize) := bufferSizes options in
  let s := newChans Out msgBufSize errBufSize in
  let trans := NewSubprocessCLITransport found wd prompt options [] in
  processQueryDeferred
    match Connect trans cenv with
    | (_, Some err) =>
        match sendErr s err with
        | Some s' => (s', RetNil)
        | None => (s, Parked)
        end
    | (_, None) => forwardLoop turns s
    end.

(** The deferred function of [Query]: the recovered panic is offered to
    the error channel by a [select] with a [default]. *)
Definition queryDeferred (r : chans Out * ctl) : outcome Out :=
  match r with
  | (s, Parked) => Blocked s
  | (s, Panicked v) =>
      match sendErr s (errorString (str "panic in message conversion: " ++ v)) with
      | Some s' => Exited (closeBoth s')
      | None => Exited (closeBoth s)
      end
  | (s, _) => Exited (closeBoth s)
  end.

(** The options [Query] works with: a nil pointer is replaced by
    [NewOptions()]. *)
Definition queryOptions (options : option Options) : option Options :=
  match options with
  | None => Some NewOptions
  | Some o => Some o
  end.

(** Whether [Query] wraps the context in [context.WithTimeout], and with
    which duration. *)
Definition queryTimeout (options : option Options) : option Z :=
  let timeout := GetQueryTimeout (queryOptions options) in
  if (0 <? timeout)%Z then Some timeout else None.

(** The channels [Query] makes. *)
Definition queryChans (options : option Options) : chans Out :=
  let options := queryOptions options in
  newChans Out (GetMessageBufferSize options) (GetErrorBufferSize options).

(** The size in bytes of an interface value: the elements of the
    channels of [ProcessQuery] ([interface{}], [error]) and of [Query]
    ([Message], [error]). *)
Definition interfaceSize : Z := 16.

(** What the call of [Query] does before it returns, on a platform with
    the given limit: [client.ProcessQuery] makes its two channels, with the
    sizes it reads from the options, and starts its goroutine; then
    [Query] makes its own two.  The result is the pair of channels that
    [Query] returns, or [None] when a [make] panics: the panic strikes the
    goroutine of the caller and [Query] returns nothing. *)
Definition queryCall (limit : Z) (options : option Options)
  : option (chans Out) :=
  let options := queryOptions options in
  let (msgBufSize, errBufSize) := bufferSizes (OptionsPtr options) in
  match makeChans In limit interfaceSize msgBufSize errBufSize with
  | None => None
  | Some _ =>
      makeChans Out limit interfaceSize
                (GetMessageBufferSize options) (GetErrorBufferSize options)
  end.

(** [Query], once its channels are made: the two channels as its
    goroutine leaves them; [turns] is what the loop over the channels of
    [ProcessQuery] is given. *)
Definition Query (options : option Options) (turns : list arrival)
  : outcome Out :=
  queryDeferred (forwardLoop turns (queryChans options)).

End Forwarding.

End Client.

(* ===================================================================== *)
(** * A JSON decoder for the examples *)
(* ===================================================================== *)

(** The properties below hold for every decoder.  The concrete scenarios
    need one: a recursive-descent reader of JSON texts into a tree, with
    [json.Unmarshal]'s rule for a map target (an object is accepted, [null]
    leaves the map empty, any other value is a type error).  Number literals
    are recognised by their alphabet, [\u] escapes are not read, and the
    error texts are not those of [encoding/json]. *)
Module JSON.

#[warnings="-register-all"]
Inductive value : Type :=
| Null
| Bool (b : bool)
| Number (literal : gostring)
| String (s : gostring)
| Array (elems : list value)
| Object (members : list (gostring * value)).

(** [map[string]interface{}], in the order of the text. *)
Definition record : Type := list (gostring * value).

Definition isWs (c : ascii) : bool :=
  let n := nat_of_ascii c in
  Nat.eqb n 9 || Nat.eqb n 10 || Nat.eqb n 13 || Nat.eqb n 32.

Fixpoint skipWs (s : gostring) : gostring :=
  match s with
  | [] => []
  | c :: r => if isWs c then skipWs r else s
  end.

Definition unescape (c : ascii) : option ascii :=
  let n := nat_of_ascii c in
  if Nat.eqb n 34 || Nat.eqb n 92 || Nat.eqb n 47 then Some c
  else if Nat.eqb n 98 then Some (ascii_of_nat 8)
  else if Nat.eqb n 102 then Some (ascii_of_nat 12)
  else if Nat.eqb n 110 then Some (ascii_of_nat 10)
  else if Nat.eqb n 114 then Some (ascii_of_nat 13)
  else if Nat.eqb n 116 then Some (ascii_of_nat 9)
  else None.

(** The rest of a string literal after its opening quote. *)
Fixpoint parseString (acc s : gostring) : option (gostring * gostring) :=
  match s with
  | [] => None
  | c :: r =>
      if Nat.eqb (nat_of_ascii c) 34 then Some (rev acc, r)
      else if Nat.eqb (nat_of_ascii c) 92 then
        match r with
        | e :: r' =>
            match unescape e with
            | Some u => parseString (u :: acc) r'
            | None => None
            end
        | [] => None
        end
      else if Nat.ltb (nat_of_ascii c) 32 then None
      else parseString (c :: acc) r
  end.

Definition isDigit (c : ascii) : bool :=
  Nat.leb 48 (nat_of_ascii c) && Nat.leb (nat_of_ascii c) 57.

Definition isNumberChar (c : ascii) : bool :=
  let n := nat_of_ascii c in
  isDigit c || Nat.eqb n 43 || Nat.eqb n 45 || Nat.eqb n 46
  || Nat.eqb n 69 || Nat.eqb n 101.

Fixpoint spanNumber (acc s : gostring) : gostring * gostring :=
  match s with
  | c :: r => if isNumberChar c then spanNumber (c :: acc) r else (rev acc, s)
  | [] => (rev acc, [])
  end.

Fixpoint parseValue (fuel : nat) (s : gostring) : option (value * gostring) :=
  match fuel with
  | O => None
  | S fuel =>
      let s := skipWs s in
      if HasPrefix s (str "null") then Some (Null, skipn 4 s)
      else if HasPrefix s (str "true") then Some (Bool true, skipn 4 s)
      else if HasPrefix s (str "false") then Some (Bool false, skipn 5 s)
      else
        match s with
        | [] => None
        | c :: r =>
            let n := nat_of_ascii c in
            if Nat.eqb n 34 then
              match parseString [] r with
              | Some (t, r') => Some (String t, r')
              | None => None
              end
            else if Nat.eqb n 91 then
              match skipWs r with
              | d :: r' =>
                  if Nat.eqb (nat_of_ascii d) 93 then Some (Array [], r')
                  else
                    match parseElems fuel r with
                    | Some (l, r'') => Some (Array l, r'')
                    | None => None
                    end
              | [] => None
              end
            else if Nat.eqb n 123 then
              match skipWs r with
              | d :: r' =>
                  if Nat.eqb (nat_of_ascii d) 125 then Some (Object [], r')
                  else
                    match parseMembers fuel r with
                    | Some (l, r'') => Some (Object l, r'')
                    | None => None
                    end
              | [] => None
              end
            else if isDigit c || Nat.eqb n 45 then
              let (lit, r') := spanNumber [] s in Some (Number lit, r')
            else None
        end
  end

with parseElems (fuel : nat) (s : gostring)
     : option (list value * gostring) :=
  match fuel with
  | O => None
  | S fuel =>
      match parseValue fuel s with
      | Some (v, r) =>
          match skipWs r with
          | d :: r' =>
              if Nat.eqb (nat_of_ascii d) 93 then Some ([v], r')
              else if Nat.eqb (nat_of_ascii d) 44 then
                match parseElems fuel r' with
                | Some (l, r'') => Some (v :: l, r'')
                | None => None
                end
              else None
          | [] => None
          end
      | None => None
      end
  end

with parseMembers (fuel : nat) (s : gostring)
     : option (list (gostring * value) * gostring) :=
  match fuel with
  | O => None
  | S fuel =>
      match skipWs s with
      | q :: r0 =>
          if Nat.eqb (nat_of_ascii q) 34 then
            match parseString [] r0 with
            | Some (k, r1) =>
                match skipWs r1 with
                | colon :: r2 =>
                    if Nat.eqb (nat_of_ascii colon) 58 then
                      match parseValue fuel r2 with
                      | Some (v, r3) =>
                          match skipWs r3 with
                          | d :: r4 =>
                              if Nat.eqb (nat_of_ascii d) 125
                              then Some ([(k, v)], r4)
                              else if Nat.eqb (nat_of_ascii d) 44 then
                                match parseMembers fuel r4 with
                                | Some (l, r5) => Some ((k, v) :: l, r5)
                                | None => None
                                end
                              else None
                          | [] => None
                          end
                      | None => None
                      end
                    else None
                | [] => None
                end
            | None => None
            end
          else None
      | [] => None
      end
  end.

Definition syntaxError : error := errorString (str "invalid JSON text").

Definition typeError : error :=
  errorString (str "json: cannot unmarshal value into Go value of type map[string]interface {}").

(** [json.Unmarshal([]byte(line), &data)] with [data] a nil map. *)
Definition Unmarshal (line : gostring) : record + error :=
  match parseValue (S (List.length line)) line with
  | Some (v, rest) =>
      match skipWs rest with
      | [] =>
          match v with
          | Object m => inl m
          | Null => inl []
          | _ => inr typeError
          end
      | _ :: _ => inr syntaxError
      end
  | None => inr syntaxError
  end.

End JSON.


(* ===================================================================== *)
(** * Invariants and scenarios used by the properties *)
(* ===================================================================== *)

Module Invariants.

(** A channel holds no more than its capacity. *)
Definition wf (A : Type) (c : chan A) : Prop :=
  (List.length (buf c) <= cap c)%nat.

(** What the stderr goroutine keeps: content lines, at most
    [MaxStderrLines] of them, then possibly the marker; no line longer
    than [MaxStderrLineLength] bytes and the suffix. *)
Definition stderrBounded (kept : list gostring) : Prop :=
  exists content extra,
    kept = content ++ extra
    /\ (Z.of_nat (List.length content) <= Validation.MaxStderrLines)%Z
    /\ (extra = []
        \/ (extra = [stderrMarker]
            /\ Z.of_nat (List.length content) = Validation.MaxStderrLines))
    /\ Forall (fun l => (len l <= Validation.MaxStderrLineLength + 3)%Z) kept.

(** The sessions that the API produces: a new transport holds no handle
    and is not connected; [Connect] and [Disconnect] lead from a session
    to the next. *)
Inductive reachable : SubprocessCLITransport -> Prop :=
| reach_new (t : SubprocessCLITransport) :
    cmd t = None -> stdout t = None -> stderr t = None ->
    connected t = false -> reachable t
| reach_connect (t : SubprocessCLITransport) (env : connectEnv) :
    reachable t -> reachable (fst (Connect t env))
| reach_disconnect (t : SubprocessCLITransport) (env : stopEnv) :
    reachable t -> reachable (fst (fst (Disconnect t env))).

End Invariants.

Import Invariants.

Module Protocol.

Section Sends.
Variable data : Type.

(** The error channel has room for one more value. *)
Definition room (s : chans data) : Prop :=
  (List.length (buf (errCh s)) < cap (errCh s))%nat.

(** From [s] to [s'] the producer has sent the records [ds], in this
    order, and then the errors [es], and has done nothing else. *)
Definition sends (s s' : chans data) (ds : list data) (es : list error)
  : Prop :=
  msgCh s' = fold_left (@sendWait data) ds (msgCh s)
  /\ errCh s' = {| cap := cap (errCh s); buf := buf (errCh s) ++ es;
                   got := got (errCh s); closes := closes (errCh s) |}
  /\ trace s' = trace s ++ map (@SentMsg data) ds ++ map (@SentErr data) es.

End Sends.

End Protocol.

Import Protocol.

Module Lines.

(** The line begins with an opening brace or bracket. *)
Definition looksLikeJSON (line : gostring) : bool :=
  HasPrefix line (str "{") || HasPrefix line (str "[").

(** At most 200 bytes of the line, and the suffix if bytes were cut. *)
Definition excerpt (line : gostring) : gostring :=
  if (200 <? len line)%Z then firstn 200 line ++ str "..." else line.

Section Decoding.
Variable data : Type.
Variable Unmarshal : gostring -> data + error.

(** A stdout line that is blank, or decodes to a record, or fails to
    decode and does not begin like JSON. *)
Definition benign (tok : gostring) : bool :=
  let line := TrimSpace tok in
  eqb line []
  || match Unmarshal line with
     | inl _ => true
     | inr _ => negb (looksLikeJSON line)
     end.

(** The stdout line is noise: not blank, not decodable, and not
    beginning like JSON. *)
Definition noise (tok : gostring) : bool :=
  let line := TrimSpace tok in
  negb (eqb line [])
  && match Unmarshal line with
     | inl _ => false
     | inr _ => negb (looksLikeJSON line)
     end.

(** The record of one stdout line, if it has one. *)
Definition decodeOne (tok : gostring) : list data :=
  let line := TrimSpace tok in
  if eqb line [] then []
  else match Unmarshal line with
       | inl d => [d]
       | inr _ => []
       end.

(** The records of the lines, one for each line that decodes, in the
    order of the lines. *)
Definition decodeAll (toks : list gostring) : list data :=
  flat_map decodeOne toks.

End Decoding.

End Lines.

Import Lines.

(* ===================================================================== *)
(** * Scenarios *)
(* ===================================================================== *)

Module Scenarios.

Definition claudePath : gostring := str "/usr/local/bin/claude".

(** A transport as [NewSubprocessCLITransport] returns it. *)
Definition newSession : SubprocessCLITransport :=
  NewSubprocessCLITransport claudePath (str "/tmp") (str "hello") NilOptions [].

(** A machine on which the child starts. *)
Definition startsFine : connectEnv :=
  {| nodeInPath := true; builtArgs := inl [];
     cwdError := None;
     stdoutPipeResult := Some (Pipe 3); stderrPipeResult := Some (Pipe 4);
     startOutcome := Started 4242 |}.

(** A machine on which [cmd.Start] fails. *)
Definition startFails : connectEnv :=
  {| nodeInPath := true; builtArgs := inl [];
     cwdError := None;
     stdoutPipeResult := Some (Pipe 3); stderrPipeResult := Some (Pipe 4);
     startOutcome := StartFailed |}.

Definition connectedSession : SubprocessCLITransport :=
  fst (Connect newSession startsFine).

Definition failedSession : SubprocessCLITransport :=
  fst (Connect newSession startFails).

Definition gentleStop : stopEnv := {| signalOk := true; exitsInGrace := true |}.

Definition never (i : nat) : bool := false.

Definition canceled : error := errorString (str "context canceled").

Definition eof (b : gostring) : Bufio.stream :=
  {| Bufio.bytes := b; Bufio.readErr := None |}.

(** A cycle with the given output of the child and its exit, an
    uncancelled context and no panic; the stderr goroutine has appended
    [seen] lines when [collectStderr] returns. *)
Definition run (out err : Bufio.stream) (seen : nat) (w : waitOutcome)
  : cycleEnv :=
  {| stdoutBytes := out; stderrBytes := err; stderrSeen := seen;
     doneAtCheck := never; doneAtSend := never; ctxErr := canceled;
     waitResult := w; panicAt := None |}.

(** The child writes one JSON line to stdout and "Error: boom" to stderr
    and exits with code 1. *)
Definition boomStdout : Bufio.stream := eof (quoted "{'type':'x'}" ++ [newline]).
Definition boomStderr : Bufio.stream := eof (str "Error: boom" ++ [newline]).
Definition boom : cycleEnv := run boomStdout boomStderr 0 (WaitExitError 1).

(** The same cycle, had the stderr goroutine appended its line before
    [collectStderr] returned. *)
Definition boomSeen : cycleEnv := run boomStdout boomStderr 1 (WaitExitError 1).

(** The scenario above in which [cmd.Wait] panics. *)
Definition nilPointer : gostring :=
  str "runtime error: invalid memory address or nil pointer dereference".

Definition crash : cycleEnv :=
  {| stdoutBytes := boomStdout; stderrBytes := boomStderr; stderrSeen := 0;
     doneAtCheck := never; doneAtSend := never; ctxErr := canceled;
     waitResult := WaitExitError 1;
     panicAt := Some (PanicWaiting, nilPointer) |}.

(** Two thousand lines on stderr. *)
Definition noisyStderr : Bufio.stream :=
  eof (flat_map (fun x => x ++ [newline]) (repeat (str "warning: retrying") 2000)).

(** A stdout line of one byte more than [MaxJSONSize]. *)
Definition oversizedLine : gostring :=
  repeat "a"%char (Z.to_nat (Validation.MaxJSONSize + 1)).

Definition oversized : cycleEnv :=
  run (eof (oversizedLine ++ [newline])) (eof []) 0 WaitNil.


(** A malformed line of 201 bytes that begins with a brace. *)
Definition longMalformed : gostring := str "{" ++ repeat "a"%char 200.

(** A short malformed line that begins with a brace. *)
Definition shortMalformed : gostring := quoted "{'type':'assistant', invalid json".

(** Lines of stdout: noise, a record, a blank line, a record. *)
Definition mixedLines : list gostring :=
  [str "This is not JSON"; quoted "{'type':'assistant'}"; str "   ";
   quoted "  {'type':'result','cost_usd':0.01}"].

Definition unlines (l : list gostring) : gostring :=
  flat_map (fun x => x ++ [newline]) l.

Definition mixed : cycleEnv :=
  run (eof (unlines mixedLines)) (eof []) 0 WaitNil.

Definition malformedAfterMixed : cycleEnv :=
  run (eof (unlines (mixedLines ++ [shortMalformed; quoted "{'type':'late'}"])))
      (eof []) 0 WaitNil.

(** The least timeout, in seconds, whose nanoseconds no longer fit in a
    64-bit [time.Duration]. *)
Definition hugeTimeout : Options :=
  {| Cwd := []; MessageBufferSize := 0; ErrorBufferSize := 0;
     QueryTimeout := 9223372037 |}.

(** A message buffer of 2^44 values, and the limit of linux/amd64 for the
    buffer of a channel (2^48 bytes less a header of 96). *)
Definition hugeBuffer : Options :=
  {| Cwd := []; MessageBufferSize := 2 ^ 44; ErrorBufferSize := 1;
     QueryTimeout := 0 |}.

Definition limit64 : Z := 2 ^ 48 - 96.

(** U+00A0, the no-break space, in UTF-8. *)
Definition nbsp : gostring := [ascii_of_nat 194; ascii_of_nat 160].

Definition thirtySeconds : Options :=
  {| Cwd := []; MessageBufferSize := 50; ErrorBufferSize := 2;
     QueryTimeout := 30 |}.

End Scenarios.

Import Scenarios.

(* ===================================================================== *)
(** * Package validation: sanitizers and filters *)
(* ===================================================================== *)

Module Sanitize.

Definition nul : ascii := ascii_of_nat 0.

(** The class of [shellMetacharacters]: the punctuation listed in the
    pattern, the double quote and the white space of [\s]. *)
Definition isShellMeta (c : ascii) : bool :=
  existsb (Ascii.eqb c) (str ";&|<>$`\'()[]{}*?!~./")
  || Ascii.eqb c dquote
  || Validation.isReSpace c.

(** [SanitizeString(input, maxLength)]: the sanitized string or the
    error. *)
Definition SanitizeString (input : gostring) (maxLength : Z)
  : gostring + error :=
  let maxLength :=
    if (maxLength <=? 0)%Z then Validation.MaxStringLength else maxLength in
  if (maxLength <? len input)%Z then
    inr (errorString (str "input exceeds maximum length of "
                          ++ itoa maxLength ++ str " characters"))
  else
    let input := filter (fun c => negb (Ascii.eqb c nul)) input in
    let input := TrimSpace input in
    inl input.

(** [SanitizeCommandArg(input)] *)
Definition SanitizeCommandArg (input : gostring) : gostring + error :=
  match SanitizeString input Validation.MaxStringLength with
  | inr err => inr err
  | inl sanitized =>
      if existsb isShellMeta sanitized
      then inr (errorString (str "input contains shell metacharacters"))
      else inl sanitized
  end.

(** A string that does not begin with a white-space rune, and one that
    does not end with one. *)
Definition noLead (s : gostring) : Prop := leads isSpace2 isSpace3 s = false.

Definition noTrail (s : gostring) : Prop :=
  leads isSpace2Rev isSpace3Rev (rev s) = false.

(** A string as [SanitizeString] leaves it when it accepts it: the NUL
    bytes removed, then the white space around it. *)
Definition scrub (s : gostring) : gostring :=
  TrimSpace (filter (fun c => negb (Ascii.eqb c nul)) s).

(** What [SanitizeCommandArg] asks of its input: at most
    [MaxStringLength] bytes, and no shell metacharacter once it is
    scrubbed. *)
Definition cleanArg (s : gostring) : Prop :=
  (len s <= Validation.MaxStringLength)%Z
  /\ Forall (fun c => isShellMeta c = false) (scrub s).

(** The keys of the map [AllowedModels]. *)
Definition AllowedModels : list gostring :=
  [str "claude-3-opus-20240229"; str "claude-3-sonnet-20240229";
   str "claude-3-haiku-20240307"; str "claude-3-5-sonnet-20241022";
   str "claude-3-5-haiku-20241022"].

(** [ValidateModel(model)]: the error, nil being [None]. *)
Definition ValidateModel (model : gostring) : option error :=
  if eqb model [] then None
  else if existsb (eqb model) AllowedModels then None
  else if HasPrefix model (str "claude-") then None
  else Some (errorString (str "invalid model: " ++ model
                              ++ str " (must start with 'claude-')")).

(** [strings.SplitN(e, "=", 2)] has two parts exactly when [e] contains an
    equals sign; the first part, the key, is what precedes the first one. *)
Fixpoint envKey (e : gostring) : option gostring :=
  match e with
  | [] => None
  | c :: rest =>
      if Ascii.eqb c "=" then Some []
      else match envKey rest with
           | Some k => Some (c :: k)
           | None => None
           end
  end.

Definition safeEnvPrefixes : list gostring :=
  [str "CLAUDE_"; str "LANG"; str "LC_"; str "TZ"; str "TERM"; str "USER";
   str "HOME"; str "PATH"; str "TMPDIR"; str "TEMP"; str "TMP"].

(** The keys of the map [blockedEnv]. *)
Definition blockedEnv : list gostring :=
  [str "AWS_SECRET_ACCESS_KEY"; str "AWS_SESSION_TOKEN"; str "GITHUB_TOKEN";
   str "NPM_TOKEN"; str "ANTHROPIC_API_KEY"].

(** [FilterEnvironment(env)] *)
Fixpoint FilterEnvironment (env : list gostring) : list gostring :=
  match env with
  | [] => []
  | e :: rest =>
      match envKey e with
      | None => FilterEnvironment rest
      | Some key =>
          if existsb (eqb key) blockedEnv then FilterEnvironment rest
          else if existsb (HasPrefix key) safeEnvPrefixes
               then e :: FilterEnvironment rest
               else FilterEnvironment rest
      end
  end.

(** An entry of the environment has a key with one of the safe
    prefixes. *)
Definition safeEntry (e : gostring) : bool :=
  match envKey e with
  | Some key => existsb (HasPrefix key) safeEnvPrefixes
  | None => false
  end.

(** A match of the pattern of [TruncateError] starts at some byte of the
    text. *)
Fixpoint hasPath (s : gostring) : bool :=
  Validation.startsUnixPath s || Validation.startsWindowsPath s
  || match s with
     | [] => false
     | _ :: rest => hasPath rest
     end.

End Sanitize.

Import Sanitize.

(* ===================================================================== *)
(** * Notions used by the further properties *)
(* ===================================================================== *)

Module Outcomes.

(** What the loop of [collectStderr] keeps of one line. *)
Definition clip (line : gostring) : gostring :=
  if (Validation.MaxStderrLineLength <? len line)%Z
  then firstn (Z.to_nat Validation.MaxStderrLineLength) line ++ str "..."
  else line.

(** The text that [handleProcessExit] joins from the slice it is given. *)
Definition stderrText (env : cycleEnv) : gostring :=
  Join (collectStderr (stderrBytes env) (stderrSeen env)) [newline].

(** The test of [handleProcessExit] on that text. *)
Definition errorBearing (text : gostring) : bool :=
  negb (eqb text []) && Contains (ToLower text) (str "error").

(** The errors of a cycle whose decode loop ended without one. *)
Definition exitErrors (env : cycleEnv) : list error :=
  match waitResult env with
  | WaitExitError exitCode =>
      if errorBearing (stderrText env)
      then [NewProcessError
              (str "CLI process failed") (Some exitCode)
              (Validation.TruncateError (Some (errorString (stderrText env))) 1000)]
      else []
  | _ => []
  end.

(** The context is not found done, and no panic strikes, during the first
    [n] iterations of the decode loop. *)
Definition undisturbed (env : cycleEnv) (n : nat) : Prop :=
  forall j, (j < n)%nat ->
            panicsScanning env j = None
            /\ doneAtCheck env j = false /\ doneAtSend env j = false.

Section Turns.
Variables In Out : Type.
Variable convert : In -> option Out.

(** The turn ends the forwarding loop whatever came before it. *)
Definition closing (a : Client.arrival In) : bool :=
  match a with
  | Client.MsgClosed _ | Client.ErrClosed _ | Client.CtxDone _ => true
  | _ => false
  end.


(** The conversions of the records among the turns, in order, those that
    convert to nil left out. *)
Definition conversions (turns : list (Client.arrival In)) : list Out :=
  flat_map (fun a => match a with
                     | Client.GotMsg m _ =>
                         match convert m with Some msg => [msg] | None => [] end
                     | _ => []
                     end) turns.

End Turns.

End Outcomes.

Import Outcomes.

(* ===================================================================== *)
(** * Messages: Client.parseMessage and convertMessage *)
(* ===================================================================== *)

Module Messages.

Section Values.

(** Go's [float64], the type of every number that [json.Unmarshal] puts
    into an [interface{}], and the conversion [int(f)].  The code does
    nothing else with a number. *)
Variable float64 : Type.
Variable toInt : float64 -> Z.

(** A value of type [interface{}] as the decoder and the two conversions
    build it: nil, a string, a number, an [int], a bool, a
    [[]interface{}] or a [map[string]interface{}].  A map is the list of
    its bindings, of which the first one for a key is the one in force; a
    nil map and a nil slice are the empty ones. *)
#[warnings="-register-all"]
Inductive any : Type :=
| Nil
| StringV (s : gostring)
| FloatV (f : float64)
| IntV (i : Z)
| BoolV (b : bool)
| SliceV (l : list any)
| MapV (m : list (gostring * any)).

Definition gomap : Type := list (gostring * any).

(** [v, ok := m[key]] *)
Fixpoint lookup (m : gomap) (key : gostring) : option any :=
  match m with
  | [] => None
  | (k, v) :: rest => if eqb k key then Some v else lookup rest key
  end.

(** [m[key] = v] *)
Definition insert (m : gomap) (key : gostring) (v : any) : gomap :=
  (key, v) :: m.

(** The type assertions [m[key].(string)] and the like: [None] when the
    key is absent or the value has another type. *)
Definition getStringOk (m : gomap) (key : gostring) : option gostring :=
  match lookup m key with Some (StringV s) => Some s | _ => None end.

Definition getFloatOk (m : gomap) (key : gostring) : option float64 :=
  match lookup m key with Some (FloatV f) => Some f | _ => None end.

Definition getBoolOk (m : gomap) (key : gostring) : option bool :=
  match lookup m key with Some (BoolV b) => Some b | _ => None end.

Definition getSliceOk (m : gomap) (key : gostring) : option (list any) :=
  match lookup m key with Some (SliceV l) => Some l | _ => None end.

Definition getMapOk (m : gomap) (key : gostring) : option gomap :=
  match lookup m key with Some (MapV x) => Some x | _ => None end.

(** [v, _ := m[key].(string)]: the zero value when the assertion fails. *)
Definition stringOr (o : option gostring) : gostring :=
  match o with Some s => s | None => [] end.

(** [int(f)] for [f, _ := m[key].(float64)]: [int(0)] when the assertion
    fails. *)
Definition intOfFloatOr (o : option float64) : Z :=
  match o with Some f => toInt f | None => 0%Z end.

Definition boolOr (o : option bool) : bool :=
  match o with Some b => b | None => false end.

Definition mapOr (o : option gomap) : gomap :=
  match o with Some m => m | None => [] end.

(** ** Package internal *)

(** [Client.parseContentBlock]; nil is [None]. *)
Definition parseContentBlock (data : gomap) : option any :=
  match getStringOk data (str "type") with
  | None => None
  | Some blockType =>
      if eqb blockType (str "text") then
        match getStringOk data (str "text") with
        | Some text =>
            Some (MapV [(str "_blockType", StringV (str "text"));
                        (str "text", StringV text)])
        | None => None
        end
      else if eqb blockType (str "tool_use") then
        let id := stringOr (getStringOk data (str "id")) in
        let name := stringOr (getStringOk data (str "name")) in
        let input := mapOr (getMapOk data (str "input")) in
        Some (MapV [(str "_blockType", StringV (str "tool_use"));
                    (str "id", StringV id); (str "name", StringV name);
                    (str "input", MapV input)])
      else if eqb blockType (str "tool_result") then
        let toolUseID := stringOr (getStringOk data (str "tool_use_id")) in
        let block := [(str "_blockType", StringV (str "tool_result"));
                      (str "tool_use_id", StringV toolUseID)] in
        let block :=
          match lookup data (str "content") with
          | Some content => insert block (str "content") content
          | None => block
          end in
        let block :=
          match getBoolOk data (str "is_error") with
          | Some isError => insert block (str "is_error") (BoolV isError)
          | None => block
          end in
        Some (MapV block)
      else None
  end.

(** The loop of [parseMessage] over the content of an assistant message. *)
Fixpoint parseBlocks (contentData : list any) : list any :=
  match contentData with
  | [] => []
  | blockData :: rest =>
      match blockData with
      | MapV blockMap =>
          match parseContentBlock blockMap with
          | Some block => block :: parseBlocks rest
          | None => parseBlocks rest
          end
      | _ => parseBlocks rest
      end
  end.

(** [Client.parseMessage]; nil is [None]. *)
Definition parseMessage (data : gomap) : option any :=
  match getStringOk data (str "type") with
  | None => None
  | Some msgType =>
      if eqb msgType (str "user") then
        match getMapOk data (str "message") with
        | Some msgData =>
            match getStringOk msgData (str "content") with
            | Some content =>
                Some (MapV [(str "_type", StringV (str "user"));
                            (str "content", StringV content)])
            | None => None
            end
        | None => None
        end
      else if eqb msgType (str "assistant") then
        match getMapOk data (str "message") with
        | Some msgData =>
            match getSliceOk msgData (str "content") with
            | Some contentData =>
                Some (MapV [(str "_type", StringV (str "assistant"));
                            (str "content", SliceV (parseBlocks contentData))])
            | None => None
            end
        | None => None
        end
      else if eqb msgType (str "system") then
        let subtype := stringOr (getStringOk data (str "subtype")) in
        Some (MapV [(str "_type", StringV (str "system"));
                    (str "subtype", StringV subtype);
                    (str "data", MapV data)])
      else if eqb msgType (str "result") then
        let subtype := stringOr (getStringOk data (str "subtype")) in
        let durationMs := intOfFloatOr (getFloatOk data (str "duration_ms")) in
        let durationAPIMs := intOfFloatOr (getFloatOk data (str "duration_api_ms")) in
        let isError := boolOr (getBoolOk data (str "is_error")) in
        let numTurns := intOfFloatOr (getFloatOk data (str "num_turns")) in
        let sessionID := stringOr (getStringOk data (str "session_id")) in
        let msg := [(str "_type", StringV (str "result"));
                    (str "subtype", StringV subtype);
                    (str "duration_ms", IntV durationMs);
                    (str "duration_api_ms", IntV durationAPIMs);
                    (str "is_error", BoolV isError);
                    (str "num_turns", IntV numTurns);
                    (str "session_id", StringV sessionID)] in
        let msg :=
          match getFloatOk data (str "total_cost_usd") with
          | Some totalCostUSD => insert msg (str "total_cost_usd") (FloatV totalCostUSD)
          | None => msg
          end in
        let msg :=
          match getMapOk data (str "usage") with
          | Some usage => insert msg (str "usage") (MapV usage)
          | None => msg
          end in
        let msg :=
          match getStringOk data (str "result") with
          | Some result => insert msg (str "result") (StringV result)
          | None => msg
          end in
        Some (MapV msg)
      else None
  end.

(** ** The root package *)

Inductive ContentBlock : Type :=
| TextBlock (Text : gostring)
| ToolUseBlock (ID Name : gostring) (Input : gomap)
| ToolResultBlock (ToolUseID : gostring) (Content : any) (IsError : option bool).

Record ResultMessage : Type := {
  Subtype : gostring;
  DurationMs : Z;
  DurationAPIMs : Z;
  IsError : bool;
  NumTurns : Z;
  SessionID : gostring;
  TotalCostUSD : option float64;
  Usage : gomap;
  Result : option gostring
}.

Inductive Message : Type :=
| UserMessage (Content : gostring)
| AssistantMessage (Content : list ContentBlock)
| SystemMessage (Subtype : gostring) (Data : gomap)
| ResultMsg (r : ResultMessage).

(** [getString], [getInt], [getBool], [getMap] *)
Definition getString (data : gomap) (key : gostring) : gostring :=
  stringOr (getStringOk data key).

Definition getInt (data : gomap) (key : gostring) : Z :=
  match lookup data key with
  | Some (IntV i) => i
  | Some (FloatV f) => toInt f
  | _ => 0%Z
  end.

Definition getBool (data : gomap) (key : gostring) : bool :=
  boolOr (getBoolOk data key).

Definition getMap (data : gomap) (key : gostring) : gomap :=
  mapOr (getMapOk data key).

(** [convertContentBlock]; nil is [None]. *)
Definition convertContentBlock (raw : any) : option ContentBlock :=
  match raw with
  | MapV data =>
      match getStringOk data (str "_blockType") with
      | None => None
      | Some blockType =>
          if eqb blockType (str "text") then
            match getStringOk data (str "text") with
            | Some text => Some (TextBlock text)
            | None => None
            end
          else if eqb blockType (str "tool_use") then
            Some (ToolUseBlock (getString data (str "id"))
                               (getString data (str "name"))
                               (getMap data (str "input")))
          else if eqb blockType (str "tool_result") then
            Some (ToolResultBlock
                    (getString data (str "tool_use_id"))
                    (match lookup data (str "content") with
                     | Some content => content
                     | None => Nil
                     end)
                    (getBoolOk data (str "is_error")))
          else None
      end
  | _ => None
  end.

(** The loop of [convertMessage] over the content of an assistant
    message. *)
Fixpoint convertBlocks (contentData : list any) : list ContentBlock :=
  match contentData with
  | [] => []
  | blockData :: rest =>
      match convertContentBlock blockData with
      | Some block => block :: convertBlocks rest
      | None => convertBlocks rest
      end
  end.

(** [convertMessage]; nil is [None]. *)
Definition convertMessage (raw : any) : option Message :=
  match raw with
  | MapV data =>
      match getStringOk data (str "_type") with
      | None => None
      | Some msgType =>
          if eqb msgType (str "user") then
            match getStringOk data (str "content") with
            | Some content => Some (UserMessage content)
            | None => None
            end
          else if eqb msgType (str "assistant") then
            match getSliceOk data (str "content") with
            | Some contentData => Some (AssistantMessage (convertBlocks contentData))
            | None => None
            end
          else if eqb msgType (str "system") then
            Some (SystemMessage (stringOr (getStringOk data (str "subtype")))
                                (mapOr (getMapOk data (str "data"))))
          else if eqb msgType (str "result") then
            Some (ResultMsg
                    {| Subtype := getString data (str "subtype");
                       DurationMs := getInt data (str "duration_ms");
                       DurationAPIMs := getInt data (str "duration_api_ms");
                       IsError := getBool data (str "is_error");
                       NumTurns := getInt data (str "num_turns");
                       SessionID := getString data (str "session_id");
                       TotalCostUSD := getFloatOk data (str "total_cost_usd");
                       Usage := mapOr (getMapOk data (str "usage"));
                       Result := getStringOk data (str "result") |})
          else None
      end
  | _ => None
  end.

(** ** The two stages in a row *)

(** What the two stages make of one element of the content of an
    assistant message: [parseMessage] hands it to [parseContentBlock] if it
    is a map, and [convertMessage] hands the outcome to
    [convertContentBlock]. *)
Definition convertParsedBlock (blockData : any) : option ContentBlock :=
  match blockData with
  | MapV blockMap =>
      match parseContentBlock blockMap with
      | Some block => convertContentBlock block
      | None => None
      end
  | _ => None
  end.

(** What the two stages make of one decoded line: the goroutine of
    [ProcessQuery] applies [parseMessage] to it and sends on what is not
    nil, to which the goroutine of [Query] applies [convertMessage]. *)
Definition pipeline (data : gomap) : option Message :=
  match parseMessage data with
  | Some raw => convertMessage raw
  | None => None
  end.

End Values.

Arguments Nil {float64}.
Arguments StringV {float64} s.
Arguments IntV {float64} i.
Arguments BoolV {float64} b.

End Messages.

Import Messages.

(* ===================================================================== *)
(** * Options.BuildCLIArgs *)
(* ===================================================================== *)

Module CLIArgs.

Section Args.

(** [McpServerConfig] is only counted and handed to [json.Marshal];
    [Marshal servers] is
    [json.Marshal(map[string]interface{}{"mcpServers": servers})], and
    [Quote] the verb [%q] of [fmt]. *)
Variable McpServerConfig : Type.
Variable Marshal : list (gostring * McpServerConfig) -> gostring + error.
Variable Quote : gostring -> gostring.

(** The fields of [Options] that [BuildCLIArgs] reads; a nil pointer is
    [None], a map the list of its bindings.  The other four fields are the
    record [Options] above. *)
Record ArgOptions : Type := {
  AllowedTools : list gostring;
  MaxThinkingTokens : Z;
  SystemPrompt : gostring;
  AppendSystemPrompt : gostring;
  McpTools : list gostring;
  McpServers : list (gostring * McpServerConfig);
  PermissionMode : option gostring;
  ContinueConversation : bool;
  Resume : gostring;
  MaxTurns : option Z;
  DisallowedTools : list gostring;
  Model : gostring;
  PermissionPromptToolName : gostring
}.

(** [fmt.Errorf(prefix + ": %w", err)]: the error whose text is the
    prefix, a colon and the text of [err]. *)
Definition wrapf (prefix : gostring) (err : error) : error :=
  errorString (prefix ++ str ": " ++ ErrorText err).

(** The functions below take the slice [*args] and return it with what
    they appended, beside their error. *)
Definition step : Type := (list gostring * option error)%type.

(** [validateToolList] *)
Fixpoint validateToolList (validatedTools tools : list gostring) (toolType : gostring)
  : list gostring + error :=
  match tools with
  | [] => inl validatedTools
  | tool :: rest =>
      match SanitizeCommandArg tool with
      | inr err =>
          inr (wrapf (str "invalid " ++ toolType ++ str " tool name " ++ Quote tool) err)
      | inl sanitized => validateToolList (validatedTools ++ [sanitized]) rest toolType
      end
  end.

(** [addPromptArgs] *)
Definition addPromptArgs (o : ArgOptions) (args : list gostring) : step :=
  let r : step :=
    if negb (eqb (SystemPrompt o) []) then
      match SanitizeString (SystemPrompt o) Validation.MaxStringLength with
      | inr err => (args, Some (wrapf (str "invalid system prompt") err))
      | inl sanitized => (args ++ [str "--system-prompt"; sanitized], None)
      end
    else (args, None) in
  match r with
  | (args, Some err) => (args, Some err)
  | (args, None) =>
      if negb (eqb (AppendSystemPrompt o) []) then
        match SanitizeString (AppendSystemPrompt o) Validation.MaxStringLength with
        | inr err => (args, Some (wrapf (str "invalid append system prompt") err))
        | inl sanitized => (args ++ [str "--append-system-prompt"; sanitized], None)
        end
      else (args, None)
  end.

(** [addToolArgs] *)
Definition addToolArgs (o : ArgOptions) (args : list gostring) : step :=
  let r : step :=
    match AllowedTools o with
    | _ :: _ =>
        match validateToolList [] (AllowedTools o) (str "allowed") with
        | inr err => (args, Some err)
        | inl tools => (args ++ [str "--allowedTools"; Join tools (str ",")], None)
        end
    | [] => (args, None)
    end in
  match r with
  | (args, Some err) => (args, Some err)
  | (args, None) =>
      match DisallowedTools o with
      | _ :: _ =>
          match validateToolList [] (DisallowedTools o) (str "disallowed") with
          | inr err => (args, Some err)
          | inl tools => (args ++ [str "--disallowedTools"; Join tools (str ",")], None)
          end
      | [] => (args, None)
      end
  end.

(** [addPermissionArgs] *)
Definition addPermissionArgs (o : ArgOptions) (args : list gostring) : step :=
  let r : step :=
    if negb (eqb (PermissionPromptToolName o) []) then
      match SanitizeCommandArg (PermissionPromptToolName o) with
      | inr err => (args, Some (wrapf (str "invalid permission prompt tool name") err))
      | inl sanitized => (args ++ [str "--permission-prompt-tool"; sanitized], None)
      end
    else (args, None) in
  match r with
  | (args, Some err) => (args, Some err)
  | (args, None) =>
      match PermissionMode o with
      | Some mode =>
          if negb (eqb mode (str "default")) && negb (eqb mode (str "acceptEdits"))
             && negb (eqb mode (str "bypassPermissions"))
          then (args, Some (errorString (str "invalid permission mode: " ++ mode)))
          else (args ++ [str "--permission-mode"; mode], None)
      | None => (args, None)
      end
  end.

(** [addConfigArgs] *)
Definition addConfigArgs (o : ArgOptions) (args : list gostring) : step :=
  let r : step :=
    match MaxTurns o with
    | Some maxTurns =>
        if (maxTurns <? 0)%Z || (1000 <? maxTurns)%Z
        then (args, Some (errorString (str "max turns must be between 0 and 1000")))
        else (args ++ [str "--max-turns"; itoa maxTurns], None)
    | None => (args, None)
    end in
  match r with
  | (args, Some err) => (args, Some err)
  | (args, None) =>
      let r : step :=
        if negb (eqb (Model o) []) then
          match ValidateModel (Model o) with
          | Some err => (args, Some err)
          | None => (args ++ [str "--model"; Model o], None)
          end
        else (args, None) in
      match r with
      | (args, Some err) => (args, Some err)
      | (args, None) =>
          if negb (MaxThinkingTokens o =? 8000)%Z then
            if (MaxThinkingTokens o <? 0)%Z || (100000 <? MaxThinkingTokens o)%Z
            then (args, Some (errorString
                                (str "max thinking tokens must be between 0 and 100000")))
            else (args ++ [str "--max-thinking-tokens"; itoa (MaxThinkingTokens o)], None)
          else (args, None)
      end
  end.

(** [addSessionArgs] *)
Definition addSessionArgs (o : ArgOptions) (args : list gostring) : step :=
  let args := if ContinueConversation o then args ++ [str "--continue"] else args in
  if negb (eqb (Resume o) []) then
    match SanitizeCommandArg (Resume o) with
    | inr err => (args, Some (wrapf (str "invalid resume ID") err))
    | inl sanitized => (args ++ [str "--resume"; sanitized], None)
    end
  else (args, None).

(** [addMCPArgs] *)
Definition addMCPArgs (o : ArgOptions) (args : list gostring) : step :=
  let r : step :=
    match McpTools o with
    | _ :: _ =>
        match validateToolList [] (McpTools o) (str "MCP") with
        | inr err => (args, Some err)
        | inl tools => (args ++ [str "--mcp-tools"; Join tools (str ",")], None)
        end
    | [] => (args, None)
    end in
  match r with
  | (args, Some err) => (args, Some err)
  | (args, None) =>
      match McpServers o with
      | _ :: _ =>
          match Marshal (McpServers o) with
          | inr err => (args, Some (wrapf (str "failed to marshal MCP config") err))
          | inl configJSON =>
              if (Validation.MaxJSONSize <? len configJSON)%Z
              then (args, Some (errorString (str "MCP config exceeds maximum size")))
              else (args ++ [str "--mcp-config"; configJSON], None)
          end
      | [] => (args, None)
      end
  end.

(** [BuildCLIArgs]; the receiver is [None] for a nil pointer, and the
    result is the slice, or the error with a nil slice. *)
Definition BuildCLIArgs (o : option ArgOptions) : list gostring + error :=
  match o with
  | None => inl []
  | Some o =>
      match addPromptArgs o [] with
      | (_, Some err) => inr err
      | (args, None) =>
      match addToolArgs o args with
      | (_, Some err) => inr err
      | (args, None) =>
      match addConfigArgs o args with
      | (_, Some err) => inr err
      | (args, None) =>
      match addPermissionArgs o args with
      | (_, Some err) => inr err
      | (args, None) =>
      match addSessionArgs o args with
      | (_, Some err) => inr err
      | (args, None) =>
      match addMCPArgs o args with
      | (_, Some err) => inr err
      | (args, None) => inl args
      end end end end end end
  end.

(** ** Notions used to state what [BuildCLIArgs] returns *)

(** The arguments of a flag that is given when [present]. *)
Definition flag (present : bool) (name value : gostring) : list gostring :=
  if present then [name; value] else [].

Definition nonEmpty (s : gostring) : bool := negb (eqb s []).

Definition someTools (l : list gostring) : bool :=
  match l with [] => false | _ :: _ => true end.

End Args.

End CLIArgs.

(* ===================================================================== *)
(** * Further scenarios *)
(* ===================================================================== *)

Module Cases.

(** The lines of [mixedLines] followed by a failure of the stdout pipe. *)
Definition mixedThenBroken : cycleEnv :=
  run {| Bufio.bytes := unlines mixedLines;
         Bufio.readErr := Some (errorString (str "read |0: file already closed")) |}
      (eof []) 0 WaitNil.

(** The lines of [mixedLines], with a context found done when the record
    of the second line is sent. *)
Definition canceledAtSecondSend : cycleEnv :=
  {| stdoutBytes := eof (unlines mixedLines); stderrBytes := eof [];
     stderrSeen := 0;
     doneAtCheck := never; doneAtSend := fun i => Nat.eqb i 1;
     ctxErr := canceled; waitResult := WaitNil; panicAt := None |}.

(** Decoded lines, with whole numbers for [float64] and [int(f)] the
    number itself. *)
Definition wholeInt (f : Z) : Z := f.

Definition userRecord : Messages.gomap Z :=
  [(str "type", StringV (str "user"));
   (str "message", MapV [(str "role", StringV (str "user"));
                         (str "content", StringV (str "Hello, Claude!"))])].

Definition systemRecord : Messages.gomap Z :=
  [(str "type", StringV (str "system")); (str "subtype", StringV (str "init"));
   (str "session_id", StringV (str "abc"))].

(** A result line whose [num_turns] is a string and that has no
    [duration_api_ms]. *)
Definition resultRecord : Messages.gomap Z :=
  [(str "type", StringV (str "result")); (str "subtype", StringV (str "success"));
   (str "duration_ms", FloatV 1500%Z); (str "is_error", BoolV false);
   (str "num_turns", StringV (str "3")); (str "session_id", StringV (str "abc"));
   (str "total_cost_usd", FloatV 2%Z); (str "result", StringV (str "done"))].

Definition textBlockData : any Z :=
  MapV [(str "type", StringV (str "text")); (str "text", StringV (str "Hi"))].

Definition toolUseData : any Z :=
  MapV [(str "type", StringV (str "tool_use")); (str "id", StringV (str "t1"));
        (str "name", StringV (str "Read"));
        (str "input", MapV [(str "file_path", StringV (str "/tmp/x"))])].

(** A block of a kind the code does not know. *)
Definition thinkingData : any Z :=
  MapV [(str "type", StringV (str "thinking")); (str "thinking", StringV (str "hm"))].

Definition assistantContent : list (any Z) :=
  [textBlockData; StringV (str "stray"); thinkingData; toolUseData].

Definition assistantRecord : Messages.gomap Z :=
  [(str "type", StringV (str "assistant"));
   (str "message", MapV [(str "role", StringV (str "assistant"));
                         (str "content", SliceV assistantContent)])].

(** What the goroutine of [ProcessQuery] sees: two records, one of an
    unknown type, and the closed record channel of the transport. *)
Definition transportTurns : list (Client.arrival (Messages.gomap Z)) :=
  [Client.GotMsg userRecord false;
   Client.GotMsg [(str "type", StringV (str "stream_event"))] false;
   Client.GotMsg resultRecord false;
   Client.MsgClosed _].

(** What the goroutine of [Query] sees of it. *)
Definition clientTurns : list (Client.arrival (any Z)) :=
  flat_map (fun a => match a with
                     | Client.GotMsg m ab =>
                         match parseMessage wholeInt m with
                         | Some raw => [Client.GotMsg raw ab]
                         | None => []
                         end
                     | _ => []
                     end) transportTurns
  ++ [Client.MsgClosed _].

(** Options with no MCP servers: a marshaller that is never asked, and
    [%q] on plain names. *)
Definition marshalNone (servers : list (gostring * unit)) : gostring + error :=
  inl (quoted "{'mcpServers':{}}").

Definition quoteName (s : gostring) : gostring := [dquote] ++ s ++ [dquote].

Definition readOnly : CLIArgs.ArgOptions unit :=
  {| CLIArgs.AllowedTools := [str "Read"; nbsp ++ str " Grep "];
     CLIArgs.MaxThinkingTokens := 8000;
     CLIArgs.SystemPrompt := str "  Be brief. ";
     CLIArgs.AppendSystemPrompt := [];
     CLIArgs.McpTools := [];
     CLIArgs.McpServers := [];
     CLIArgs.PermissionMode := Some (str "default");
     CLIArgs.ContinueConversation := true;
     CLIArgs.Resume := [];
     CLIArgs.MaxTurns := Some 3%Z;
     CLIArgs.DisallowedTools := [];
     CLIArgs.Model := str "claude-sonnet-4";
     CLIArgs.PermissionPromptToolName := [] |}.

(** The same options with a tool pattern among the allowed tools. *)
Definition withPattern : CLIArgs.ArgOptions unit :=
  {| CLIArgs.AllowedTools := [str "Read"; str "Bash(git log)"];
     CLIArgs.MaxThinkingTokens := 8000;
     CLIArgs.SystemPrompt := str "  Be brief. ";
     CLIArgs.AppendSystemPrompt := [];
     CLIArgs.McpTools := [];
     CLIArgs.McpServers := [];
     CLIArgs.PermissionMode := Some (str "default");
     CLIArgs.ContinueConversation := true;
     CLIArgs.Resume := [];
     CLIArgs.MaxTurns := Some 3%Z;
     CLIArgs.DisallowedTools := [];
     CLIArgs.Model := str "claude-sonnet-4";
     CLIArgs.PermissionPromptToolName := [] |}.

End Cases.

Import Cases.

(* ===================================================================== *)
(** * Properties *)
(* ===================================================================== *)

Local Open Scope Z_scope.

(** Split a conjunction into its parts, and nothing else. *)
Ltac splits := repeat match goal with |- _ /\ _ => split end.

(** ** Strings and channels *)

Lemma len_app (a b : gostring) : len (a ++ b) = len a + len b.
Proof. unfold len. rewrite length_app. lia. Qed.

Lemma len_firstn_le (n : nat) (s : gostring) : len (firstn n s) <= Z.of_nat n.
Proof. unfold len. pose proof (firstn_le_length n s). lia. Qed.

Lemma len_rev (s : gostring) : len (rev s) = len s.
Proof. unfold len. now rewrite length_rev. Qed.

Section Strip.
Variable two : ascii -> ascii -> bool.
Variable three : ascii -> ascii -> ascii -> bool.

(** [strip] leaves an end of the string. *)
Lemma strip_suffix_fuel (n : nat) :
  forall s, (List.length s <= n)%nat -> exists p, s = p ++ strip two three s.
Proof.
  induction n as [|n IH]; intros s Hs.
  - destruct s; [exists []; reflexivity|simpl in Hs; lia].
  - destruct s as [|a r]; [exists []; reflexivity|].
    cbn [strip]. cbn [List.length] in Hs.
    destruct (isSpace a).
    { destruct (IH r) as [p Hp]; [lia|]. exists (a :: p). simpl. congruence. }
    destruct r as [|b r2]; [exists []; reflexivity|].
    cbn [List.length] in Hs.
    destruct (two a b).
    { destruct (IH r2) as [p Hp]; [lia|]. exists (a :: b :: p). simpl. congruence. }
    destruct r2 as [|c r3]; [exists []; reflexivity|].
    cbn [List.length] in Hs.
    destruct (three a b c); [|exists []; reflexivity].
    destruct (IH r3) as [p Hp]; [lia|]. exists (a :: b :: c :: p). simpl. congruence.
Qed.

Lemma strip_suffix (s : gostring) : exists p, s = p ++ strip two three s.
Proof. apply (@strip_suffix_fuel (List.length s)). lia. Qed.

Lemma strip_length (s : gostring) :
  (List.length (strip two three s) <= List.length s)%nat.
Proof.
  destruct (strip_suffix s) as [p Hp]. rewrite Hp at 2. rewrite length_app. lia.
Qed.

End Strip.

Lemma trimLeft_length (s : gostring) :
  (List.length (trimLeft s) <= List.length s)%nat.
Proof. apply strip_length. Qed.

Lemma trimRight_length (s : gostring) :
  (List.length (trimRight s) <= List.length s)%nat.
Proof.
  unfold trimRight. rewrite length_rev.
  pose proof (strip_length isSpace2Rev isSpace3Rev (rev s)) as H.
  rewrite length_rev in H. exact H.
Qed.

Lemma TrimSpace_len (s : gostring) : len (TrimSpace s) <= len s.
Proof.
  unfold TrimSpace, len.
  pose proof (trimRight_length (trimLeft s)) as H1.
  pose proof (trimLeft_length s) as H2.
  lia.
Qed.

(** White space outside ASCII is trimmed from a stdout line like any
    other: behind a no-break space, a line that begins with a brace and
    does not decode is not noise, and a line that decodes yields its
    record. *)
Lemma white_space_runes_trimmed :
  TrimSpace (nbsp ++ str " {bad " ++ nbsp) = str "{bad"
  /\ noise JSON.Unmarshal (nbsp ++ str "{bad") = false
  /\ decodeOne JSON.Unmarshal (nbsp ++ quoted "{'type':'x'}")
     = [[(str "type", JSON.String (str "x"))]].
Proof. splits; vm_compute; reflexivity. Qed.

Section ChannelFacts.
Variable A : Type.

Lemma trySend_room (c : chan A) (v : A) :
  (List.length (buf c) < cap c)%nat ->
  trySend c v = Some {| cap := cap c; buf := buf c ++ [v]; got := got c;
                        closes := closes c |}.
Proof.
  intros H. unfold trySend, full.
  destruct (Nat.leb_spec (cap c) (List.length (buf c))); [lia|reflexivity].
Qed.

Ltac split_leb :=
  repeat match goal with
         | |- context [Nat.leb ?a ?b] => destruct (Nat.leb_spec a b)
         end.

Lemma sendWait_cap (c : chan A) (v : A) : cap (sendWait c v) = cap c.
Proof.
  unfold sendWait, trySend, consume, full.
  destruct c as [cp [|x b] gt cl]; simpl; split_leb; reflexivity.
Qed.

Lemma sendWait_closes (c : chan A) (v : A) : closes (sendWait c v) = closes c.
Proof.
  unfold sendWait, trySend, consume, full.
  destruct c as [cp [|x b] gt cl]; simpl; split_leb; reflexivity.
Qed.

Lemma sendWait_wf (c : chan A) (v : A) : wf c -> wf (sendWait c v).
Proof.
  unfold wf, sendWait, trySend, consume, full.
  destruct c as [cp [|x b] gt cl]; simpl; intros H; split_leb; simpl;
    rewrite ?length_app; simpl; lia.
Qed.

Lemma sendWait_delivered (c : chan A) (v : A) :
  wf c -> delivered (sendWait c v) = delivered c ++ [v].
Proof.
  unfold wf, delivered, sendWait, trySend, consume, full.
  destruct c as [cp [|x b] gt cl]; simpl; intros H; split_leb; simpl;
    rewrite ?app_nil_r, <- ?app_assoc; simpl; try reflexivity; lia.
Qed.

End ChannelFacts.

(** ** The scanner *)

Section ScannerFacts.
Variable maxTokenSize : Z.

Lemma dropCR_len (d : gostring) : len (Bufio.dropCR d) <= len d.
Proof.
  unfold Bufio.dropCR. destruct (rev d) as [|c r] eqn:E; [lia|].
  destruct (Ascii.eqb c carriageReturn); [|lia].
  rewrite len_rev. rewrite <- (len_rev d), E. unfold len. cbn [List.length]. lia.
Qed.

(** No token is as long as the buffer limit. *)
Lemma scanFrom_tokens_fit (d cur : gostring) :
  0 < maxTokenSize ->
  len cur < maxTokenSize ->
  Forall (fun tok => len tok < maxTokenSize)
         (fst (Bufio.scanFrom maxTokenSize cur d)).
Proof.
  intros Hpos. revert cur.
  induction d as [|c rest IH]; intros cur Hcur; simpl.
  - destruct cur as [|x cur']; constructor; [|constructor].
    pose proof (dropCR_len (rev (x :: cur'))) as H.
    rewrite len_rev in H. lia.
  - destruct (Ascii.eqb c newline).
    + specialize (IH [] Hpos).
      destruct (Bufio.scanFrom maxTokenSize [] rest) as [toks e]. simpl in *.
      constructor; [|exact IH].
      pose proof (dropCR_len (rev cur)) as H. rewrite len_rev in H. lia.
    + destruct (Z.leb_spec maxTokenSize (len cur + 1)); simpl.
      * constructor.
      * apply IH. unfold len in *. cbn [List.length]. lia.
Qed.

(** A line that fills the buffer before its line feed ends the scan. *)
Lemma scanFrom_too_long (line cur rest : gostring) :
  Forall (fun c => c <> newline) line ->
  len cur < maxTokenSize ->
  maxTokenSize <= len cur + len line ->
  Bufio.scanFrom maxTokenSize cur (line ++ rest) = ([], true).
Proof.
  revert cur.
  induction line as [|c line IH]; intros cur Hnl Hcur Hlong.
  - unfold len in Hlong at 2. cbn [List.length] in Hlong. lia.
  - simpl. inversion Hnl as [|? ? Hc Hrest]; subst.
    destruct (Ascii.eqb_spec c newline) as [->|_]; [congruence|].
    destruct (Z.leb_spec maxTokenSize (len cur + 1)); [reflexivity|].
    apply IH; [assumption | | ]; unfold len in *; cbn [List.length] in *; lia.
Qed.

Lemma Scan_tokens_fit (r : Bufio.stream) :
  0 < maxTokenSize ->
  Forall (fun tok => len tok < maxTokenSize)
         (Bufio.tokens (Bufio.Scan maxTokenSize r)).
Proof.
  intros Hpos. unfold Bufio.Scan.
  pose proof (@scanFrom_tokens_fit (Bufio.bytes r) [] Hpos Hpos) as H.
  destruct (Bufio.scanFrom maxTokenSize [] (Bufio.bytes r)). exact H.
Qed.

Lemma Scan_too_long (line rest : gostring) (re : option error) :
  0 < maxTokenSize ->
  Forall (fun c => c <> newline) line ->
  maxTokenSize <= len line ->
  Bufio.Scan maxTokenSize {| Bufio.bytes := line ++ rest; Bufio.readErr := re |}
  = {| Bufio.tokens := []; Bufio.scanErr := Some Bufio.ErrTooLong |}.
Proof.
  intros Hpos Hnl Hlong. unfold Bufio.Scan. simpl.
  rewrite scanFrom_too_long; auto.
Qed.

End ScannerFacts.

Lemma MaxJSONSize_pos : 0 < Validation.MaxJSONSize.
Proof. reflexivity. Qed.

(** ** The Options accessors *)

Lemma wrap64_small (z : Z) : int_min <= z <= int_max -> wrap64 z = z.
Proof.
  unfold wrap64, int_min, int_max. intros H.
  rewrite Z.mod_small; lia.
Qed.

Lemma GetMessageBufferSize_pos (o : option Options) : 1 <= GetMessageBufferSize o.
Proof.
  destruct o as [o|]; simpl; [|lia].
  destruct (Z.leb_spec (MessageBufferSize o) 0); lia.
Qed.

Lemma GetErrorBufferSize_pos (o : option Options) : 1 <= GetErrorBufferSize o.
Proof.
  destruct o as [o|]; simpl; [|lia].
  destruct (Z.leb_spec (ErrorBufferSize o) 0); lia.
Qed.

Lemma bufferSizes_pos (v : optionsValue) :
  1 <= fst (bufferSizes v) /\ 1 <= snd (bufferSizes v).
Proof.
  destruct v; simpl; try lia.
  split; [apply GetMessageBufferSize_pos | apply GetErrorBufferSize_pos].
Qed.

Lemma queryOptions_same_sizes (o : option Options) :
  GetMessageBufferSize (Client.queryOptions o) = GetMessageBufferSize o
  /\ GetErrorBufferSize (Client.queryOptions o) = GetErrorBufferSize o
  /\ GetQueryTimeout (Client.queryOptions o) = GetQueryTimeout o.
Proof. destruct o; auto. Qed.

Section ForwardFacts.
Variables In Out : Type.
Variable convert : In -> option Out.

Lemma forwardError_cap ctxDone pickSend (c c' : chan error) e evs :
  Client.forwardError Out ctxDone pickSend c e = Some (c', evs) ->
  cap c' = cap c /\ closes c' = closes c.
Proof.
  unfold Client.forwardError, trySend, tryRecv.
  destruct c as [cp bf gt cl]; simpl.
  destruct (full _); destruct ctxDone, pickSend; simpl;
    try (intros H; inversion H; subst; simpl; auto; fail);
    destruct bf as [|x b]; simpl;
    try (intros H; inversion H; subst; simpl; auto; fail);
    destruct (full _); intros H; inversion H; subst; simpl; auto.
Qed.

Lemma forwardLoop_caps (turns : list (Client.arrival In)) :
  forall s s' r,
    Client.forwardLoop convert turns s = (s', r) ->
    cap (msgCh s') = cap (msgCh s) /\ cap (errCh s') = cap (errCh s)
    /\ closes (msgCh s') = closes (msgCh s)
    /\ closes (errCh s') = closes (errCh s).
Proof.
  induction turns as [|a rest IH]; intros s s' r H; simpl in H.
  - inversion H; subst; auto.
  - destruct a as [m ab| |[e|] d p| | |v].
    + destruct (convert m).
      * destruct ab; [inversion H; subst; auto|].
        apply IH in H. simpl in H.
        rewrite sendWait_cap, sendWait_closes in H. exact H.
      * eauto.
    + inversion H; subst; auto.
    + destruct (Client.forwardError Out d p (errCh s) e) as [[c evs]|] eqn:E.
      * apply forwardError_cap in E. inversion H; subst; simpl. tauto.
      * inversion H; subst; auto.
    + eauto.
    + inversion H; subst; auto.
    + inversion H; subst; auto.
    + inversion H; subst; auto.
Qed.

Lemma sendErr_caps (s s' : chans Out) e :
  sendErr s e = Some s' ->
  cap (msgCh s') = cap (msgCh s) /\ cap (errCh s') = cap (errCh s)
  /\ closes (msgCh s') = closes (msgCh s)
  /\ closes (errCh s') = closes (errCh s).
Proof.
  unfold sendErr, trySend. destruct (full _); [discriminate|].
  intros H; inversion H; subst; simpl; auto.
Qed.

Lemma Query_caps (o : option Options) (turns : list (Client.arrival In)) :
  cap (msgCh (final (Client.Query convert o turns)))
  = Z.to_nat (GetMessageBufferSize o)
  /\ cap (errCh (final (Client.Query convert o turns)))
     = Z.to_nat (GetErrorBufferSize o).
Proof.
  unfold Client.Query.
  destruct (Client.forwardLoop convert turns (Client.queryChans Out o))
    as [s r] eqn:E.
  apply forwardLoop_caps in E. destruct E as (E1 & E2 & _).
  unfold Client.queryChans, newChans in E1, E2. simpl in E1, E2.
  destruct (queryOptions_same_sizes o) as (Q1 & Q2 & _).
  rewrite Q1 in E1. rewrite Q2 in E2.
  unfold Client.queryDeferred.
  destruct r; simpl; auto.
  destruct (sendErr s _) as [s'|] eqn:S; simpl; auto.
  apply sendErr_caps in S. destruct S as (S1 & S2 & _).
  rewrite S1, S2. auto.
Qed.

End ForwardFacts.

(** C10, as stated, fails: a positive [QueryTimeout] of 9223372037 seconds
    is a legal [int], yet [GetQueryTimeout] does not return that many
    seconds; the product wraps around to a negative duration (for which
    [Query] sets no timeout). *)
Lemma query_timeout_wraps_around :
  in_int (QueryTimeout hugeTimeout)
  /\ 0 < QueryTimeout hugeTimeout
  /\ GetQueryTimeout (Some hugeTimeout) <> QueryTimeout hugeTimeout * Second
  /\ GetQueryTimeout (Some hugeTimeout) < 0
  /\ Client.queryTimeout (Some hugeTimeout) = None.
Proof.
  unfold in_int, int_min, int_max. cbn.
  splits; try lia; try discriminate; try reflexivity.
Qed.

Lemma makeChans_fits (data : Type) (limit elemSize m e : Z) :
  0 <= m -> 0 <= e -> elemSize * m <= limit -> 16 * e <= limit ->
  makeChans data limit elemSize m e = Some (newChans data m e).
Proof.
  intros Hm He Lm Le. unfold makeChans, makechan, newChans.
  destruct (Z.ltb_spec m 0); [lia|]. destruct (Z.ltb_spec limit (elemSize * m)); [lia|].
  destruct (Z.ltb_spec e 0); [lia|]. destruct (Z.ltb_spec limit (16 * e)); [lia|].
  reflexivity.
Qed.

Lemma makeChans_panics (data : Type) (limit elemSize m e : Z) :
  limit < elemSize * m \/ limit < 16 * e ->
  makeChans data limit elemSize m e = None.
Proof.
  intros H. unfold makeChans, makechan.
  destruct (Z.ltb_spec m 0); [reflexivity|].
  destruct (Z.ltb_spec limit (elemSize * m)); [reflexivity|].
  destruct (Z.ltb_spec e 0); [reflexivity|].
  destruct (Z.ltb_spec limit (16 * e)); [reflexivity|]. lia.
Qed.

(** A message buffer of 2^44 values is a legal positive [int], and
    [GetMessageBufferSize] returns it; but the [make] of [ProcessQuery]
    panics on it, in the goroutine of the caller of [Query], and [Query]
    returns no channels. *)
Lemma query_panics_on_huge_buffer (In Out : Type) :
  in_int (MessageBufferSize hugeBuffer)
  /\ GetMessageBufferSize (Some hugeBuffer) = 2 ^ 44
  /\ Client.queryCall In Out limit64 (Some hugeBuffer) = None.
Proof.
  unfold in_int, int_min, int_max. split; [cbn; lia|]. split; reflexivity.
Qed.

(** C10 (amended): the accessors are total on a nil receiver and clamp:
    [GetQueryTimeout] is 0 for nil or a non-positive [QueryTimeout] and
    [QueryTimeout] seconds for a positive one of at most 9223372036 (so that
    the nanoseconds fit in 64 bits); [GetMessageBufferSize] is 10 and
    [GetErrorBufferSize] is 1 for nil or a non-positive field, else the
    field.  These two are the capacities of the channels that [Query]
    returns whenever both buffers, of 16 bytes a value, fit in the limit
    that the platform sets for the buffer of a channel; when one does not,
    a [make] panics in the goroutine of the caller and [Query] returns no
    channels. *)
Theorem options_accessors_clamp :
  GetQueryTimeout None = 0
  /\ GetMessageBufferSize None = 10
  /\ GetErrorBufferSize None = 1
  /\ (forall r : Options,
         (QueryTimeout r <= 0 -> GetQueryTimeout (Some r) = 0)
         /\ (0 < QueryTimeout r <= 9223372036 ->
             GetQueryTimeout (Some r) = QueryTimeout r * Second)
         /\ (MessageBufferSize r <= 0 -> GetMessageBufferSize (Some r) = 10)
         /\ (0 < MessageBufferSize r ->
             GetMessageBufferSize (Some r) = MessageBufferSize r)
         /\ (ErrorBufferSize r <= 0 -> GetErrorBufferSize (Some r) = 1)
         /\ (0 < ErrorBufferSize r ->
             GetErrorBufferSize (Some r) = ErrorBufferSize r))
  /\ (forall (In Out : Type) (limit : Z) (o : option Options),
         (Client.interfaceSize * GetMessageBufferSize o <= limit ->
          Client.interfaceSize * GetErrorBufferSize o <= limit ->
          exists s,
            Client.queryCall In Out limit o = Some s
            /\ s = Client.queryChans Out o
            /\ cap (msgCh s) = Z.to_nat (GetMessageBufferSize o)
            /\ cap (errCh s) = Z.to_nat (GetErrorBufferSize o)
            /\ forall (convert : In -> option Out) (turns : list (Client.arrival In)),
                cap (msgCh (final (Client.Query convert o turns)))
                = Z.to_nat (GetMessageBufferSize o)
                /\ cap (errCh (final (Client.Query convert o turns)))
                   = Z.to_nat (GetErrorBufferSize o))
         /\ (limit < Client.interfaceSize * GetMessageBufferSize o
             \/ limit < Client.interfaceSize * GetErrorBufferSize o ->
             Client.queryCall In Out limit o = None)).
Proof.
  do 3 (split; [reflexivity|]). split.
  - intros r. splits; intros H; simpl.
    + destruct (Z.leb_spec (QueryTimeout r) 0); [reflexivity|lia].
    + destruct (Z.leb_spec (QueryTimeout r) 0); [lia|].
      apply wrap64_small. unfold int_min, int_max, Second. lia.
    + destruct (Z.leb_spec (MessageBufferSize r) 0); [reflexivity|lia].
    + destruct (Z.leb_spec (MessageBufferSize r) 0); [lia|reflexivity].
    + destruct (Z.leb_spec (ErrorBufferSize r) 0); [reflexivity|lia].
    + destruct (Z.leb_spec (ErrorBufferSize r) 0); [lia|reflexivity].
  - intros In Out limit o.
    destruct (queryOptions_same_sizes o) as (Q1 & Q2 & _).
    pose proof (GetMessageBufferSize_pos o) as Pm.
    pose proof (GetErrorBufferSize_pos o) as Pe.
    unfold Client.interfaceSize, Client.queryCall, bufferSizes.
    rewrite Q1, Q2. split.
    + intros Lm Le.
      rewrite (@makeChans_fits In limit 16) by lia.
      rewrite (@makeChans_fits Out limit 16) by lia.
      exists (newChans Out (GetMessageBufferSize o) (GetErrorBufferSize o)).
      split; [reflexivity|]. split.
      { unfold Client.queryChans. rewrite Q1, Q2. reflexivity. }
      split; [reflexivity|]. split; [reflexivity|].
      intros convert turns. apply Query_caps.
    + intros H. rewrite (@makeChans_panics In limit 16) by exact H. reflexivity.
Qed.

(** ** The stderr collector *)

Lemma stderrMarker_len : len stderrMarker = 35.
Proof. reflexivity. Qed.

Lemma collectLine_bounded (acc : list gostring) (line : gostring) :
  stderrBounded acc -> stderrBounded (collectLine acc line).
Proof.
  intros (content & extra & -> & Hn & Hx & Hall).
  unfold stderrBounded, collectLine.
  set (line' := if Validation.MaxStderrLineLength <? len line
                then firstn (Z.to_nat Validation.MaxStderrLineLength) line ++ str "..."
                else line).
  assert (Hline : len line' <= Validation.MaxStderrLineLength + 3).
  { subst line'. destruct (Z.ltb_spec Validation.MaxStderrLineLength (len line)).
    - rewrite len_app.
      pose proof (len_firstn_le (Z.to_nat Validation.MaxStderrLineLength) line).
      change (len (str "...")) with 3.
      rewrite Z2Nat.id in H0 by (unfold Validation.MaxStderrLineLength; lia). lia.
    - lia. }
  clearbody line'.
  unfold Validation.MaxStderrLines, Validation.MaxStderrLineLength in *.
  rewrite length_app in *.
  destruct Hx as [-> | [-> Hc]]; cbn [List.length] in *.
  - rewrite app_nil_r in *. rewrite Nat.add_0_r.
    destruct (Z.ltb_spec (Z.of_nat (List.length content)) 1000).
    + exists (content ++ [line']), []. rewrite app_nil_r, length_app.
      cbn [List.length]. splits; auto; try lia.
      apply Forall_app; split; auto.
    + destruct (Z.eqb_spec (Z.of_nat (List.length content)) 1000).
      * exists content, [stderrMarker]. splits; auto; try lia.
        apply Forall_app; split; auto. constructor; [|constructor].
        rewrite stderrMarker_len. lia.
      * exists content, []. rewrite app_nil_r. splits; auto.
  - destruct (Z.ltb_spec (Z.of_nat (List.length content + 1)) 1000); [lia|].
    destruct (Z.eqb_spec (Z.of_nat (List.length content + 1)) 1000); [lia|].
    exists content, [stderrMarker]. splits; auto.
Qed.

Lemma fold_collectLine_bounded (toks : list gostring) :
  forall acc, stderrBounded acc -> stderrBounded (fold_left collectLine toks acc).
Proof.
  induction toks as [|tok toks IH]; intros acc H; simpl; auto.
  apply IH, collectLine_bounded, H.
Qed.

(** C9: whatever the child writes to stderr, the collector keeps at most
    1001 lines: at most 1000 content lines, then at most the one marker
    line; and every line kept has at most 1000 bytes of the line written
    plus the three bytes of the suffix. *)
Theorem stderr_collector_bounded (r : Bufio.stream) :
  (List.length (collected r) <= 1001)%nat
  /\ (exists content extra,
         collected r = content ++ extra
         /\ (List.length content <= 1000)%nat
         /\ (extra = [] \/ extra = [stderrMarker]))
  /\ Forall (fun l => len l <= Validation.MaxStderrLineLength + len (str "..."))
            (collected r).
Proof.
  assert (H : stderrBounded (collected r)).
  { apply fold_collectLine_bounded. exists [], []. splits; auto.
    unfold Validation.MaxStderrLines. simpl. lia. }
  destruct H as (content & extra & E & Hn & Hx & Hall).
  unfold Validation.MaxStderrLines in *.
  splits.
  - rewrite E, length_app. destruct Hx as [-> | [-> _]]; simpl; lia.
  - exists content, extra. splits; auto; [lia|tauto].
  - exact Hall.
Qed.

(** ** The receive cycle *)

Section CycleFacts.
Variable data : Type.
Variable Unmarshal : gostring -> data + error.

Lemma sends_refl (s : chans data) : sends s s [] [].
Proof.
  unfold sends. simpl. destruct (errCh s); simpl.
  rewrite !app_nil_r. auto.
Qed.

Lemma sends_msg (s : chans data) (d : data) : sends s (sendMsg s d) [d] [].
Proof.
  unfold sends, sendMsg. simpl. destruct (errCh s); simpl.
  rewrite !app_nil_r. auto.
Qed.

Lemma sendErr_room (s : chans data) (e : error) :
  room s ->
  sendErr s e
  = Some {| msgCh := msgCh s;
            errCh := {| cap := cap (errCh s); buf := buf (errCh s) ++ [e];
                        got := got (errCh s); closes := closes (errCh s) |};
            trace := trace s ++ [SentErr data e] |}.
Proof.
  intros H. unfold sendErr. rewrite trySend_room by exact H. reflexivity.
Qed.

Lemma sends_err (s s' : chans data) (e : error) :
  room s -> sendErr s e = Some s' -> sends s s' [] [e].
Proof.
  intros H E. rewrite sendErr_room in E by exact H.
  inversion E; subst. unfold sends; simpl. auto.
Qed.

Lemma sends_trans (s s1 s2 : chans data) ds ds' es :
  sends s s1 ds [] -> sends s1 s2 ds' es -> sends s s2 (ds ++ ds') es.
Proof.
  intros (M1 & E1 & T1) (M2 & E2 & T2). unfold sends.
  rewrite M2, M1, E2, E1, T2, T1. simpl.
  rewrite fold_left_app, !app_nil_r, map_app, <- !app_assoc. auto.
Qed.

Lemma sends_room (s s' : chans data) ds :
  sends s s' ds [] -> room s -> room s'.
Proof.
  intros (_ & E & _) H. unfold room in *. rewrite E. simpl.
  rewrite app_nil_r. exact H.
Qed.

(** [processLine] never parks while the error channel has room, and does
    one of four things. *)
Lemma processLine_cases cancelled cerr line (s s' : chans data) c :
  room s ->
  processLine Unmarshal cancelled cerr line s = (s', c) ->
  (c = RetNil /\ s' = s)
  \/ (exists d, c = RetNil /\ s' = sendMsg s d /\ Unmarshal line = inl d)
  \/ (c = RetErr cerr /\ s' = s /\ cancelled = true)
  \/ (exists e err, c = RetErr err /\ sendErr s e = Some s').
Proof.
  intros Hroom. unfold processLine.
  destruct (Validation.MaxJSONSize <? len line).
  - rewrite sendErr_room by exact Hroom. intros H; inversion H; subst.
    right; right; right. do 2 eexists. split; [reflexivity|].
    apply sendErr_room, Hroom.
  - destruct (Unmarshal line) as [d|err].
    + destruct cancelled; intros H; inversion H; subst.
      * right; right; left. auto.
      * right; left. eauto.
    + destruct (HasPrefix line (str "{") || HasPrefix line (str "[")).
      * rewrite sendErr_room by exact Hroom. intros H; inversion H; subst.
        right; right; right. do 2 eexists. split; [reflexivity|].
        apply sendErr_room, Hroom.
      * intros H; inversion H; subst. auto.
Qed.

Variable env : cycleEnv.

(** The loop sends records, then at most one error, after which it has
    returned with an error; it never parks. *)
Lemma scanLoop_sends (toks : list gostring) :
  forall i (s s' : chans data) r,
    room s ->
    scanLoop Unmarshal env i toks s = (s', r) ->
    exists ds es,
      sends s s' ds es
      /\ (List.length es <= 1)%nat
      /\ r <> Some Parked
      /\ (es <> [] -> exists err, r = Some (RetErr err)).
Proof.
  induction toks as [|tok rest IH]; intros i s s' r Hroom H; simpl in H.
  - destruct (panicsScanning env i); inversion H; subst;
      exists [], []; (splits; [apply sends_refl | simpl; lia | discriminate | congruence]).
  - destruct (panicsScanning env i).
    { inversion H; subst.
      exists [], []; (splits; [apply sends_refl | simpl; lia | discriminate | congruence]). }
    destruct (doneAtCheck env i).
    { inversion H; subst.
      exists [], []; (splits; [apply sends_refl | simpl; lia | discriminate | congruence]). }
    destruct (eqb (TrimSpace tok) []); [eauto|].
    destruct (processLine Unmarshal (doneAtSend env i) (ctxErr env)
                          (TrimSpace tok) s) as [s1 c] eqn:P.
    destruct (processLine_cases _ _ _ Hroom P)
      as [[-> ->] | [(d & -> & -> & _) | [(-> & -> & _) | (e & err & -> & S)]]].
    + eauto.
    + apply IH in H.
      * destruct H as (ds & es & Hs & Hl & Hp & He).
        exists (d :: ds), es. splits; auto.
        apply (sends_trans (sends_msg s d) Hs).
      * apply (sends_room (sends_msg s d) Hroom).
    + inversion H; subst.
      exists [], []; (splits; [apply sends_refl | simpl; lia | discriminate | congruence]).
    + inversion H; subst.
      exists [], [e]. splits; [eapply sends_err; eauto | simpl; lia | discriminate | eauto].
Qed.

Lemma processStdout_sends (s s' : chans data) (c : ctl) :
  room s ->
  processStdout Unmarshal env s = (s', c) ->
  exists ds es,
    sends s s' ds es
    /\ (List.length es <= 1)%nat
    /\ c <> Parked
    /\ (es <> [] -> exists err, c = RetErr err).
Proof.
  intros Hroom. unfold processStdout.
  destruct (scanLoop Unmarshal env 0 _ s) as [s1 r] eqn:L.
  destruct (scanLoop_sends _ _ Hroom L) as (ds & es & Hs & Hl & Hp & He).
  destruct r as [c1|].
  - intros H; inversion H; subst. exists ds, es. splits; auto.
    + congruence.
    + intros Hne. destruct (He Hne) as (err & E). inversion E. eauto.
  - assert (es = []) as ->.
    { destruct es; auto. destruct He as (err & E); discriminate. }
    destruct (Bufio.scanErr _) as [err|].
    + rewrite sendErr_room by apply (sends_room Hs Hroom).
      intros H; inversion H; subst.
      exists ds, [CLIConnectionError (str "Error reading stdout")].
      splits; [ | simpl; lia | discriminate | eauto].
      rewrite <- (app_nil_r ds).
      apply (sends_trans Hs). apply sends_err.
      * apply (sends_room Hs Hroom).
      * apply sendErr_room, (sends_room Hs Hroom).
    + intros H; inversion H; subst. exists ds, [].
      splits; [assumption | simpl; lia | discriminate | congruence].
Qed.

Lemma handleProcessExit_sends stderrLines (s s' : chans data) (c : ctl) :
  room s ->
  handleProcessExit env stderrLines s = (s', c) ->
  exists es,
    sends s s' [] es
    /\ (List.length es <= 1)%nat
    /\ (c = RetNil \/ (exists v, c = Panicked v /\ es = [])).
Proof.
  intros Hroom. unfold handleProcessExit.
  destruct (panicsWaiting env) as [v|].
  { intros H; inversion H; subst. exists []. splits; [apply sends_refl|simpl; lia|eauto]. }
  destruct (waitResult env);
    try (intros H; inversion H; subst; exists [];
         splits; [apply sends_refl|simpl; lia|auto]; fail).
  destruct (negb _ && _).
  - rewrite sendErr_room by exact Hroom. intros H; inversion H; subst.
    eexists [_]. splits; [|simpl; lia|auto].
    apply sends_err; [exact Hroom|]. apply sendErr_room, Hroom.
  - intros H; inversion H; subst. exists [].
    splits; [apply sends_refl|simpl; lia|auto].
Qed.

Lemma receiveBody_sends (s s' : chans data) (c : ctl) :
  room s ->
  receiveBody Unmarshal env s = (s', c) ->
  exists ds es,
    sends s s' ds es
    /\ (List.length es <= 1)%nat
    /\ (c = RetNil \/ (exists v, c = Panicked v /\ es = [])).
Proof.
  intros Hroom. unfold receiveBody.
  destruct (processStdout Unmarshal env s) as [s1 c1] eqn:P.
  destruct (processStdout_sends Hroom P) as (ds & es & Hs & Hl & Hp & He).
  destruct c1 as [|err| |v].
  - assert (es = []) as ->.
    { destruct es; auto. destruct He as (err & E); discriminate. }
    intros H.
    destruct (handleProcessExit_sends _ (sends_room Hs Hroom) H)
      as (es & Hs' & Hl' & Hc).
    exists ds, es. splits; auto.
    rewrite <- (app_nil_r ds). apply (sends_trans Hs Hs').
  - intros H; inversion H; subst. exists ds, es. auto.
  - congruence.
  - assert (es = []) as ->.
    { destruct es; auto. destruct He as (err & E); discriminate. }
    intros H; inversion H; subst. exists ds, []. splits; eauto.
Qed.

End CycleFacts.

Section ShapeFacts.
Variable data : Type.
Variable Unmarshal : gostring -> data + error.

Lemma fold_sendWait (ds : list data) :
  forall c : chan data,
    wf c ->
    wf (fold_left (@sendWait data) ds c)
    /\ delivered (fold_left (@sendWait data) ds c) = delivered c ++ ds
    /\ closes (fold_left (@sendWait data) ds c) = closes c
    /\ cap (fold_left (@sendWait data) ds c) = cap c.
Proof.
  induction ds as [|d ds IH]; intros c H; simpl.
  - rewrite app_nil_r. auto.
  - destruct (IH (sendWait c d) (sendWait_wf d H)) as (W & D & C & K).
    rewrite D, C, K, sendWait_delivered, sendWait_closes, sendWait_cap by exact H.
    rewrite <- app_assoc. auto.
Qed.

Lemma newChans_room (m e : Z) : 1 <= e -> room (newChans data m e).
Proof. intros H. unfold room, newChans. simpl. lia. Qed.

(** The two channels when the deferred function has run, in a cycle that
    started on new channels and sent [ds] and [es]. *)
Lemma closeBoth_after_sends (m e : Z) (s1 : chans data) ds es :
  sends (newChans data m e) s1 ds es ->
  trace (closeBoth s1)
  = map (@SentMsg data) ds ++ map (@SentErr data) es ++ [ClosedMsg data; ClosedErr data]
  /\ delivered (msgCh (closeBoth s1)) = ds
  /\ delivered (errCh (closeBoth s1)) = es
  /\ closes (msgCh (closeBoth s1)) = 1%nat
  /\ closes (errCh (closeBoth s1)) = 1%nat
  /\ cap (msgCh (closeBoth s1)) = Z.to_nat m
  /\ cap (errCh (closeBoth s1)) = Z.to_nat e.
Proof.
  intros (M & E & T). unfold closeBoth, delivered. simpl.
  rewrite M, E, T. simpl.
  assert (W : wf (make data m)) by (unfold wf; simpl; lia).
  destruct (fold_sendWait ds W) as (_ & D & C & K).
  unfold delivered in D. rewrite D, C, K. simpl.
  rewrite <- !app_assoc. splits; reflexivity.
Qed.

(** Every receive cycle comes to its end, and its history is: records,
    then at most one error, then the two closes. *)
Lemma ReceiveMessages_shape (t : SubprocessCLITransport) (env : cycleEnv) :
  exists ds es s,
    ReceiveMessages Unmarshal t env = Exited s
    /\ (List.length es <= 1)%nat
    /\ trace s = map (@SentMsg data) ds ++ map (@SentErr data) es
                 ++ [ClosedMsg data; ClosedErr data]
    /\ delivered (msgCh s) = ds
    /\ delivered (errCh s) = es
    /\ closes (msgCh s) = 1%nat
    /\ closes (errCh s) = 1%nat.
Proof.
  unfold ReceiveMessages.
  destruct (bufferSizes (options t)) as [m e] eqn:B.
  assert (He : 1 <= e).
  { pose proof (bufferSizes_pos (options t)) as H. rewrite B in H. apply H. }
  pose proof (newChans_room m He) as Hroom.
  destruct (IsConnected t); simpl.
  - destruct (receiveBody Unmarshal env (newChans data m e)) as [s1 c] eqn:R.
    destruct (receiveBody_sends Unmarshal env Hroom R) as (ds & es & Hs & Hl & [-> | (v & -> & ->)]).
    + exists ds, es, (closeBoth s1). simpl.
      destruct (closeBoth_after_sends Hs) as (T & D1 & D2 & C1 & C2 & _).
      splits; auto.
    + simpl. rewrite sendErr_room by apply (sends_room Hs Hroom).
      set (pe := errorString (str "panic in ReceiveMessages: " ++ v)).
      set (s2 := {| msgCh := msgCh s1; errCh := _; trace := _ |}).
      assert (Hs2 : sends (newChans data m e) s2 ds [pe]).
      { rewrite <- (app_nil_r ds). apply (sends_trans Hs).
        eapply sends_err; [apply (sends_room Hs Hroom)|].
        apply sendErr_room, (sends_room Hs Hroom). }
      exists ds, [pe], (closeBoth s2).
      destruct (closeBoth_after_sends Hs2) as (T & D1 & D2 & C1 & C2 & _).
      splits; auto.
  - unfold handleNotConnected. rewrite sendErr_room by exact Hroom.
    exists [], [CLIConnectionError (str "Not connected")]. eexists.
    splits; [reflexivity | simpl; lia | reflexivity ..].
Qed.

(** C3: in every receive cycle the producer goroutine comes to its end,
    whether the transport is connected or not and whatever the stdout
    stream, the context, the exit of the child and a panic do; at its end
    the record channel and the error channel are both closed, each exactly
    once, by the last two steps of the goroutine; and a panic has been
    turned into an error sent just before the two closes. *)
Theorem channels_closed_together_once
        (t : SubprocessCLITransport) (env : cycleEnv) :
  exists s,
    ReceiveMessages Unmarshal t env = Exited s
    /\ closes (msgCh s) = 1%nat
    /\ closes (errCh s) = 1%nat
    /\ (0 < closes (msgCh s) <-> 0 < closes (errCh s))%nat
    /\ (exists pre,
           trace s = pre ++ [ClosedMsg data; ClosedErr data]
           /\ Forall (fun ev => ev <> ClosedMsg data /\ ev <> ClosedErr data) pre)
    /\ (forall s1 v,
           IsConnected t = true ->
           receiveBody Unmarshal env
                       (newChans data (fst (bufferSizes (options t)))
                                 (snd (bufferSizes (options t))))
           = (s1, Panicked v) ->
           trace s = trace s1
                     ++ [SentErr data (errorString (str "panic in ReceiveMessages: " ++ v));
                         ClosedMsg data; ClosedErr data]).
Proof.
  destruct (ReceiveMessages_shape t env) as (ds & es & s & R & Hl & T & _ & _ & C1 & C2).
  exists s. splits; auto.
  - rewrite C1, C2. tauto.
  - exists (map (@SentMsg data) ds ++ map (@SentErr data) es). split.
    + rewrite T, <- app_assoc. reflexivity.
    + apply Forall_app. split; apply Forall_forall; intros ev Hin;
        apply in_map_iff in Hin; destruct Hin as (x & <- & _);
        split; discriminate.
  - intros s1 v Hc Hb. unfold ReceiveMessages in R.
    destruct (bufferSizes (options t)) as [m e] eqn:B. simpl in Hb.
    rewrite Hc in R. simpl in R. rewrite Hb in R. simpl in R.
    assert (He : 1 <= e).
    { pose proof (bufferSizes_pos (options t)) as H. rewrite B in H. apply H. }
    destruct (receiveBody_sends Unmarshal env (newChans_room m He) Hb) as (ds' & es' & Hs & _ & Hp).
    assert (es' = []) as ->.
    { destruct Hp as [Hp | (v' & _ & Hp)]; [discriminate | exact Hp]. }
    rewrite sendErr_room in R by apply (sends_room Hs (newChans_room m He)).
    inversion R; subst. simpl. rewrite <- app_assoc. reflexivity.
Qed.


End ShapeFacts.

(** ** The decode loop, line by line *)

Section DecodeFacts.
Variable data : Type.
Variable Unmarshal : gostring -> data + error.
Variable env : cycleEnv.

Lemma looksLikeJSON_nonempty (line : gostring) :
  looksLikeJSON line = true -> eqb line [] = false.
Proof. destruct line; [discriminate|reflexivity]. Qed.

Lemma excerpt_len (line : gostring) : len (excerpt line) <= 203.
Proof.
  unfold excerpt. destruct (Z.ltb_spec 200 (len line)); [|lia].
  rewrite len_app. pose proof (len_firstn_le 200 line).
  change (len (str "...")) with 3. lia.
Qed.

(** Over lines that are blank, records or noise the loop goes on to the
    next line, having sent the records of these lines and nothing else. *)
Lemma scanLoop_benign_prefix (pre : list gostring) :
  forall (rest : list gostring) (i : nat) (s : chans data),
    (forall j, (i <= j < i + List.length pre)%nat ->
               panicsScanning env j = None
               /\ doneAtCheck env j = false /\ doneAtSend env j = false) ->
    Forall (fun tok => len (TrimSpace tok) <= Validation.MaxJSONSize) pre ->
    forallb (benign Unmarshal) pre = true ->
    exists s',
      scanLoop Unmarshal env i (pre ++ rest) s
      = scanLoop Unmarshal env (i + List.length pre) rest s'
      /\ sends s s' (decodeAll Unmarshal pre) [].
Proof.
  induction pre as [|tok pre IH]; intros rest i s Hq Hlen Hb.
  - exists s. simpl. rewrite Nat.add_0_r. split; [reflexivity|apply sends_refl].
  - simpl in Hb. apply andb_true_iff in Hb. destruct Hb as [Hb1 Hb2].
    inversion Hlen as [|? ? Hl1 Hl2]; subst.
    destruct (Hq i) as (Hp & Hc & Hs); [simpl; lia|].
    assert (Hq' : forall j, (S i <= j < S i + List.length pre)%nat ->
                            panicsScanning env j = None
                            /\ doneAtCheck env j = false
                            /\ doneAtSend env j = false).
    { intros j Hj. apply Hq. simpl. lia. }
    cbn [app scanLoop]. rewrite Hp, Hc.
    unfold decodeAll. cbn [flat_map]. fold (decodeAll Unmarshal pre).
    unfold decodeOne, benign in *.
    cbn [List.length]. rewrite <- Nat.add_succ_comm.
    destruct (eqb (TrimSpace tok) []).
    + apply (IH rest (S i) s Hq' Hl2 Hb2).
    + unfold processLine. rewrite Hs.
      destruct (Z.ltb_spec Validation.MaxJSONSize (len (TrimSpace tok))); [lia|].
      simpl in Hb1.
      destruct (Unmarshal (TrimSpace tok)) as [d|err].
      * destruct (IH rest (S i) (sendMsg s d) Hq' Hl2 Hb2) as (s' & E & S').
        exists s'. split; [exact E|].
        apply (sends_trans (sends_msg s d) S').
      * fold (looksLikeJSON (TrimSpace tok)).
        apply negb_true_iff in Hb1. rewrite Hb1.
        apply (IH rest (S i) s Hq' Hl2 Hb2).
Qed.

Lemma tokens_trimmed_fit (pre rest : list gostring) :
  Bufio.tokens (Bufio.Scan Validation.MaxJSONSize (stdoutBytes env)) = pre ++ rest ->
  Forall (fun tok => len (TrimSpace tok) <= Validation.MaxJSONSize) pre.
Proof.
  intros E.
  pose proof (Scan_tokens_fit (stdoutBytes env) MaxJSONSize_pos) as H.
  rewrite E in H. apply Forall_app in H. destruct H as [H _].
  eapply Forall_impl; [|exact H]. intros tok Ht. cbv beta in Ht.
  pose proof (TrimSpace_len tok). lia.
Qed.

(** C6: while the lines of stdout are blank lines, records and noise (a
    line that does not decode and does not begin with a brace or a
    bracket), the decode loop goes on to the next line; a noise line adds
    no record and no error; each line that decodes adds exactly one
    record; the records reach the record channel in the order of their
    lines, and nothing is sent to the error channel. *)
Theorem noise_skipped_records_in_order
        (pre rest : list gostring) (s : chans data) :
  Bufio.tokens (Bufio.Scan Validation.MaxJSONSize (stdoutBytes env)) = pre ++ rest ->
  (forall j, (j < List.length pre)%nat ->
             panicsScanning env j = None
             /\ doneAtCheck env j = false /\ doneAtSend env j = false) ->
  forallb (benign Unmarshal) pre = true ->
  exists s',
    scanLoop Unmarshal env 0 (pre ++ rest) s
    = scanLoop Unmarshal env (List.length pre) rest s'
    /\ errCh s' = errCh s
    /\ trace s' = trace s ++ map (@SentMsg data) (decodeAll Unmarshal pre)
    /\ (wf (msgCh s) ->
        delivered (msgCh s') = delivered (msgCh s) ++ decodeAll Unmarshal pre)
    /\ (forall tok, In tok pre -> noise Unmarshal tok = true ->
                    decodeOne Unmarshal tok = [])
    /\ (forall tok d, In tok pre -> eqb (TrimSpace tok) [] = false ->
                      Unmarshal (TrimSpace tok) = inl d ->
                      decodeOne Unmarshal tok = [d])
    /\ (rest = [] ->
        panicsScanning env (List.length pre) = None ->
        Bufio.scanErr (Bufio.Scan Validation.MaxJSONSize (stdoutBytes env)) = None ->
        processStdout Unmarshal env s = (s', RetNil)).
Proof.
  intros Htok Hq Hb.
  destruct (@scanLoop_benign_prefix pre rest 0%nat s) as (s' & E & (M & C & T)); auto.
  - intros j Hj. apply Hq. lia.
  - apply (tokens_trimmed_fit _ _ Htok).
  - exists s'. splits.
    + exact E.
    + rewrite C. destruct (errCh s); simpl. rewrite app_nil_r. reflexivity.
    + rewrite T. simpl. rewrite app_nil_r. reflexivity.
    + intros W. rewrite M. apply (fold_sendWait _ W).
    + intros tok _. unfold noise, decodeOne.
      destruct (eqb (TrimSpace tok) []); [reflexivity|].
      destruct (Unmarshal (TrimSpace tok)); [discriminate|reflexivity].
    + intros tok d _ Hne Hd. unfold decodeOne. rewrite Hne, Hd. reflexivity.
    + intros -> Hp He. unfold processStdout. rewrite Htok, E, He.
      cbn [scanLoop Nat.add]. rewrite Hp. reflexivity.
Qed.

(** C5 (amended): a line of stdout that does not decode and begins with a
    brace or a bracket, after lines that are blank, records or noise, ends
    [processStdout]: it returns the parse error, having sent the records
    of the earlier lines and exactly one error, a [CLIJSONDecodeError]
    whose [Line] is the whole line when the line has at most 200 bytes and
    its first 200 bytes followed by "..." otherwise (at most 203 bytes),
    and whose [OriginalError] is the parse error; the lines after it are
    not read. *)
Theorem malformed_line_one_decode_error
        (pre rest : list gostring) (bad : gostring) (err : error)
        (s : chans data) :
  Bufio.tokens (Bufio.Scan Validation.MaxJSONSize (stdoutBytes env))
  = pre ++ bad :: rest ->
  (forall j, (j < List.length pre)%nat ->
             panicsScanning env j = None
             /\ doneAtCheck env j = false /\ doneAtSend env j = false) ->
  panicsScanning env (List.length pre) = None ->
  doneAtCheck env (List.length pre) = false ->
  forallb (benign Unmarshal) pre = true ->
  Unmarshal (TrimSpace bad) = inr err ->
  looksLikeJSON (TrimSpace bad) = true ->
  room s ->
  exists s' e,
    processStdout Unmarshal env s = (s', RetErr err)
    /\ sends s s' (decodeAll Unmarshal pre) [e]
    /\ e = NewCLIJSONDecodeError (excerpt (TrimSpace bad)) err
    /\ isCLIJSONDecodeError e = true
    /\ decodeLine e = Some (excerpt (TrimSpace bad))
    /\ Unwrap e = Some err
    /\ len (excerpt (TrimSpace bad)) <= 203
    /\ (len (TrimSpace bad) <= 200 -> excerpt (TrimSpace bad) = TrimSpace bad)
    /\ (200 < len (TrimSpace bad) ->
        excerpt (TrimSpace bad) = firstn 200 (TrimSpace bad) ++ str "...").
Proof.
  intros Htok Hq Hp Hc Hb Herr Hlooks Hroom.
  assert (Hfit : Forall (fun tok => len (TrimSpace tok) <= Validation.MaxJSONSize)
                        (pre ++ [bad])).
  { apply (tokens_trimmed_fit (pre ++ [bad]) rest).
    rewrite <- app_assoc. exact Htok. }
  apply Forall_app in Hfit. destruct Hfit as [Hfit1 Hfit2].
  inversion Hfit2 as [|? ? Hbad _]; subst.
  destruct (@scanLoop_benign_prefix pre (bad :: rest) 0%nat s) as (s1 & E & S1); auto.
  { intros j Hj. apply Hq. lia. }
  simpl in E.
  set (e := NewCLIJSONDecodeError (excerpt (TrimSpace bad)) err).
  pose proof (sends_room S1 Hroom) as Hroom1.
  exists {| msgCh := msgCh s1;
            errCh := {| cap := cap (errCh s1); buf := buf (errCh s1) ++ [e];
                        got := got (errCh s1); closes := closes (errCh s1) |};
            trace := trace s1 ++ [SentErr data e] |}, e.
  splits.
  - unfold processStdout. rewrite Htok, E.
    cbn [scanLoop]. rewrite Hp, Hc.
    rewrite (looksLikeJSON_nonempty _ Hlooks).
    unfold processLine.
    destruct (Z.ltb_spec Validation.MaxJSONSize (len (TrimSpace bad))); [lia|].
    rewrite Herr. fold (looksLikeJSON (TrimSpace bad)). rewrite Hlooks.
    fold (excerpt (TrimSpace bad)). fold e.
    rewrite sendErr_room by exact Hroom1. reflexivity.
  - rewrite <- (app_nil_r (decodeAll Unmarshal pre)).
    apply (sends_trans S1). eapply sends_err; [exact Hroom1|].
    apply sendErr_room, Hroom1.
  - reflexivity.
  - reflexivity.
  - reflexivity.
  - reflexivity.
  - apply excerpt_len.
  - intros H. unfold excerpt. destruct (Z.ltb_spec 200 (len (TrimSpace bad))); [lia|reflexivity].
  - intros H. unfold excerpt. destruct (Z.ltb_spec 200 (len (TrimSpace bad))); [reflexivity|lia].
Qed.

End DecodeFacts.

(** ** Connect and Disconnect *)

Lemma reachable_handles (t : SubprocessCLITransport) :
  reachable t ->
  (connected t = false ->
   stdout t = None /\ stderr t = None
   /\ (cmd t = None \/ cmd t = Some {| Process := None |}))
  /\ (connected t = true ->
      exists pid out err,
        cmd t = Some {| Process := Some pid |}
        /\ stdout t = Some out /\ stderr t = Some err).
Proof.
  induction 1 as [t Hc Ho He Hn | t env _ [IH1 IH2] | t env _ [IH1 IH2]].
  - split; [auto | congruence].
  - unfold Connect.
    destruct (connected t) eqn:C.
    { simpl. rewrite C. split; [congruence|auto]. }
    destruct (IH1 eq_refl) as (Ho & He & Hcmd).
    repeat match goal with
           | |- context [if ?b then _ else _] => destruct b
           | |- context [match ?x with _ => _ end] => destruct x
           end;
      simpl; rewrite ?C, ?Ho, ?He; (split; [auto|]); try congruence.
    all: intros _; do 3 eexists; splits; reflexivity.
  - unfold Disconnect.
    destruct (connected t) eqn:C.
    + destruct (cmd t) eqn:K; simpl.
      * split; [auto|congruence].
      * rewrite C. split; [congruence|]. intros _.
        destruct (IH2 eq_refl) as (pid & out & err & K' & _). congruence.
    + simpl. rewrite C. split; [auto|congruence].
Qed.

(** C7, as stated, fails: after a [Connect] that failed in [cmd.Start] the
    session is not connected but keeps the command it built; [Disconnect]
    returns at once on such a session, once and twice, and the command
    handle is still there. *)
Lemma disconnect_keeps_command_of_failed_connect :
  reachable failedSession
  /\ snd (Connect newSession startFails)
     = Some (CLIConnectionError (str "Failed to start Claude Code"))
  /\ (let t1 := fst (fst (Disconnect failedSession gentleStop)) in
      let t2 := fst (fst (Disconnect t1 gentleStop)) in
      cmd t1 <> None /\ cmd t2 <> None
      /\ IsConnected t1 = false /\ IsConnected t2 = false).
Proof.
  split; [|split].
  - apply reach_connect. apply reach_new; reflexivity.
  - reflexivity.
  - cbn. repeat split; discriminate.
Qed.

(** C7 (amended): [Disconnect] twice in a row, from any session, returns no
    error either time, leaves [IsConnected] false after each call, and the
    second call changes nothing and asks nothing of the operating system.
    After a [Disconnect] that found the session connected with its command,
    the command, stdout and stderr handles are nil; a [Disconnect] that
    found it otherwise returns the session as it was.  For every session
    that the API can produce, the stdout and stderr handles are nil after
    [Disconnect], and the command handle is nil or that of a command that
    was never started. *)
Theorem disconnect_twice (t : SubprocessCLITransport) (env1 env2 : stopEnv) :
  let r1 := Disconnect t env1 in
  let t1 := fst (fst r1) in
  let r2 := Disconnect t1 env2 in
  let t2 := fst (fst r2) in
  snd (fst r1) = None
  /\ snd (fst r2) = None
  /\ IsConnected t1 = false
  /\ IsConnected t2 = false
  /\ t2 = t1
  /\ snd r2 = []
  /\ (connected t = true -> cmd t <> None ->
      cmd t1 = None /\ stdout t1 = None /\ stderr t1 = None)
  /\ (connected t = false \/ cmd t = None -> t1 = t)
  /\ (reachable t ->
      stdout t1 = None /\ stderr t1 = None
      /\ (cmd t1 = None \/ cmd t1 = Some {| Process := None |})).
Proof.
  cbv zeta. unfold Disconnect, IsConnected.
  destruct (connected t) eqn:C; destruct (cmd t) as [c|] eqn:K;
    repeat (progress (rewrite ?C, ?K;
                      cbn [fst snd connected cmd stdout stderr withHandles andb]));
    splits; auto; try congruence; try tauto;
    try (intros [H|H]; congruence);
    intros H; apply reachable_handles in H; destruct H as [H1 H2].
  - destruct (H2 C) as (pid & out & err & K' & _). congruence.
  - destruct (H1 C) as (Ho & He & Hc). rewrite K in Hc. auto.
  - destruct (H1 C) as (Ho & He & Hc). rewrite K in Hc. auto.
Qed.

(** ** Error sends *)

Section ErrorSends.
Variable Out : Type.


End ErrorSends.

Section ForwardSends.
Local Unset Implicit Arguments.
Variables In Out : Type.
Variable convert : In -> option Out.

(** With room in the error channel the nested [select] never evicts: the
    error is queued, or left out because the context is done. *)
Lemma forwardError_room (s : chans Out) (e : error) (ctxDone pickSend : bool) :
  room s ->
  exists c evs es,
    Client.forwardError Out ctxDone pickSend (errCh s) e = Some (c, evs)
    /\ sends s {| msgCh := msgCh s; errCh := c; trace := trace s ++ evs |} [] es
    /\ (List.length es <= 1)%nat.
Proof.
  intros Hroom. unfold Client.forwardError.
  rewrite trySend_room by exact Hroom.
  destruct (ctxDone && negb pickSend).
  - exists (errCh s), [], []. split; [reflexivity|]. split; [|simpl; lia].
    unfold sends. simpl. destruct (errCh s); simpl. rewrite !app_nil_r. auto.
  - do 2 eexists. exists [e]. split; [reflexivity|]. split; [|simpl; lia].
    unfold sends. simpl. auto.
Qed.

Lemma forwardLoop_sends (turns : list (Client.arrival In)) :
  forall (s s' : chans Out) (r : ctl),
    room s ->
    Client.forwardLoop convert turns s = (s', r) ->
    exists k es,
      sends s s' (conversions convert (firstn k turns)) es
      /\ (List.length es <= 1)%nat
      /\ (r = RetNil
          \/ (r = Parked /\ es = [] /\ existsb (@closing In) turns = false)
          \/ (exists v, r = Panicked v /\ es = [])).
Proof.
  induction turns as [|a rest IH]; intros s s' r Hroom H; cbn [Client.forwardLoop] in H.
  - inversion H; subst. exists 0%nat, [].
    split; [apply sends_refl|]. split; [simpl; lia|]. right; left. auto.
  - assert (Stop : forall r0, (r0 = RetNil \/ exists v, r0 = Panicked v) ->
                              (s', r) = (s, r0) ->
                              exists k es,
                                sends s s' (conversions convert (firstn k (a :: rest))) es
                                /\ (List.length es <= 1)%nat
                                /\ (r = RetNil
                                    \/ (r = Parked /\ es = []
                                        /\ existsb (@closing In) (a :: rest) = false)
                                    \/ (exists v, r = Panicked v /\ es = []))).
    { intros r0 Hr0 E. inversion E; subst. exists 0%nat, [].
      split; [apply sends_refl|]. split; [simpl; lia|].
      destruct Hr0 as [->|[v ->]]; [left; reflexivity|right; right; eauto]. }
    assert (Skip : forall ds s1,
               sends s s1 ds [] ->
               conversions convert [a] = ds ->
               closing a = false ->
               Client.forwardLoop convert rest s1 = (s', r) ->
               exists k es,
                 sends s s' (conversions convert (firstn k (a :: rest))) es
                 /\ (List.length es <= 1)%nat
                 /\ (r = RetNil
                     \/ (r = Parked /\ es = []
                         /\ existsb (@closing In) (a :: rest) = false)
                     \/ (exists v, r = Panicked v /\ es = []))).
    { intros ds s1 S1 Ea Ca L.
      destruct (IH s1 s' r (sends_room S1 Hroom) L) as (k & es & S2 & Hl & Hr).
      exists (S k), es. split.
      - cbn [firstn]. change (a :: firstn k rest) with ([a] ++ firstn k rest).
        unfold conversions in *. rewrite flat_map_app.
        fold (conversions convert (firstn k rest)). rewrite Ea.
        apply (sends_trans S1 S2).
      - split; [exact Hl|]. cbn [existsb]. rewrite Ca. exact Hr. }
    destruct a as [m ab| |[e|] d p| | |v].
    + destruct (convert m) as [msg|] eqn:Cm.
      * destruct ab.
        -- apply (Stop RetNil); auto.
        -- apply (Skip [msg] (sendMsg s msg)); auto.
           ++ apply sends_msg.
           ++ unfold conversions. simpl. rewrite Cm. reflexivity.
      * apply (Skip [] s); auto.
        -- apply sends_refl.
        -- unfold conversions. simpl. rewrite Cm. reflexivity.
    + apply (Stop RetNil); auto.
    + destruct (forwardError_room s e d p Hroom) as (c & evs & es & E & S1 & Hl).
      rewrite E in H. inversion H; subst.
      exists 0%nat, es. split; [exact S1|]. split; [exact Hl|]. left. reflexivity.
    + apply (Skip [] s); auto. apply sends_refl.
    + apply (Stop RetNil); auto.
    + apply (Stop RetNil); auto.
    + apply (Stop (Panicked v)); eauto.
Qed.



End ForwardSends.


(** ** Oversized lines *)

Section Oversized.
Variable data : Type.
Variable Unmarshal : gostring -> data + error.

(** The size check of [processLine] never fires on a line that the
    scanner has let through. *)
Lemma scanned_lines_pass_size_check (r : Bufio.stream) :
  Forall (fun tok => (Validation.MaxJSONSize <? len (TrimSpace tok)) = false)
         (Bufio.tokens (Bufio.Scan Validation.MaxJSONSize r)).
Proof.
  pose proof (Scan_tokens_fit r MaxJSONSize_pos) as H.
  eapply Forall_impl; [|exact H]. intros tok Ht. cbv beta in Ht.
  pose proof (TrimSpace_len tok).
  destruct (Z.ltb_spec Validation.MaxJSONSize (len (TrimSpace tok))); [lia|reflexivity].
Qed.

(** A line that reaches the buffer limit ends [processStdout] with the
    scanner's error, reported as a connection error. *)
Lemma processStdout_too_long (env : cycleEnv) (line rest : gostring)
      (re : option error) (s : chans data) :
  stdoutBytes env = {| Bufio.bytes := line ++ rest; Bufio.readErr := re |} ->
  Forall (fun c => c <> newline) line ->
  Validation.MaxJSONSize <= len line ->
  panicsScanning env 0 = None ->
  room s ->
  processStdout Unmarshal env s
  = ({| msgCh := msgCh s;
        errCh := {| cap := cap (errCh s);
                    buf := buf (errCh s)
                           ++ [CLIConnectionError (str "Error reading stdout")];
                    got := got (errCh s); closes := closes (errCh s) |};
        trace := trace s
                 ++ [SentErr data (CLIConnectionError (str "Error reading stdout"))] |},
     RetErr Bufio.ErrTooLong).
Proof.
  intros Hb Hnl Hlen Hp Hroom. unfold processStdout. rewrite Hb.
  rewrite (Scan_too_long rest re MaxJSONSize_pos Hnl Hlen).
  cbn [Bufio.tokens Bufio.scanErr scanLoop]. rewrite Hp.
  rewrite sendErr_room by exact Hroom. reflexivity.
Qed.

End Oversized.

Lemma oversizedLine_len : len oversizedLine = Validation.MaxJSONSize + 1.
Proof.
  unfold oversizedLine, len. rewrite repeat_length, Z2Nat.id; [reflexivity|].
  unfold Validation.MaxJSONSize. lia.
Qed.

Lemma oversizedLine_one_line : Forall (fun c => c <> newline) oversizedLine.
Proof.
  apply Forall_forall. intros c Hin. apply repeat_spec in Hin. subst c.
  discriminate.
Qed.

(** C2 on a line of [MaxJSONSize] + 1 bytes: the cycle delivers no record
    and exactly one error, and reads no further; but the error is the
    connection error "Error reading stdout" that [processStdout] sends for
    the scanner's [ErrTooLong], not a [CLIJSONDecodeError]. *)
Theorem oversized_line_reported_as_read_error :
  Validation.MaxJSONSize < len oversizedLine
  /\ exists s,
      ReceiveMessages JSON.Unmarshal connectedSession oversized = Exited s
      /\ delivered (msgCh s) = []
      /\ delivered (errCh s) = [CLIConnectionError (str "Error reading stdout")]
      /\ Forall (fun e => isCLIJSONDecodeError e = false) (delivered (errCh s)).
Proof.
  split; [rewrite oversizedLine_len; lia|].
  unfold ReceiveMessages.
  change (bufferSizes (options connectedSession)) with (10, 1).
  change (IsConnected connectedSession) with true.
  cbv iota beta. cbn [negb]. unfold receiveBody.
  rewrite (@processStdout_too_long JSON.record JSON.Unmarshal oversized
             oversizedLine [newline] None (newChans JSON.record 10 1)).
  - eexists. split; [reflexivity|]. splits; try reflexivity.
    repeat constructor.
  - reflexivity.
  - exact oversizedLine_one_line.
  - rewrite oversizedLine_len. lia.
  - reflexivity.
  - apply newChans_room. lia.
Qed.

(** ** The exit of the child *)

(** With the slice that [collectStderr] returns still empty,
    [handleProcessExit] sends nothing, whatever the child wrote to stderr
    and however it exited. *)
Lemma handleProcessExit_empty_snapshot
      (data : Type) (env : cycleEnv) (s : chans data) :
  stderrSeen env = 0%nat ->
  fst (handleProcessExit env (collectStderr (stderrBytes env) (stderrSeen env)) s) = s.
Proof.
  intros H. rewrite H. unfold collectStderr, handleProcessExit. cbn [firstn].
  destruct (panicsWaiting env); [reflexivity|].
  destruct (waitResult env); reflexivity.
Qed.

(** C1 on its scenario: the child writes the line [{"type":"x"}] to
    stdout and "Error: boom" to stderr and exits with code 1.  The cycle
    delivers the one record; the stderr goroutine does collect the line;
    but the slice that [collectStderr] returned is empty, so no
    [ProcessError] is sent: the error channel is closed with nothing on
    it. *)
Theorem process_failure_not_reported :
  exists s,
    ReceiveMessages JSON.Unmarshal connectedSession boom = Exited s
    /\ delivered (msgCh s) = [[(str "type", JSON.String (str "x"))]]
    /\ collected (stderrBytes boom) = [str "Error: boom"]
    /\ collectStderr (stderrBytes boom) (stderrSeen boom) = []
    /\ delivered (errCh s) = []
    /\ trace s = [SentMsg [(str "type", JSON.String (str "x"))];
                  ClosedMsg JSON.record; ClosedErr JSON.record].
Proof. eexists. splits; vm_compute; reflexivity. Qed.

(** Had the stderr goroutine appended its line before [collectStderr]
    returned, the cycle would deliver the record and then one
    [ProcessError] with exit code 1 whose stderr text contains "boom". *)
Lemma process_failure_reported_when_line_seen :
  exists s msg text,
    ReceiveMessages JSON.Unmarshal connectedSession boomSeen = Exited s
    /\ delivered (msgCh s) = [[(str "type", JSON.String (str "x"))]]
    /\ delivered (errCh s) = [ProcessError msg (Some 1) text]
    /\ Contains text (str "boom") = true.
Proof. do 3 eexists. splits; vm_compute; reflexivity. Qed.

(** ** The excerpt of a decode error *)

(** C5, as stated, fails: for a malformed line of 201 bytes that begins
    with a brace, the decode error carries 203 bytes, the first 200 of the
    line and the suffix "..."; and for a malformed line of at most 200
    bytes it carries the full line. *)
Lemma decode_error_excerpt_exceeds_200 :
  looksLikeJSON longMalformed = true
  /\ len longMalformed = 201
  /\ (exists s e l,
         processLine JSON.Unmarshal false canceled longMalformed
                     (newChans JSON.record 10 1)
         = (s, RetErr JSON.syntaxError)
         /\ delivered (errCh s) = [e]
         /\ isCLIJSONDecodeError e = true
         /\ decodeLine e = Some l
         /\ len l = 203
         /\ 200 < len l)
  /\ (exists s e,
         processLine JSON.Unmarshal false canceled shortMalformed
                     (newChans JSON.record 10 1)
         = (s, RetErr JSON.syntaxError)
         /\ delivered (errCh s) = [e]
         /\ decodeLine e = Some shortMalformed).
Proof.
  split; [reflexivity|]. split; [reflexivity|]. split.
  - do 3 eexists. splits; vm_compute; reflexivity.
  - do 2 eexists. splits; vm_compute; reflexivity.
Qed.

(** ** The properties at work on the scenarios *)

Example stderr_two_thousand_lines :
  List.length (collected noisyStderr) = 1001%nat
  /\ last (collected noisyStderr) [] = stderrMarker.
Proof. split; vm_compute; reflexivity. Qed.

Lemma channels_closed_together_once_witness :
  IsConnected connectedSession = true
  /\ exists s s1 v,
      ReceiveMessages JSON.Unmarshal connectedSession crash = Exited s
      /\ closes (msgCh s) = 1%nat
      /\ closes (errCh s) = 1%nat
      /\ receiveBody JSON.Unmarshal crash (newChans JSON.record 10 1)
         = (s1, Panicked v)
      /\ trace s
         = trace s1
           ++ [SentErr JSON.record (errorString (str "panic in ReceiveMessages: " ++ v));
               ClosedMsg JSON.record; ClosedErr JSON.record].
Proof.
  split; [reflexivity|].
  destruct (channels_closed_together_once JSON.Unmarshal connectedSession crash)
    as (s & R & C1 & C2 & _ & _ & P).
  exists s. do 2 eexists.
  split; [exact R|]. split; [exact C1|]. split; [exact C2|].
  split; [vm_compute; reflexivity|].
  apply P; [reflexivity | vm_compute; reflexivity].
Defined.


Lemma malformed_line_one_decode_error_witness :
  Bufio.tokens (Bufio.Scan Validation.MaxJSONSize (stdoutBytes malformedAfterMixed))
  = mixedLines ++ shortMalformed :: [quoted "{'type':'late'}"]
  /\ forallb (benign JSON.Unmarshal) mixedLines = true
  /\ JSON.Unmarshal (TrimSpace shortMalformed) = inr JSON.syntaxError
  /\ looksLikeJSON (TrimSpace shortMalformed) = true
  /\ exists s' e,
      processStdout JSON.Unmarshal malformedAfterMixed (newChans JSON.record 10 1)
      = (s', RetErr JSON.syntaxError)
      /\ sends (newChans JSON.record 10 1) s'
               (decodeAll JSON.Unmarshal mixedLines) [e]
      /\ decodeLine e = Some shortMalformed.
Proof.
  assert (H1 : Bufio.tokens (Bufio.Scan Validation.MaxJSONSize
                                        (stdoutBytes malformedAfterMixed))
               = mixedLines ++ shortMalformed :: [quoted "{'type':'late'}"])
    by (vm_compute; reflexivity).
  assert (H2 : forallb (benign JSON.Unmarshal) mixedLines = true)
    by (vm_compute; reflexivity).
  assert (H3 : JSON.Unmarshal (TrimSpace shortMalformed) = inr JSON.syntaxError)
    by (vm_compute; reflexivity).
  assert (H4 : looksLikeJSON (TrimSpace shortMalformed) = true)
    by (vm_compute; reflexivity).
  split; [exact H1|]. split; [exact H2|]. split; [exact H3|]. split; [exact H4|].
  assert (Hq : forall j, (j < List.length mixedLines)%nat ->
                         panicsScanning malformedAfterMixed j = None
                         /\ doneAtCheck malformedAfterMixed j = false
                         /\ doneAtSend malformedAfterMixed j = false)
    by (intros j _; splits; reflexivity).
  assert (Hroom : room (newChans JSON.record 10 1))
    by (apply newChans_room; lia).
  destruct (@malformed_line_one_decode_error
              JSON.record JSON.Unmarshal malformedAfterMixed mixedLines
              [quoted "{'type':'late'}"] shortMalformed JSON.syntaxError
              (newChans JSON.record 10 1) H1 Hq eq_refl eq_refl H2 H3 H4 Hroom)
    as (s' & e & P & S & _ & _ & L & _).
  exists s', e. splits; assumption.
Defined.

Lemma noise_skipped_records_in_order_witness :
  Bufio.tokens (Bufio.Scan Validation.MaxJSONSize (stdoutBytes mixed))
  = mixedLines ++ []
  /\ forallb (benign JSON.Unmarshal) mixedLines = true
  /\ noise JSON.Unmarshal (str "This is not JSON") = true
  /\ exists s',
      processStdout JSON.Unmarshal mixed (newChans JSON.record 10 1)
      = (s', RetNil)
      /\ errCh s' = errCh (newChans JSON.record 10 1)
      /\ delivered (msgCh s')
         = [[(str "type", JSON.String (str "assistant"))];
            [(str "type", JSON.String (str "result"));
             (str "cost_usd", JSON.Number (str "0.01"))]].
Proof.
  assert (H1 : Bufio.tokens (Bufio.Scan Validation.MaxJSONSize (stdoutBytes mixed))
               = mixedLines ++ []) by (vm_compute; reflexivity).
  assert (H2 : forallb (benign JSON.Unmarshal) mixedLines = true)
    by (vm_compute; reflexivity).
  split; [exact H1|]. split; [exact H2|]. split; [vm_compute; reflexivity|].
  assert (Hq : forall j, (j < List.length mixedLines)%nat ->
                         panicsScanning mixed j = None
                         /\ doneAtCheck mixed j = false
                         /\ doneAtSend mixed j = false)
    by (intros j _; splits; reflexivity).
  destruct (@noise_skipped_records_in_order
              JSON.record JSON.Unmarshal mixed mixedLines []
              (newChans JSON.record 10 1) H1 Hq H2)
    as (s' & E & C & _ & D & _ & _ & P).
  exists s'. splits.
  - apply P; reflexivity.
  - exact C.
  - rewrite D by (unfold wf; simpl; lia). vm_compute. reflexivity.
Defined.

Lemma disconnect_twice_witness :
  connected connectedSession = true
  /\ cmd connectedSession <> None
  /\ reachable connectedSession
  /\ (let t1 := fst (fst (Disconnect connectedSession gentleStop)) in
      let r2 := Disconnect t1 gentleStop in
      snd (fst r2) = None
      /\ IsConnected t1 = false /\ IsConnected (fst (fst r2)) = false
      /\ cmd t1 = None /\ stdout t1 = None /\ stderr t1 = None).
Proof.
  assert (H1 : connected connectedSession = true) by reflexivity.
  assert (H2 : cmd connectedSession <> None) by discriminate.
  assert (H3 : reachable connectedSession).
  { apply reach_connect. apply reach_new; reflexivity. }
  split; [exact H1|]. split; [exact H2|]. split; [exact H3|].
  pose proof (disconnect_twice connectedSession gentleStop gentleStop) as H.
  cbv zeta in *.
  destruct H as (_ & E2 & I1 & I2 & _ & _ & K & _ & _).
  destruct (K H1 H2) as (K1 & K2 & K3).
  splits; assumption.
Defined.


Lemma options_accessors_clamp_witness :
  0 < QueryTimeout thirtySeconds <= 9223372036
  /\ GetQueryTimeout (Some thirtySeconds) = QueryTimeout thirtySeconds * Second
  /\ 0 < MessageBufferSize thirtySeconds
  /\ GetMessageBufferSize (Some thirtySeconds) = 50
  /\ 0 < ErrorBufferSize thirtySeconds
  /\ GetErrorBufferSize (Some thirtySeconds) = 2
  /\ Client.interfaceSize * GetMessageBufferSize (Some thirtySeconds) <= limit64
  /\ Client.interfaceSize * GetErrorBufferSize (Some thirtySeconds) <= limit64
  /\ (exists s,
        Client.queryCall JSON.record JSON.record limit64 (Some thirtySeconds) = Some s
        /\ cap (msgCh s) = 50%nat /\ cap (errCh s) = 2%nat)
  /\ limit64 < Client.interfaceSize * GetMessageBufferSize (Some hugeBuffer)
  /\ Client.queryCall JSON.record JSON.record limit64 (Some hugeBuffer) = None.
Proof.
  assert (H1 : 0 < QueryTimeout thirtySeconds <= 9223372036) by (simpl; lia).
  assert (H2 : 0 < MessageBufferSize thirtySeconds) by (simpl; lia).
  assert (H3 : 0 < ErrorBufferSize thirtySeconds) by (simpl; lia).
  assert (H4 : Client.interfaceSize * GetMessageBufferSize (Some thirtySeconds)
               <= limit64) by (vm_compute; discriminate).
  assert (H5 : Client.interfaceSize * GetErrorBufferSize (Some thirtySeconds)
               <= limit64) by (vm_compute; discriminate).
  assert (H6 : limit64 < Client.interfaceSize * GetMessageBufferSize (Some hugeBuffer))
    by reflexivity.
  destruct options_accessors_clamp as (_ & _ & _ & A & Q).
  destruct (A thirtySeconds) as (_ & T & _ & M & _ & E).
  destruct (Q JSON.record JSON.record limit64 (Some thirtySeconds)) as [Q1 _].
  destruct (Q JSON.record JSON.record limit64 (Some hugeBuffer)) as [_ Q2].
  split; [exact H1|]. split; [exact (T H1)|]. split; [exact H2|].
  split; [exact (M H2)|]. split; [exact H3|]. split; [exact (E H3)|].
  split; [exact H4|]. split; [exact H5|]. split.
  - destruct (Q1 H4 H5) as (s & Es & _ & C1 & C2 & _). exists s.
    split; [exact Es|]. split; [exact C1|exact C2].
  - split; [exact H6|]. apply Q2. left. exact H6.
Defined.

(* ===================================================================== *)
(** * Further properties of the code *)
(* ===================================================================== *)

Unset Implicit Arguments.

(** ** Sanitizers *)

Lemma gostring_eqb_eq (a b : gostring) : eqb a b = true <-> a = b.
Proof.
  revert b. induction a as [|x a IH]; intros [|y b]; simpl; split;
    try congruence; try discriminate.
  - intros H. apply andb_true_iff in H. destruct H as [H1 H2].
    apply Ascii.eqb_eq in H1. apply IH in H2. congruence.
  - intros H. inversion H; subst. rewrite Ascii.eqb_refl. simpl. now apply IH.
Qed.

Section StripFacts.
Variable two : ascii -> ascii -> bool.
Variable three : ascii -> ascii -> ascii -> bool.

Lemma strip_noLead_fuel (n : nat) :
  forall s, (List.length s <= n)%nat -> leads two three (strip two three s) = false.
Proof.
  induction n as [|n IH]; intros s Hs.
  - destruct s; [reflexivity|simpl in Hs; lia].
  - destruct s as [|a r]; [reflexivity|].
    cbn [strip]. cbn [List.length] in Hs.
    destruct (isSpace a) eqn:Ea; [apply IH; lia|].
    destruct r as [|b r2]; [cbn [leads]; rewrite Ea; reflexivity|].
    cbn [List.length] in Hs.
    destruct (two a b) eqn:Eb; [apply IH; lia|].
    destruct r2 as [|c r3]; [cbn [leads]; rewrite Ea, Eb; reflexivity|].
    cbn [List.length] in Hs.
    destruct (three a b c) eqn:Ec; [apply IH; lia|].
    cbn [leads]. rewrite Ea, Eb, Ec. reflexivity.
Qed.

Lemma strip_noLead (s : gostring) : leads two three (strip two three s) = false.
Proof. apply (@strip_noLead_fuel (List.length s)). lia. Qed.

Lemma strip_fix (s : gostring) : leads two three s = false -> strip two three s = s.
Proof.
  destruct s as [|a [|b [|c r]]]; cbn [leads strip]; intros H;
    repeat match type of H with
           | orb _ _ = false => apply orb_false_iff in H; destruct H as [? H]
           end;
    repeat match goal with
           | E : ?x = false |- context [if ?x then _ else _] => rewrite E
           end;
    reflexivity.
Qed.

(** A string that begins with a white-space rune still does when it is
    extended. *)
Lemma leads_app (u q : gostring) :
  leads two three u = true -> leads two three (u ++ q) = true.
Proof.
  destruct u as [|a [|b [|c r]]]; cbn [leads app]; intros H.
  - discriminate.
  - rewrite orb_false_r in H. rewrite H. reflexivity.
  - rewrite orb_false_r in H. apply orb_true_iff in H.
    destruct H as [H|H]; rewrite H; [reflexivity|].
    rewrite orb_true_l, orb_true_r. reflexivity.
  - exact H.
Qed.

End StripFacts.

Lemma trimLeft_noLead (s : gostring) : noLead (trimLeft s).
Proof. apply strip_noLead. Qed.

Lemma trimLeft_fix (s : gostring) : noLead s -> trimLeft s = s.
Proof. apply strip_fix. Qed.

Lemma trimRight_fix (s : gostring) : noTrail s -> trimRight s = s.
Proof.
  intros H. unfold trimRight. rewrite (strip_fix _ _ _ H). apply rev_involutive.
Qed.

Lemma trimLeft_suffix (s : gostring) : exists p, s = p ++ trimLeft s.
Proof. apply strip_suffix. Qed.

Lemma trimRight_prefix (s : gostring) : exists q, s = trimRight s ++ q.
Proof.
  destruct (strip_suffix isSpace2Rev isSpace3Rev (rev s)) as [p Hp].
  exists (rev p). unfold trimRight.
  rewrite <- (rev_involutive s), Hp at 1. rewrite rev_app_distr. reflexivity.
Qed.

Lemma TrimSpace_noLead (s : gostring) :
  noLead (TrimSpace s) /\ noTrail (TrimSpace s).
Proof.
  unfold TrimSpace. split.
  - pose proof (trimLeft_noLead s) as Ha.
    destruct (trimRight_prefix (trimLeft s)) as [q Hq].
    unfold noLead in *.
    destruct (leads isSpace2 isSpace3 (trimRight (trimLeft s))) eqn:E; [|reflexivity].
    apply (leads_app _ _ _ q) in E. rewrite <- Hq in E. congruence.
  - unfold noTrail, trimRight. rewrite rev_involutive. apply strip_noLead.
Qed.

Lemma TrimSpace_idem (s : gostring) : TrimSpace (TrimSpace s) = TrimSpace s.
Proof.
  destruct (TrimSpace_noLead s) as [H1 H2].
  unfold TrimSpace at 1.
  rewrite (trimLeft_fix _ H1). apply trimRight_fix, H2.
Qed.

Lemma TrimSpace_In (s : gostring) (c : ascii) : In c (TrimSpace s) -> In c s.
Proof.
  unfold TrimSpace. intros H.
  destruct (trimRight_prefix (trimLeft s)) as [q Hq].
  destruct (trimLeft_suffix s) as [p Hp].
  rewrite Hp. apply in_or_app. right. rewrite Hq. apply in_or_app. left. exact H.
Qed.

Lemma filter_fix (A : Type) (f : A -> bool) (l : list A) :
  Forall (fun x => f x = true) l -> filter f l = l.
Proof.
  induction 1 as [|x l Hx _ IH]; simpl; [reflexivity|]. rewrite Hx, IH. reflexivity.
Qed.

Lemma existsb_false_Forall (A : Type) (f : A -> bool) (l : list A) :
  existsb f l = false <-> Forall (fun c => f c = false) l.
Proof.
  induction l as [|a l IH]; simpl.
  - split; [constructor|reflexivity].
  - rewrite orb_false_iff, IH. split.
    + intros [? ?]. constructor; assumption.
    + intros F. inversion F; auto.
Qed.

Lemma scrub_len (s : gostring) : len (scrub s) <= len s.
Proof.
  unfold scrub.
  pose proof (TrimSpace_len (filter (fun c => negb (Ascii.eqb c nul)) s)).
  pose proof (filter_length_le (fun c => negb (Ascii.eqb c nul)) s).
  unfold len in *. lia.
Qed.

Lemma scrub_no_nul (s : gostring) : ~ In nul (scrub s).
Proof.
  unfold scrub. intros Hin. apply TrimSpace_In in Hin. apply filter_In in Hin.
  destruct Hin as [_ Hk]. rewrite Ascii.eqb_refl in Hk. discriminate.
Qed.

Lemma scrub_idem (s : gostring) : scrub (scrub s) = scrub s.
Proof.
  unfold scrub at 1. rewrite filter_fix.
  - unfold scrub. apply TrimSpace_idem.
  - apply Forall_forall. intros c Hc.
    destruct (Ascii.eqb_spec c nul) as [->|]; [|reflexivity].
    exfalso. apply (scrub_no_nul s Hc).
Qed.

Lemma SanitizeString_inl (s out : gostring) :
  SanitizeString s Validation.MaxStringLength = inl out
  <-> len s <= Validation.MaxStringLength /\ out = scrub s.
Proof.
  unfold SanitizeString, scrub.
  change (Validation.MaxStringLength <=? 0) with false. cbv iota.
  destruct (Z.ltb_spec Validation.MaxStringLength (len s)).
  - split; [discriminate|intros [? _]; lia].
  - split; [intros E; inversion E; auto|intros [_ ->]; reflexivity].
Qed.

Lemma SanitizeCommandArg_inl (s out : gostring) :
  SanitizeCommandArg s = inl out <-> cleanArg s /\ out = scrub s.
Proof.
  unfold SanitizeCommandArg, cleanArg.
  destruct (SanitizeString s Validation.MaxStringLength) as [x|e] eqn:E.
  - apply SanitizeString_inl in E. destruct E as [L ->].
    destruct (existsb isShellMeta (scrub s)) eqn:M.
    + split; [discriminate|]. intros [[_ F] _].
      apply existsb_false_Forall in F. congruence.
    + apply existsb_false_Forall in M.
      split; [intros X; inversion X; auto|intros [_ ->]; reflexivity].
  - split; [discriminate|]. intros [[L _] _].
    assert (X : SanitizeString s Validation.MaxStringLength = inl (scrub s))
      by (apply SanitizeString_inl; auto).
    congruence.
Qed.

(** X1: [SanitizeString]: with [limit] the length limit in force (the default
    10000 when [maxLength] is not positive), an input longer than [limit]
    is refused, and any other input is accepted; the result is no longer
    than the input, holds no NUL byte, neither begins nor ends with a
    white-space rune (of ASCII or of the rest of Unicode), and sanitizing
    it again returns it unchanged. *)
Theorem SanitizeString_spec (input : gostring) (maxLength : Z) :
  let limit := if maxLength <=? 0 then Validation.MaxStringLength else maxLength in
  (limit < len input ->
   exists err, SanitizeString input maxLength = inr err)
  /\ (len input <= limit ->
      exists out,
        SanitizeString input maxLength = inl out
        /\ len out <= len input
        /\ ~ In nul out
        /\ noLead out /\ noTrail out
        /\ SanitizeString out maxLength = inl out).
Proof.
  cbv zeta. unfold SanitizeString.
  set (limit := if maxLength <=? 0 then Validation.MaxStringLength else maxLength).
  split; intros H.
  - destruct (Z.ltb_spec limit (len input)); [eauto|lia].
  - destruct (Z.ltb_spec limit (len input)); [lia|].
    fold (scrub input). exists (scrub input).
    pose proof (scrub_len input) as Hlen.
    split; [reflexivity|]. split; [exact Hlen|]. split; [apply scrub_no_nul|].
    split; [apply TrimSpace_noLead|]. split; [apply TrimSpace_noLead|].
    destruct (Z.ltb_spec limit (len (scrub input))); [lia|].
    fold (scrub (scrub input)). rewrite scrub_idem. reflexivity.
Qed.

(** X2: [SanitizeCommandArg]: an accepted argument holds no shell
    metacharacter (no slash, no dot, no quote, no white space, ...), is the
    sanitized input, and is accepted unchanged when passed again; an input
    is refused exactly when it is too long or its sanitized form holds a
    metacharacter. *)
Theorem SanitizeCommandArg_spec (input : gostring) :
  (forall out,
      SanitizeCommandArg input = inl out ->
      Forall (fun c => isShellMeta c = false) out
      /\ SanitizeString input Validation.MaxStringLength = inl out
      /\ SanitizeCommandArg out = inl out)
  /\ ((exists err, SanitizeCommandArg input = inr err)
      <-> (Validation.MaxStringLength < len input
           \/ exists s, SanitizeString input Validation.MaxStringLength = inl s
                        /\ existsb isShellMeta s = true)).
Proof.
  split; [|split].
  - intros out H. apply SanitizeCommandArg_inl in H. destruct H as [[L F] ->].
    split; [exact F|]. split; [apply SanitizeString_inl; auto|].
    apply SanitizeCommandArg_inl. split; [split|].
    + pose proof (scrub_len input). lia.
    + rewrite scrub_idem. exact F.
    + symmetry. apply scrub_idem.
  - intros [err E].
    destruct (Z.lt_ge_cases Validation.MaxStringLength (len input)) as [Hl|Hl];
      [left; exact Hl|right].
    exists (scrub input). split; [apply SanitizeString_inl; auto|].
    destruct (existsb isShellMeta (scrub input)) eqn:M; [reflexivity|].
    apply existsb_false_Forall in M.
    assert (X : SanitizeCommandArg input = inl (scrub input))
      by (apply SanitizeCommandArg_inl; split; [split|]; auto).
    congruence.
  - intros H. destruct (SanitizeCommandArg input) as [out|err] eqn:X; [|eauto].
    apply SanitizeCommandArg_inl in X. destruct X as [[L F] _].
    destruct H as [Hl | (s & E & M)]; [lia|].
    apply SanitizeString_inl in E. destruct E as [_ ->].
    apply existsb_false_Forall in F. congruence.
Qed.

Lemma ValidateModel_accepts (model : gostring) :
  ValidateModel model = None
  <-> (model = [] \/ HasPrefix model (str "claude-") = true).
Proof.
  unfold ValidateModel.
  destruct (eqb model []) eqn:E.
  - apply gostring_eqb_eq in E. tauto.
  - assert (model <> []) by (intros ->; discriminate).
    destruct (existsb (eqb model) AllowedModels) eqn:A.
    + split; [intros _; right|reflexivity].
      apply existsb_exists in A. destruct A as (m & Hin & Hm).
      apply gostring_eqb_eq in Hm. subst m.
      simpl in Hin. repeat destruct Hin as [<-|Hin]; try reflexivity; contradiction.
    + destruct (HasPrefix model (str "claude-")); split; auto; try discriminate.
      intros [?|?]; [contradiction|discriminate].
Qed.

(** X3: [ValidateModel] accepts exactly the empty name and the names that
    begin with "claude-": the table of known models never decides, since
    each of its names begins so.  The error for any other name quotes the
    name as it was given. *)
Theorem ValidateModel_spec (model : gostring) :
  (ValidateModel model = None
   <-> (model = [] \/ HasPrefix model (str "claude-") = true))
  /\ Forall (fun m => HasPrefix m (str "claude-") = true) AllowedModels
  /\ (forall err,
         ValidateModel model = Some err ->
         ErrorText err
         = str "invalid model: " ++ model ++ str " (must start with 'claude-')").
Proof.
  split; [apply ValidateModel_accepts|]. split.
  - repeat constructor.
  - unfold ValidateModel. intros err.
    destruct (eqb model []); [discriminate|].
    destruct (existsb (eqb model) AllowedModels); [discriminate|].
    destruct (HasPrefix model (str "claude-")); [discriminate|].
    intros E. inversion E. reflexivity.
Qed.

Lemma blocked_keys_not_safe (key : gostring) :
  existsb (eqb key) blockedEnv = true ->
  existsb (HasPrefix key) safeEnvPrefixes = false.
Proof.
  intros H. apply existsb_exists in H. destruct H as (b & Hin & Hb).
  apply gostring_eqb_eq in Hb. subst b.
  simpl in Hin. repeat destruct Hin as [<-|Hin]; try reflexivity; contradiction.
Qed.

Lemma FilterEnvironment_filter (env : list gostring) :
  FilterEnvironment env = filter safeEntry env.
Proof.
  induction env as [|e rest IH]; cbn [FilterEnvironment filter]; [reflexivity|].
  rewrite IH.
  change (safeEntry e)
    with (match envKey e with
          | Some key => existsb (HasPrefix key) safeEnvPrefixes
          | None => false
          end).
  destruct (envKey e) as [key|]; [|reflexivity].
  destruct (existsb (eqb key) blockedEnv) eqn:B.
  - rewrite (blocked_keys_not_safe _ B). reflexivity.
  - reflexivity.
Qed.

(** X4: [FilterEnvironment] keeps, in their order, exactly the entries that
    have an equals sign and a key beginning with one of the safe prefixes;
    the table of blocked names never decides, because none of its names has
    a safe prefix, so no entry with a blocked key (such as
    ANTHROPIC_API_KEY) is ever kept; and filtering twice is filtering
    once. *)
Theorem FilterEnvironment_spec (env : list gostring) :
  FilterEnvironment env = filter safeEntry env
  /\ (forall e,
         In e (FilterEnvironment env) ->
         In e env
         /\ exists key,
             envKey e = Some key
             /\ existsb (HasPrefix key) safeEnvPrefixes = true
             /\ existsb (eqb key) blockedEnv = false)
  /\ (forall e key,
         envKey e = Some key -> In key blockedEnv ->
         ~ In e (FilterEnvironment env))
  /\ FilterEnvironment (FilterEnvironment env) = FilterEnvironment env.
Proof.
  splits.
  - apply FilterEnvironment_filter.
  - intros e H. rewrite FilterEnvironment_filter in H.
    apply filter_In in H. destruct H as [Hin Hs]. split; [exact Hin|].
    unfold safeEntry in Hs. destruct (envKey e) as [key|]; [|discriminate].
    exists key. splits; auto.
    destruct (existsb (eqb key) blockedEnv) eqn:B; auto.
    rewrite (blocked_keys_not_safe _ B) in Hs. discriminate.
  - intros e key Hk Hb H. rewrite FilterEnvironment_filter in H.
    apply filter_In in H. destruct H as [_ Hs].
    unfold safeEntry in Hs. rewrite Hk in Hs.
    assert (B : existsb (eqb key) blockedEnv = true).
    { apply existsb_exists. exists key. split; [exact Hb|].
      apply gostring_eqb_eq. reflexivity. }
    rewrite (blocked_keys_not_safe _ B) in Hs. discriminate.
  - rewrite !FilterEnvironment_filter. apply filter_fix.
    apply Forall_forall. intros e H. apply filter_In in H. tauto.
Qed.

Lemma FilterEnvironment_spec_witness :
  envKey (str "ANTHROPIC_API_KEY=sk-123") = Some (str "ANTHROPIC_API_KEY")
  /\ In (str "ANTHROPIC_API_KEY") blockedEnv
  /\ ~ In (str "ANTHROPIC_API_KEY=sk-123")
          (FilterEnvironment [str "PATH=/usr/bin"; str "ANTHROPIC_API_KEY=sk-123";
                              str "SHELL=/bin/sh"; str "CLAUDE_CODE_ENTRYPOINT=sdk-go"])
  /\ FilterEnvironment [str "PATH=/usr/bin"; str "ANTHROPIC_API_KEY=sk-123";
                        str "SHELL=/bin/sh"; str "CLAUDE_CODE_ENTRYPOINT=sdk-go"]
     = [str "PATH=/usr/bin"; str "CLAUDE_CODE_ENTRYPOINT=sdk-go"].
Proof.
  assert (H1 : envKey (str "ANTHROPIC_API_KEY=sk-123") = Some (str "ANTHROPIC_API_KEY"))
    by reflexivity.
  assert (H2 : In (str "ANTHROPIC_API_KEY") blockedEnv)
    by (simpl; tauto).
  split; [exact H1|]. split; [exact H2|]. split; [|reflexivity].
  destruct (FilterEnvironment_spec
              [str "PATH=/usr/bin"; str "ANTHROPIC_API_KEY=sk-123";
               str "SHELL=/bin/sh"; str "CLAUDE_CODE_ENTRYPOINT=sdk-go"])
    as (_ & _ & H & _).
  exact (H _ _ H1 H2).
Defined.

Lemma SanitizeString_spec_witness :
  len (nbsp ++ str "  hello " ++ nbsp) <= 100
  /\ SanitizeString (nbsp ++ str "  hello " ++ nbsp) 100 = inl (str "hello")
  /\ exists err, SanitizeString (str "  hello  ") 5 = inr err.
Proof.
  assert (H1 : len (nbsp ++ str "  hello " ++ nbsp) <= 100)
    by (vm_compute; discriminate).
  assert (H2 : 5 < len (str "  hello  ")) by reflexivity.
  split; [exact H1|].
  destruct (SanitizeString_spec (nbsp ++ str "  hello " ++ nbsp) 100) as [_ Hok].
  destruct (SanitizeString_spec (str "  hello  ") 5) as [Hbad _].
  split; [|exact (Hbad H2)].
  destruct (Hok H1) as (out & E & _). rewrite E.
  vm_compute in E. inversion E. reflexivity.
Defined.

Lemma SanitizeCommandArg_spec_witness :
  SanitizeCommandArg (nbsp ++ str " mcp__files__read ") = inl (str "mcp__files__read")
  /\ Forall (fun c => isShellMeta c = false) (str "mcp__files__read")
  /\ exists err, SanitizeCommandArg (str "Bash(git log)") = inr err.
Proof.
  assert (H : SanitizeCommandArg (nbsp ++ str " mcp__files__read ")
              = inl (str "mcp__files__read")) by reflexivity.
  split; [exact H|].
  destruct (SanitizeCommandArg_spec (nbsp ++ str " mcp__files__read ")) as [Hok _].
  destruct (Hok _ H) as (F & _ & _).
  split; [exact F|].
  destruct (SanitizeCommandArg_spec (str "Bash(git log)")) as [_ Hbad].
  apply Hbad. right. exists (str "Bash(git log)"). split; reflexivity.
Defined.

Lemma ValidateModel_spec_witness :
  ValidateModel (str "claude-sonnet-4") = None
  /\ ValidateModel (str "gpt-4") <> None.
Proof.
  split.
  - apply (proj1 (ValidateModel_spec (str "claude-sonnet-4"))). right. reflexivity.
  - intros H. apply (proj1 (ValidateModel_spec (str "gpt-4"))) in H.
    destruct H as [H|H]; discriminate.
Defined.

(** ** The redaction of paths *)

Lemma letter_not_space (c : ascii) :
  Validation.isLetter c = true -> Validation.isReSpace c = false.
Proof.
  unfold Validation.isLetter, Validation.isReSpace.
  generalize (nat_of_ascii c). intros n H.
  repeat match goal with
         | |- context [Nat.eqb ?a ?b] => destruct (Nat.eqb_spec a b)
         end; try reflexivity; subst; discriminate.
Qed.

Lemma slash_not_space (c : ascii) :
  Ascii.eqb c "/" = true -> Validation.isReSpace c = false.
Proof. intros H. apply Ascii.eqb_eq in H. subst. reflexivity. Qed.

Lemma space_starts_no_path (d : ascii) (r : gostring) :
  Validation.isReSpace d = true ->
  Validation.startsUnixPath (d :: r) = false
  /\ Validation.startsWindowsPath (d :: r) = false.
Proof.
  intros H.
  assert (H1 : Ascii.eqb d "/" = false).
  { destruct (Ascii.eqb d "/") eqn:E; auto.
    apply slash_not_space in E. congruence. }
  assert (H2 : Validation.isLetter d = false).
  { destruct (Validation.isLetter d) eqn:E; auto.
    apply letter_not_space in E. congruence. }
  unfold Validation.startsUnixPath, Validation.startsWindowsPath.
  rewrite H1, H2. destruct r as [|a [|b [|c r]]]; auto.
Qed.

Lemma path_start_not_space (g : ascii) (r : gostring) :
  Validation.startsUnixPath (g :: r) || Validation.startsWindowsPath (g :: r) = true ->
  Validation.isReSpace g = false.
Proof.
  intros H. destruct (Validation.isReSpace g) eqn:E; auto.
  destruct (space_starts_no_path g r E) as [H1 H2]. rewrite H1, H2 in H.
  discriminate.
Qed.

Lemma replacePaths_copy (d : ascii) (r : gostring) :
  Validation.startsUnixPath (d :: r) || Validation.startsWindowsPath (d :: r) = false ->
  Validation.replacePaths false (d :: r) = d :: Validation.replacePaths false r.
Proof. intros H. cbn [Validation.replacePaths]. rewrite H. reflexivity. Qed.

(** The first byte of the output, unless it is the bracket of a
    replacement, is the first byte of the input, copied. *)
Lemma replacePaths_head (r o : gostring) (d : ascii) :
  Validation.replacePaths false r = d :: o ->
  d <> "["%char ->
  exists r', r = d :: r' /\ o = Validation.replacePaths false r'.
Proof.
  destruct r as [|a r']; [discriminate|]. cbn [Validation.replacePaths].
  destruct (Validation.startsUnixPath (a :: r') || Validation.startsWindowsPath (a :: r')).
  - intros H Hd. inversion H. congruence.
  - intros H _. inversion H; subst. eauto.
Qed.

Lemma replacePaths_head_not_space (r o : gostring) (f : ascii) :
  Validation.replacePaths false r = f :: o ->
  Validation.isReSpace f = false ->
  exists g r', r = g :: r' /\ Validation.isReSpace g = false.
Proof.
  destruct r as [|g r']; [discriminate|]. cbn [Validation.replacePaths].
  destruct (Validation.startsUnixPath (g :: r') || Validation.startsWindowsPath (g :: r')) eqn:E.
  - intros _ _. exists g, r'. split; [reflexivity|].
    apply (path_start_not_space _ _ E).
  - intros H Hf. inversion H; subst. eauto.
Qed.

Lemma hasPath_after_replacement (x : gostring) :
  hasPath (str "[path]" ++ x) = hasPath x.
Proof. destruct x as [|x0 [|x1 [|x2 x]]]; reflexivity. Qed.

Lemma copy_starts_no_path (c : ascii) (rest : gostring) :
  Validation.startsUnixPath (c :: rest) || Validation.startsWindowsPath (c :: rest) = false ->
  Validation.startsUnixPath (c :: Validation.replacePaths false rest) = false
  /\ Validation.startsWindowsPath (c :: Validation.replacePaths false rest) = false.
Proof.
  intros H. apply orb_false_iff in H. destruct H as [HU HW]. split.
  - unfold Validation.startsUnixPath in *.
    destruct (Validation.replacePaths false rest) as [|d o] eqn:E; [reflexivity|].
    destruct (Ascii.eqb c "/") eqn:Ec; [|reflexivity]. simpl.
    destruct (Validation.isReSpace d) eqn:Ed; [reflexivity|].
    destruct (replacePaths_head_not_space _ _ _ E Ed) as (g & r' & -> & Hg).
    rewrite Hg in HU. discriminate.
  - destruct (Validation.startsWindowsPath (c :: Validation.replacePaths false rest)) eqn:S;
      [|reflexivity].
    exfalso. unfold Validation.startsWindowsPath in S.
    destruct (Validation.replacePaths false rest) as [|d [|e [|f o]]] eqn:E;
      try discriminate.
    apply andb_true_iff in S. destruct S as [S Hf].
    apply andb_true_iff in S. destruct S as [S He].
    apply andb_true_iff in S. destruct S as [Hc Hd].
    apply Ascii.eqb_eq in Hd, He. subst d e.
    apply negb_true_iff in Hf.
    destruct (replacePaths_head _ _ _ E) as (r1 & -> & E1); [discriminate|].
    symmetry in E1.
    destruct (replacePaths_head _ _ _ E1) as (r2 & -> & E2); [discriminate|].
    symmetry in E2.
    destruct (replacePaths_head_not_space _ _ _ E2 Hf) as (g & r3 & -> & Hg).
    unfold Validation.startsWindowsPath in HW.
    rewrite Hc, Hg in HW. discriminate.
Qed.

Lemma replacePaths_clean (s : gostring) :
  hasPath (Validation.replacePaths false s) = false
  /\ hasPath (Validation.replacePaths true s) = false.
Proof.
  induction s as [|c rest [IHf IHt]]; [split; reflexivity|].
  split.
  - cbn [Validation.replacePaths].
    destruct (Validation.startsUnixPath (c :: rest)
              || Validation.startsWindowsPath (c :: rest)) eqn:E.
    + rewrite hasPath_after_replacement. exact IHt.
    + destruct (copy_starts_no_path _ _ E) as [H1 H2].
      cbn [hasPath]. rewrite H1, H2, IHf. reflexivity.
  - cbn [Validation.replacePaths].
    destruct (Validation.isReSpace c) eqn:E; [|exact IHt].
    destruct (space_starts_no_path c (Validation.replacePaths false rest) E) as [H1 H2].
    cbn [hasPath]. rewrite H1, H2, IHf. reflexivity.
Qed.

Lemma replacePaths_untouched (s : gostring) :
  hasPath s = false -> Validation.replacePaths false s = s.
Proof.
  induction s as [|c rest IH]; [reflexivity|].
  cbn [hasPath]. intros H. apply orb_false_iff in H. destruct H as [H1 H2].
  rewrite replacePaths_copy by exact H1. rewrite IH by exact H2. reflexivity.
Qed.

Lemma TruncateError_len (e : error) (maxLength : Z) :
  0 <= maxLength ->
  len (Validation.TruncateError (Some e) maxLength) <= maxLength + 3.
Proof.
  intros Hn. unfold Validation.TruncateError.
  set (msg := Validation.replacePaths false (ErrorText e)).
  destruct (Z.ltb_spec maxLength (len msg)); [|lia].
  rewrite len_app. pose proof (len_firstn_le (Z.to_nat maxLength) msg).
  change (len (str "...")) with 3. lia.
Qed.

(** X5: [TruncateError]: a nil error gives the empty text; the text returned
    has at most [maxLength] bytes and the three of the suffix; when the
    redacted message fits in [maxLength] bytes it is returned whole and no
    match of the path pattern is left in it (no slash followed by a
    non-space byte, no drive letter followed by colon, backslash and a
    non-space byte); and a message in which the pattern does not match and
    which fits is returned unchanged. *)
Theorem TruncateError_spec (e : error) (maxLength : Z) :
  0 <= maxLength ->
  Validation.TruncateError None maxLength = []
  /\ len (Validation.TruncateError (Some e) maxLength) <= maxLength + 3
  /\ hasPath (Validation.replacePaths false (ErrorText e)) = false
  /\ (len (Validation.replacePaths false (ErrorText e)) <= maxLength ->
      Validation.TruncateError (Some e) maxLength
      = Validation.replacePaths false (ErrorText e)
      /\ hasPath (Validation.TruncateError (Some e) maxLength) = false)
  /\ (hasPath (ErrorText e) = false -> len (ErrorText e) <= maxLength ->
      Validation.TruncateError (Some e) maxLength = ErrorText e).
Proof.
  intros Hn. unfold Validation.TruncateError.
  set (msg := Validation.replacePaths false (ErrorText e)).
  pose proof (proj1 (replacePaths_clean (ErrorText e))) as Hclean. fold msg in Hclean.
  splits.
  - reflexivity.
  - apply (TruncateError_len e maxLength Hn).
  - exact Hclean.
  - intros H. destruct (Z.ltb_spec maxLength (len msg)); [lia|]. auto.
  - intros Hp Hl. subst msg. rewrite (replacePaths_untouched _ Hp).
    destruct (Z.ltb_spec maxLength (len (ErrorText e))); [lia|reflexivity].
Qed.

Lemma TruncateError_spec_witness :
  0 <= 1000
  /\ Validation.TruncateError
       (Some (errorString (str "open /etc/passwd: denied, see C:\logs\x.txt now"))) 1000
     = str "open [path] denied, see [path] now"
  /\ hasPath (Validation.TruncateError
                (Some (errorString (str "open /etc/passwd: denied, see C:\logs\x.txt now"))) 1000)
     = false.
Proof.
  assert (H : 0 <= 1000) by lia.
  split; [exact H|]. split; [reflexivity|].
  destruct (TruncateError_spec
              (errorString (str "open /etc/passwd: denied, see C:\logs\x.txt now")) 1000 H)
    as (_ & _ & _ & T & _).
  apply T. vm_compute. discriminate.
Defined.

(** ** Sessions *)

Lemma session_flags (t : SubprocessCLITransport) :
  reachable t ->
  (IsConnected t = connected t)
  /\ (stdout t <> None <-> connected t = true)
  /\ (stderr t <> None <-> connected t = true).
Proof.
  intros H. destruct (reachable_handles H) as [Hf Ht].
  unfold IsConnected.
  destruct (connected t) eqn:C.
  - destruct (Ht eq_refl) as (pid & out & err & K & O & E).
    rewrite K, O, E. simpl. splits; try (split; intros; congruence); eauto.
  - destruct (Hf eq_refl) as (O & E & _). rewrite O, E.
    splits; try reflexivity; try (split; intros; congruence); discriminate.
Qed.

Lemma Disconnect_leaves_disconnected (t : SubprocessCLITransport) (env : stopEnv) :
  IsConnected (fst (fst (Disconnect t env))) = false.
Proof.
  unfold Disconnect, IsConnected.
  destruct (connected t) eqn:C; destruct (cmd t) as [c|] eqn:K;
    cbn [fst snd connected cmd withHandles andb]; rewrite ?C, ?K; reflexivity.
Qed.

Lemma Connect_without_cli (t : SubprocessCLITransport) (env : connectEnv) :
  connected t = false -> cliPath t = [] ->
  fst (Connect t env) = t
  /\ exists m, snd (Connect t env) = Some (CLINotFoundError m []).
Proof.
  intros C P. unfold Connect, NewCLINotFoundError. rewrite C, P. simpl.
  destruct (negb (nodeInPath env)); simpl; eauto.
Qed.

(** X6: For every session that the API produces, the stdout and stderr
    handles are set exactly when the session is connected, [IsConnected]
    agrees with the connected flag, and a connected session has its command
    with a started process. *)
Theorem reachable_session_invariant (t : SubprocessCLITransport) :
  reachable t ->
  (IsConnected t = connected t)
  /\ (stdout t <> None <-> connected t = true)
  /\ (stderr t <> None <-> connected t = true)
  /\ (connected t = true ->
      exists pid, cmd t = Some {| Process := Some pid |}).
Proof.
  intros H. destruct (session_flags t H) as (A & B & C).
  split; [exact A|]. split; [exact B|]. split; [exact C|].
  intros K. destruct (reachable_handles H) as [_ Ht].
  destruct (Ht K) as (pid & out & err & Kc & _). eauto.
Qed.

Lemma reachable_session_invariant_witness :
  reachable connectedSession
  /\ IsConnected connectedSession = true
  /\ stdout connectedSession <> None
  /\ reachable failedSession
  /\ IsConnected failedSession = false
  /\ ~ stdout failedSession <> None.
Proof.
  assert (H1 : reachable connectedSession)
    by (apply reach_connect; apply reach_new; reflexivity).
  assert (H2 : reachable failedSession)
    by (apply reach_connect; apply reach_new; reflexivity).
  destruct (reachable_session_invariant connectedSession H1) as (A & B & _).
  destruct (reachable_session_invariant failedSession H2) as (A' & B' & _).
  split; [exact H1|]. split; [rewrite A; reflexivity|].
  split; [apply B; reflexivity|]. split; [exact H2|].
  split; [rewrite A'; reflexivity|].
  intros H. apply B' in H. discriminate.
Defined.

(** X7: [Connect] on a session produced by the API: on a connected session it
    returns nil and changes nothing; otherwise it returns nil exactly when
    the session is connected afterwards; after an error no pipe handle is
    left in the session and the identity of the session (prompt, options,
    path, directory) is never changed; with an empty path to the CLI it
    fails with a [CLINotFoundError] and leaves the session untouched. *)
Theorem Connect_outcome (t : SubprocessCLITransport) (env : connectEnv) :
  reachable t ->
  (connected t = true -> Connect t env = (t, None))
  /\ (snd (Connect t env) = None <-> connected (fst (Connect t env)) = true)
  /\ (snd (Connect t env) <> None ->
      stdout (fst (Connect t env)) = None
      /\ stderr (fst (Connect t env)) = None
      /\ IsConnected (fst (Connect t env)) = false)
  /\ (prompt (fst (Connect t env)) = prompt t
      /\ options (fst (Connect t env)) = options t
      /\ cliPath (fst (Connect t env)) = cliPath t
      /\ cwd (fst (Connect t env)) = cwd t)
  /\ (connected t = false -> cliPath t = [] ->
      fst (Connect t env) = t
      /\ exists m, snd (Connect t env) = Some (CLINotFoundError m [])).
Proof.
  intros H.
  assert (Hr : reachable (fst (Connect t env))) by (apply reach_connect; exact H).
  destruct (session_flags _ Hr) as (I1 & I2 & I3).
  destruct (reachable_handles H) as [Hf _].
  assert (Hiff : snd (Connect t env) = None <-> connected (fst (Connect t env)) = true).
  { unfold Connect.
    destruct (connected t) eqn:C; [simpl; rewrite C; tauto|].
    repeat match goal with
           | |- context [if ?b then _ else _] => destruct b
           | |- context [match ?x with _ => _ end] => destruct x
           end; simpl; rewrite ?C; split; congruence. }
  split; [|split; [|split; [|split]]].
  - intros C. unfold Connect. rewrite C. reflexivity.
  - exact Hiff.
  - intros Hn.
    assert (C' : connected (fst (Connect t env)) = false).
    { destruct (connected (fst (Connect t env))); auto.
      exfalso. apply Hn. apply Hiff. reflexivity. }
    splits.
    + destruct (stdout (fst (Connect t env))) eqn:O; auto.
      assert (X : connected (fst (Connect t env)) = true)
        by (apply I2; congruence). congruence.
    + destruct (stderr (fst (Connect t env))) eqn:O; auto.
      assert (X : connected (fst (Connect t env)) = true)
        by (apply I3; congruence). congruence.
    + congruence.
  - unfold Connect.
    repeat match goal with
           | |- context [if ?b then _ else _] => destruct b
           | |- context [match ?x with _ => _ end] => destruct x
           end; simpl; auto.
  - apply Connect_without_cli.
Qed.

Lemma Connect_outcome_witness :
  reachable newSession
  /\ snd (Connect newSession startFails) <> None
  /\ stdout (fst (Connect newSession startFails)) = None
  /\ stderr (fst (Connect newSession startFails)) = None
  /\ IsConnected (fst (Connect newSession startFails)) = false.
Proof.
  assert (H1 : reachable newSession) by (apply reach_new; reflexivity).
  assert (H2 : snd (Connect newSession startFails) <> None) by discriminate.
  destruct (Connect_outcome newSession startFails H1) as (_ & _ & A & _).
  destruct (A H2) as (O & E & I).
  splits; assumption.
Defined.

(** X8: A session can be used again after [Disconnect]: from any session the
    API produces, with a path to the CLI, [Disconnect] followed by a
    [Connect] on a machine where the arguments build, the directory is
    valid, both pipes open and the child starts, gives a connected
    session. *)
Theorem reconnect_after_disconnect
        (t : SubprocessCLITransport) (senv : stopEnv) (env : connectEnv)
        (args : list gostring) (out err : pipe) (pid : nat) :
  reachable t ->
  cliPath t <> [] ->
  builtArgs env = inl args ->
  cwdError env = None ->
  stdoutPipeResult env = Some out ->
  stderrPipeResult env = Some err ->
  startOutcome env = Started pid ->
  let t1 := fst (fst (Disconnect t senv)) in
  snd (Connect t1 env) = None
  /\ IsConnected (fst (Connect t1 env)) = true
  /\ cmd (fst (Connect t1 env)) = Some {| Process := Some pid |}
  /\ stdout (fst (Connect t1 env)) = Some out
  /\ stderr (fst (Connect t1 env)) = Some err.
Proof.
  intros Hr Hp Ha Hc Ho He Hs. cbv zeta.
  pose proof (Disconnect_leaves_disconnected t senv) as I1.
  set (t1 := fst (fst (Disconnect t senv))) in *.
  assert (Hr1 : reachable t1) by (apply reach_disconnect; exact Hr).
  destruct (session_flags _ Hr1) as (II & _).
  assert (C1 : connected t1 = false) by congruence.
  assert (P1 : cliPath t1 = cliPath t).
  { unfold t1, Disconnect.
    destruct (connected t); destruct (cmd t); reflexivity. }
  assert (E1 : eqb (cliPath t1) [] = false).
  { rewrite P1. destruct (cliPath t); [congruence|reflexivity]. }
  unfold Connect, IsConnected, buildCommand.
  rewrite C1, E1, Ha, Hc, Ho, He, Hs.
  destruct (options t1); destruct (negb (eqb (cwd t1) [])); simpl; auto.
Qed.

Lemma reconnect_after_disconnect_witness :
  reachable connectedSession
  /\ cliPath connectedSession <> []
  /\ (let t1 := fst (fst (Disconnect connectedSession gentleStop)) in
      IsConnected t1 = false
      /\ snd (Connect t1 startsFine) = None
      /\ IsConnected (fst (Connect t1 startsFine)) = true).
Proof.
  assert (H1 : reachable connectedSession)
    by (apply reach_connect; apply reach_new; reflexivity).
  assert (H2 : cliPath connectedSession <> []) by discriminate.
  split; [exact H1|]. split; [exact H2|]. cbv zeta.
  pose proof (reconnect_after_disconnect
                connectedSession gentleStop startsFine [] (Pipe 3) (Pipe 4) 4242
                H1 H2 eq_refl eq_refl eq_refl eq_refl eq_refl) as R.
  cbv zeta in R. destruct R as (A & B & _).
  splits; [reflexivity | exact A | exact B].
Defined.

(** X9: What [Disconnect] asks of the operating system on a connected session
    that the API produced: first the interrupt signal; a kill exactly when
    the signal could not be sent or the child outlived the grace period; a
    wait for the child in every case; and at the end the close of the
    stdout pipe and of the stderr pipe. *)
Theorem Disconnect_requests (t : SubprocessCLITransport) (env : stopEnv) :
  reachable t -> connected t = true ->
  exists stop,
    snd (Disconnect t env) = stop ++ [CloseStdout; CloseStderr]
    /\ hd_error stop = Some Interrupt
    /\ In Wait stop
    /\ (In Kill stop <-> signalOk env && exitsInGrace env = false)
    /\ ~ In CloseStdout stop /\ ~ In CloseStderr stop.
Proof.
  intros Hr C.
  destruct (reachable_handles Hr) as [_ Ht].
  destruct (Ht C) as (pid & out & err & K & O & E).
  unfold Disconnect. rewrite C, K, O, E. cbn [Process snd].
  destruct (signalOk env), (exitsInGrace env);
    [exists [Interrupt; Wait] | exists [Interrupt; Wait; Kill]
     | exists [Interrupt; Kill; Wait] | exists [Interrupt; Kill; Wait]];
    (split; [reflexivity|]); simpl;
    intuition (try discriminate; try congruence).
Qed.

Lemma Disconnect_requests_witness :
  reachable connectedSession
  /\ connected connectedSession = true
  /\ exists stop,
      snd (Disconnect connectedSession gentleStop)
      = stop ++ [CloseStdout; CloseStderr]
      /\ hd_error stop = Some Interrupt
      /\ ~ In Kill stop.
Proof.
  assert (H1 : reachable connectedSession)
    by (apply reach_connect; apply reach_new; reflexivity).
  assert (H2 : connected connectedSession = true) by reflexivity.
  split; [exact H1|]. split; [exact H2|].
  destruct (Disconnect_requests connectedSession gentleStop H1 H2)
    as (stop & E & Hd & _ & Hk & _).
  exists stop. split; [exact E|]. split; [exact Hd|].
  intros X. apply Hk in X. discriminate.
Defined.

(** ** The stderr collector, line by line *)

Lemma collectLine_full (acc : list gostring) (line : gostring) :
  (1000 < List.length acc)%nat -> collectLine acc line = acc.
Proof.
  intros H. unfold collectLine, Validation.MaxStderrLines.
  destruct (Z.ltb_spec (Z.of_nat (List.length acc)) 1000); [lia|].
  destruct (Z.eqb_spec (Z.of_nat (List.length acc)) 1000); [lia|reflexivity].
Qed.

Lemma fold_collectLine_full (toks acc : list gostring) :
  (1000 < List.length acc)%nat -> fold_left collectLine toks acc = acc.
Proof.
  revert acc. induction toks as [|tok toks IH]; intros acc H; simpl; auto.
  rewrite collectLine_full by exact H. apply IH, H.
Qed.

Lemma fold_collectLine_spec (toks : list gostring) :
  forall (acc : list gostring) (k : nat),
    (List.length acc + k = 1000)%nat ->
    fold_left collectLine toks acc
    = acc ++ map clip (firstn k toks)
          ++ (if Nat.ltb k (List.length toks) then [stderrMarker] else []).
Proof.
  induction toks as [|tok toks IH]; intros acc k Hk.
  - rewrite firstn_nil. simpl. rewrite app_nil_r. reflexivity.
  - cbn [fold_left]. destruct k as [|k].
    + assert (E : collectLine acc tok = acc ++ [stderrMarker]).
      { unfold collectLine, Validation.MaxStderrLines.
        destruct (Z.ltb_spec (Z.of_nat (List.length acc)) 1000); [lia|].
        destruct (Z.eqb_spec (Z.of_nat (List.length acc)) 1000); [reflexivity|lia]. }
      rewrite E, fold_collectLine_full by (rewrite length_app; simpl; lia).
      reflexivity.
    + assert (E : collectLine acc tok = acc ++ [clip tok]).
      { unfold collectLine, clip, Validation.MaxStderrLines.
        destruct (Z.ltb_spec (Z.of_nat (List.length acc)) 1000); [reflexivity|lia]. }
      rewrite E, (IH (acc ++ [clip tok]) k) by (rewrite length_app; simpl; lia).
      cbn [firstn map List.length]. rewrite <- app_assoc. reflexivity.
Qed.

(** X10: What the stderr goroutine keeps, exactly: the first 1000 lines of
    stderr in their order, each cut to 1000 bytes with the suffix "..." if
    it was longer, and then the marker line if there were more than 1000
    lines; the lines beyond the first 1000 are dropped. *)
Theorem collected_spec (r : Bufio.stream) :
  collected r
  = map clip (firstn 1000 (Bufio.tokens (Bufio.Scan Validation.MaxJSONSize r)))
    ++ (if Nat.ltb 1000 (List.length
                           (Bufio.tokens (Bufio.Scan Validation.MaxJSONSize r)))
        then [stderrMarker] else []).
Proof.
  unfold collected. rewrite (fold_collectLine_spec _ [] 1000%nat) by reflexivity.
  reflexivity.
Qed.

(** ** Whole cycles *)

Section CycleOutcomes.
Variable data : Type.
Variable Unmarshal : gostring -> data + error.
Variable env : cycleEnv.

Lemma stdout_tokens_fit :
  Forall (fun tok => len (TrimSpace tok) <= Validation.MaxJSONSize)
         (Bufio.tokens (Bufio.Scan Validation.MaxJSONSize (stdoutBytes env))).
Proof.
  apply (@tokens_trimmed_fit env _ []). rewrite app_nil_r. reflexivity.
Qed.

Lemma Forall_app_l (A : Type) (P : A -> Prop) (l1 l2 : list A) :
  Forall P (l1 ++ l2) -> Forall P l1.
Proof. intros H. apply Forall_app in H. tauto. Qed.

(** The decode loop over a first part of the lines that is blank, records
    or noise, with the context not done and no panic. *)
Lemma benign_prefix_loop (pre rest : list gostring) (s : chans data) :
  Bufio.tokens (Bufio.Scan Validation.MaxJSONSize (stdoutBytes env)) = pre ++ rest ->
  undisturbed env (List.length pre) ->
  forallb (benign Unmarshal) pre = true ->
  exists s',
    scanLoop Unmarshal env 0 (pre ++ rest) s
    = scanLoop Unmarshal env (List.length pre) rest s'
    /\ sends s s' (decodeAll Unmarshal pre) [].
Proof.
  intros Htok Hu Hb.
  apply (@scanLoop_benign_prefix data Unmarshal env pre rest 0%nat s).
  - intros j Hj. apply Hu. lia.
  - apply (Forall_app_l _ _ pre rest). rewrite <- Htok. apply stdout_tokens_fit.
  - exact Hb.
Qed.

Lemma exitErrors_length : (List.length (exitErrors env) <= 1)%nat.
Proof.
  unfold exitErrors. destruct (waitResult env); simpl; try lia.
  destruct (errorBearing (stderrText env)); simpl; lia.
Qed.

Lemma handleProcessExit_exitErrors (s : chans data) :
  room s ->
  panicsWaiting env = None ->
  exists s',
    handleProcessExit env (collectStderr (stderrBytes env) (stderrSeen env)) s
    = (s', RetNil)
    /\ sends s s' [] (exitErrors env).
Proof.
  intros Hroom Hp. unfold handleProcessExit, exitErrors. rewrite Hp.
  fold (stderrText env).
  destruct (waitResult env) as [|code|e];
    try (exists s; split; [reflexivity|apply sends_refl]).
  fold (errorBearing (stderrText env)).
  destruct (errorBearing (stderrText env)).
  - rewrite sendErr_room by exact Hroom. eexists. split; [reflexivity|].
    eapply sends_err; [exact Hroom|]. apply sendErr_room, Hroom.
  - exists s. split; [reflexivity|apply sends_refl].
Qed.

Variable t : SubprocessCLITransport.

Lemma connected_cycle :
  IsConnected t = true ->
  exists m e,
    1 <= e
    /\ ReceiveMessages Unmarshal t env
       = receiveDeferred (receiveBody Unmarshal env (newChans data m e)).
Proof.
  intros Hc. unfold ReceiveMessages.
  destruct (bufferSizes (options t)) as [m e] eqn:B.
  exists m, e. split.
  - pose proof (bufferSizes_pos (options t)) as H. rewrite B in H. apply H.
  - rewrite Hc. reflexivity.
Qed.

(** X11: A cycle in which nothing goes wrong while stdout is read: every line
    of stdout is blank, a record or noise, the stream ends without a read
    error, the context is not done and no panic strikes.  The record
    channel delivers exactly the records of the lines, in order; the error
    channel delivers a [ProcessError] only if the child exited with a
    non-zero code and the stderr text handed to the exit handler is not
    empty and contains "error" in any letter case, and nothing otherwise
    (so never when the child exits with code 0); that error carries the
    exit code and at most 1003 bytes of stderr; both channels are then
    closed. *)
Theorem clean_cycle_outcome :
  IsConnected t = true ->
  undisturbed env
    (List.length (Bufio.tokens (Bufio.Scan Validation.MaxJSONSize (stdoutBytes env)))) ->
  panicAt env = None ->
  forallb (benign Unmarshal)
          (Bufio.tokens (Bufio.Scan Validation.MaxJSONSize (stdoutBytes env))) = true ->
  Bufio.scanErr (Bufio.Scan Validation.MaxJSONSize (stdoutBytes env)) = None ->
  exists s,
    ReceiveMessages Unmarshal t env = Exited s
    /\ delivered (msgCh s)
       = decodeAll Unmarshal
                   (Bufio.tokens (Bufio.Scan Validation.MaxJSONSize (stdoutBytes env)))
    /\ delivered (errCh s) = exitErrors env
    /\ closes (msgCh s) = 1%nat /\ closes (errCh s) = 1%nat
    /\ (waitResult env = WaitNil -> delivered (errCh s) = [])
    /\ Forall (fun e => exists m code text,
                   e = ProcessError m (Some code) text /\ len text <= 1003)
              (delivered (errCh s)).
Proof.
  intros Hc Hu Hp Hb He.
  destruct (connected_cycle Hc) as (m & e & Hpos & ->).
  set (toks := Bufio.tokens (Bufio.Scan Validation.MaxJSONSize (stdoutBytes env))) in *.
  pose proof (@newChans_room data m e Hpos) as Hroom.
  assert (Hp1 : forall i, panicsScanning env i = None)
    by (intros i; unfold panicsScanning; rewrite Hp; reflexivity).
  assert (Hp2 : panicsWaiting env = None)
    by (unfold panicsWaiting; rewrite Hp; reflexivity).
  destruct (@benign_prefix_loop toks [] (newChans data m e)) as (s1 & L & S1); auto.
  { rewrite app_nil_r. reflexivity. }
  rewrite app_nil_r in L.
  destruct (handleProcessExit_exitErrors s1 (sends_room S1 Hroom) Hp2) as (s2 & X & S2).
  assert (Hs : sends (newChans data m e) s2 (decodeAll Unmarshal toks) (exitErrors env)).
  { rewrite <- (app_nil_r (decodeAll Unmarshal toks)). apply (sends_trans S1 S2). }
  unfold receiveBody, processStdout. fold toks. rewrite L.
  cbn [scanLoop]. rewrite Hp1, He, X. cbn [receiveDeferred].
  destruct (closeBoth_after_sends Hs) as (_ & D1 & D2 & C1 & C2 & _).
  exists (closeBoth s2). split; [reflexivity|]. split; [exact D1|].
  split; [exact D2|]. split; [exact C1|]. split; [exact C2|]. split.
  - intros W. rewrite D2. unfold exitErrors. rewrite W. reflexivity.
  - rewrite D2. unfold exitErrors. destruct (waitResult env); try constructor.
    destruct (errorBearing (stderrText env)); constructor; [|constructor].
    unfold NewProcessError. do 3 eexists. split; [reflexivity|].
    pose proof (TruncateError_len (errorString (stderrText env)) 1000 ltac:(lia)).
    lia.
Qed.

(** X12: A stdout stream that breaks with a read error after lines that are
    blank, records or noise: the records of the lines are delivered, then
    exactly one error, the connection error "Error reading stdout"; the
    exit of the child is not looked at, so no [ProcessError] follows. *)
Theorem read_error_reported_once (err : error) :
  IsConnected t = true ->
  undisturbed env
    (List.length (Bufio.tokens (Bufio.Scan Validation.MaxJSONSize (stdoutBytes env)))) ->
  panicAt env = None ->
  forallb (benign Unmarshal)
          (Bufio.tokens (Bufio.Scan Validation.MaxJSONSize (stdoutBytes env))) = true ->
  Bufio.scanErr (Bufio.Scan Validation.MaxJSONSize (stdoutBytes env)) = Some err ->
  exists s,
    ReceiveMessages Unmarshal t env = Exited s
    /\ delivered (msgCh s)
       = decodeAll Unmarshal
                   (Bufio.tokens (Bufio.Scan Validation.MaxJSONSize (stdoutBytes env)))
    /\ delivered (errCh s) = [CLIConnectionError (str "Error reading stdout")]
    /\ closes (msgCh s) = 1%nat /\ closes (errCh s) = 1%nat.
Proof.
  intros Hc Hu Hp Hb He.
  destruct (connected_cycle Hc) as (m & e & Hpos & ->).
  set (toks := Bufio.tokens (Bufio.Scan Validation.MaxJSONSize (stdoutBytes env))) in *.
  pose proof (@newChans_room data m e Hpos) as Hroom.
  assert (Hp1 : forall i, panicsScanning env i = None)
    by (intros i; unfold panicsScanning; rewrite Hp; reflexivity).
  destruct (@benign_prefix_loop toks [] (newChans data m e)) as (s1 & L & S1); auto.
  { rewrite app_nil_r. reflexivity. }
  rewrite app_nil_r in L.
  pose proof (sends_room S1 Hroom) as Hroom1.
  set (ce := CLIConnectionError (str "Error reading stdout")).
  assert (Hs : exists s2, sendErr s1 ce = Some s2
                          /\ sends (newChans data m e) s2 (decodeAll Unmarshal toks) [ce]).
  { eexists. split; [apply sendErr_room, Hroom1|].
    rewrite <- (app_nil_r (decodeAll Unmarshal toks)). apply (sends_trans S1).
    eapply sends_err; [exact Hroom1|]. apply sendErr_room, Hroom1. }
  destruct Hs as (s2 & E2 & Hs).
  unfold receiveBody, processStdout. fold toks. rewrite L.
  cbn [scanLoop]. rewrite Hp1, He. fold ce. rewrite E2. cbn [receiveDeferred].
  destruct (closeBoth_after_sends Hs) as (_ & D1 & D2 & C1 & C2 & _).
  exists (closeBoth s2). splits; auto.
Qed.

(** X13: Cancellation is silent.  When, after lines that are blank, records or
    noise, the context is found done at the top of the loop, or the send of
    the record of the next line is abandoned because the context is done,
    [processStdout] returns (with nil, or with the error of the context)
    having sent the records of the earlier lines and nothing else: no
    record of the line at hand or of a later line, and no error. *)
Theorem cancellation_is_silent
        (pre rest : list gostring) (tok : gostring) (d : data) (s : chans data) :
  Bufio.tokens (Bufio.Scan Validation.MaxJSONSize (stdoutBytes env))
  = pre ++ tok :: rest ->
  undisturbed env (List.length pre) ->
  panicsScanning env (List.length pre) = None ->
  forallb (benign Unmarshal) pre = true ->
  (doneAtCheck env (List.length pre) = true
   \/ (doneAtCheck env (List.length pre) = false
       /\ eqb (TrimSpace tok) [] = false
       /\ Unmarshal (TrimSpace tok) = inl d
       /\ doneAtSend env (List.length pre) = true)) ->
  exists s' c,
    processStdout Unmarshal env s = (s', c)
    /\ sends s s' (decodeAll Unmarshal pre) []
    /\ (c = RetNil \/ c = RetErr (ctxErr env)).
Proof.
  intros Htok Hu Hp Hb Hcancel.
  destruct (@benign_prefix_loop pre (tok :: rest) s Htok Hu Hb) as (s1 & L & S1).
  assert (Hfit : len (TrimSpace tok) <= Validation.MaxJSONSize).
  { pose proof stdout_tokens_fit as F. rewrite Htok in F.
    apply Forall_app in F. destruct F as [_ F]. inversion F; assumption. }
  unfold processStdout. rewrite Htok, L. cbn [scanLoop]. rewrite Hp.
  destruct Hcancel as [Hc | (Hc & Hne & Hd & Hs)]; rewrite Hc.
  - exists s1, RetNil. auto.
  - rewrite Hne. unfold processLine.
    destruct (Z.ltb_spec Validation.MaxJSONSize (len (TrimSpace tok))); [lia|].
    rewrite Hd, Hs. exists s1, (RetErr (ctxErr env)). auto.
Qed.

End CycleOutcomes.

(** ** The forwarding goroutines *)

Section ForwarderOutcomes.
Variables In Out : Type.
Variable convert : In -> option Out.

(** X14: The goroutine of [Query], once the turns it is given hold a closed
    upstream channel or a done context: it comes to its end with both of
    its channels closed, each once; the record channel delivers the
    conversions of the records of a first part of the turns, in their
    order, those converting to nil left out; the error channel delivers at
    most one error; and its history holds no eviction (the error channel,
    of capacity at least one, is empty when the error is forwarded). *)
Theorem Query_outcome (o : option Options) (turns : list (Client.arrival In)) :
  existsb (@closing In) turns = true ->
  exists s k es,
    Client.Query convert o turns = Exited s
    /\ delivered (msgCh s) = conversions convert (firstn k turns)
    /\ delivered (errCh s) = es
    /\ (List.length es <= 1)%nat
    /\ closes (msgCh s) = 1%nat /\ closes (errCh s) = 1%nat
    /\ trace s = map (@SentMsg Out) (conversions convert (firstn k turns))
                 ++ map (@SentErr Out) es ++ [ClosedMsg Out; ClosedErr Out].
Proof.
  intros Hclose. unfold Client.Query, Client.queryChans.
  set (m := GetMessageBufferSize (Client.queryOptions o)).
  set (e := GetErrorBufferSize (Client.queryOptions o)).
  assert (Hroom : room (newChans Out m e))
    by (apply newChans_room, GetErrorBufferSize_pos).
  destruct (Client.forwardLoop convert turns (newChans Out m e)) as [s1 r] eqn:L.
  destruct (forwardLoop_sends In Out convert turns _ _ _ Hroom L) as (k & es & S1 & Hl & Hr).
  destruct Hr as [-> | [(-> & _ & Hn) | (v & -> & ->)]].
  - destruct (closeBoth_after_sends S1) as (T & D1 & D2 & C1 & C2 & _).
    exists (closeBoth s1), k, es. cbn [Client.queryDeferred]. splits; auto.
  - congruence.
  - cbn [Client.queryDeferred].
    rewrite sendErr_room by apply (sends_room S1 Hroom).
    set (pe := errorString (str "panic in message conversion: " ++ v)).
    set (s2 := {| msgCh := msgCh s1; errCh := _; trace := _ |}).
    assert (S2 : sends (newChans Out m e) s2 (conversions convert (firstn k turns)) [pe]).
    { rewrite <- (app_nil_r (conversions convert (firstn k turns))).
      apply (sends_trans S1).
      eapply sends_err; [apply (sends_room S1 Hroom)|].
      apply sendErr_room, (sends_room S1 Hroom). }
    destruct (closeBoth_after_sends S2) as (T & D1 & D2 & C1 & C2 & _).
    exists (closeBoth s2), k, [pe]. splits; auto.
Qed.

(** X15: [Client.ProcessQuery]: when [Connect] fails, its goroutine delivers
    exactly the error of [Connect] and no message, and closes both
    channels once, whatever the turns; in particular, when no CLI was found
    on the machine, the one error is a [CLINotFoundError].  When [Connect]
    succeeds and the turns hold a closed channel of the transport or a done
    context, it ends like the goroutine of [Query]: conversions of a first
    part of the turns in order, at most one error, both channels closed
    once. *)
Theorem ProcessQuery_outcome
        (found wd prompt : gostring) (cenv : connectEnv) (options : optionsValue)
        (turns : list (Client.arrival In)) :
  let trans := NewSubprocessCLITransport found wd prompt options [] in
  (forall err,
      snd (Connect trans cenv) = Some err ->
      exists s,
        Client.ProcessQuery convert found wd cenv prompt options turns = Exited s
        /\ delivered (msgCh s) = []
        /\ delivered (errCh s) = [err]
        /\ closes (msgCh s) = 1%nat /\ closes (errCh s) = 1%nat)
  /\ (found = [] ->
      exists m, snd (Connect trans cenv) = Some (CLINotFoundError m []))
  /\ (snd (Connect trans cenv) = None ->
      existsb (@closing In) turns = true ->
      exists s k es,
        Client.ProcessQuery convert found wd cenv prompt options turns = Exited s
        /\ delivered (msgCh s) = conversions convert (firstn k turns)
        /\ delivered (errCh s) = es
        /\ (List.length es <= 1)%nat
        /\ closes (msgCh s) = 1%nat /\ closes (errCh s) = 1%nat).
Proof.
  cbv zeta. unfold Client.ProcessQuery.
  destruct (bufferSizes options) as [m e] eqn:B.
  assert (He : 1 <= e).
  { pose proof (bufferSizes_pos options) as H. rewrite B in H. apply H. }
  assert (Hroom : room (newChans Out m e)) by (apply newChans_room; exact He).
  set (trans := NewSubprocessCLITransport found wd prompt options []).
  split; [|split].
  - intros err Hc. destruct (Connect trans cenv) as [t' oe]. simpl in Hc. subst oe.
    rewrite sendErr_room by exact Hroom. cbn [Client.processQueryDeferred].
    eexists. split; [reflexivity|]. splits; reflexivity.
  - intros ->.
    apply (Connect_without_cli trans cenv); reflexivity.
  - intros Hc Hclose. destruct (Connect trans cenv) as [t' oe]. simpl in Hc. subst oe.
    destruct (Client.forwardLoop convert turns (newChans Out m e)) as [s1 r] eqn:L.
    destruct (forwardLoop_sends In Out convert turns _ _ _ Hroom L) as (k & es & S1 & Hl & Hr).
    destruct Hr as [-> | [(-> & _ & Hn) | (v & -> & ->)]].
    + destruct (closeBoth_after_sends S1) as (T & D1 & D2 & C1 & C2 & _).
      exists (closeBoth s1), k, es. cbn [Client.processQueryDeferred]. splits; auto.
    + congruence.
    + cbn [Client.processQueryDeferred].
      rewrite sendErr_room by apply (sends_room S1 Hroom).
      set (pe := errorString (str "panic in ProcessQuery: " ++ v)).
      set (s2 := {| msgCh := msgCh s1; errCh := _; trace := _ |}).
      assert (S2 : sends (newChans Out m e) s2 (conversions convert (firstn k turns)) [pe]).
      { rewrite <- (app_nil_r (conversions convert (firstn k turns))).
        apply (sends_trans S1).
        eapply sends_err; [apply (sends_room S1 Hroom)|].
        apply sendErr_room, (sends_room S1 Hroom). }
      destruct (closeBoth_after_sends S2) as (T & D1 & D2 & C1 & C2 & _).
      exists (closeBoth s2), k, [pe]. splits; auto.
Qed.

End ForwarderOutcomes.
(** ** Witnesses of the cycle and forwarder properties *)

Lemma clean_cycle_outcome_witness :
  exists s,
    ReceiveMessages JSON.Unmarshal connectedSession mixed = Exited s
    /\ delivered (msgCh s)
       = decodeAll JSON.Unmarshal
                   (Bufio.tokens (Bufio.Scan Validation.MaxJSONSize (stdoutBytes mixed)))
    /\ delivered (errCh s) = exitErrors mixed
    /\ closes (msgCh s) = 1%nat /\ closes (errCh s) = 1%nat
    /\ (waitResult mixed = WaitNil -> delivered (errCh s) = [])
    /\ Forall (fun e => exists m code text,
                   e = ProcessError m (Some code) text /\ len text <= 1003)
              (delivered (errCh s)).
Proof.
  apply (clean_cycle_outcome JSON.record JSON.Unmarshal mixed connectedSession).
  - reflexivity.
  - intros j _. splits; reflexivity.
  - reflexivity.
  - vm_compute. reflexivity.
  - vm_compute. reflexivity.
Defined.

Lemma read_error_reported_once_witness :
  exists s,
    ReceiveMessages JSON.Unmarshal connectedSession mixedThenBroken = Exited s
    /\ delivered (msgCh s)
       = decodeAll JSON.Unmarshal
                   (Bufio.tokens (Bufio.Scan Validation.MaxJSONSize
                                             (stdoutBytes mixedThenBroken)))
    /\ delivered (errCh s) = [CLIConnectionError (str "Error reading stdout")]
    /\ closes (msgCh s) = 1%nat /\ closes (errCh s) = 1%nat.
Proof.
  apply (read_error_reported_once JSON.record JSON.Unmarshal mixedThenBroken
           connectedSession (errorString (str "read |0: file already closed"))).
  - reflexivity.
  - intros j _. splits; reflexivity.
  - reflexivity.
  - vm_compute. reflexivity.
  - vm_compute. reflexivity.
Defined.

Lemma cancellation_is_silent_witness :
  exists s' c,
    processStdout JSON.Unmarshal canceledAtSecondSend (newChans JSON.record 10 1)
    = (s', c)
    /\ sends (newChans JSON.record 10 1) s'
             (decodeAll JSON.Unmarshal [str "This is not JSON"]) []
    /\ (c = RetNil \/ c = RetErr (ctxErr canceledAtSecondSend)).
Proof.
  apply (cancellation_is_silent JSON.record JSON.Unmarshal canceledAtSecondSend
           [str "This is not JSON"] [str "   "; quoted "  {'type':'result','cost_usd':0.01}"]
           (quoted "{'type':'assistant'}")
           [(str "type", JSON.String (str "assistant"))]).
  - vm_compute. reflexivity.
  - intros j Hj. assert (j = 0%nat) as -> by (simpl in Hj; lia).
    splits; reflexivity.
  - reflexivity.
  - vm_compute. reflexivity.
  - right. splits; vm_compute; reflexivity.
Defined.

Lemma Query_outcome_witness :
  exists s k es,
    Client.Query (convertMessage wholeInt) (Some thirtySeconds) clientTurns = Exited s
    /\ delivered (msgCh s) = conversions (convertMessage wholeInt) (firstn k clientTurns)
    /\ delivered (errCh s) = es
    /\ (List.length es <= 1)%nat
    /\ closes (msgCh s) = 1%nat /\ closes (errCh s) = 1%nat
    /\ trace s = map (@SentMsg (Message Z))
                     (conversions (convertMessage wholeInt) (firstn k clientTurns))
                 ++ map (@SentErr (Message Z)) es
                 ++ [ClosedMsg (Message Z); ClosedErr (Message Z)].
Proof.
  apply (Query_outcome (any Z) (Message Z) (convertMessage wholeInt)
           (Some thirtySeconds) clientTurns).
  vm_compute. reflexivity.
Defined.

Lemma ProcessQuery_outcome_witness :
  (exists m s,
      snd (Connect (NewSubprocessCLITransport [] (str "/tmp") (str "hello") NilOptions [])
                   startsFine) = Some (CLINotFoundError m [])
      /\ Client.ProcessQuery (parseMessage wholeInt) [] (str "/tmp") startsFine
                             (str "hello") NilOptions transportTurns = Exited s
      /\ delivered (msgCh s) = []
      /\ delivered (errCh s) = [CLINotFoundError m []]
      /\ closes (msgCh s) = 1%nat /\ closes (errCh s) = 1%nat)
  /\ (exists s k es,
        Client.ProcessQuery (parseMessage wholeInt) claudePath (str "/tmp") startsFine
                            (str "hello") NilOptions transportTurns = Exited s
        /\ delivered (msgCh s)
           = conversions (parseMessage wholeInt) (firstn k transportTurns)
        /\ delivered (errCh s) = es
        /\ (List.length es <= 1)%nat
        /\ closes (msgCh s) = 1%nat /\ closes (errCh s) = 1%nat).
Proof.
  split.
  - destruct (ProcessQuery_outcome (Messages.gomap Z) (any Z) (parseMessage wholeInt)
                [] (str "/tmp") (str "hello") startsFine NilOptions transportTurns)
      as (H1 & H2 & _).
    destruct (H2 eq_refl) as (m & Hm).
    destruct (H1 _ Hm) as (s & Hs).
    exists m, s. split; [exact Hm|exact Hs].
  - destruct (ProcessQuery_outcome (Messages.gomap Z) (any Z) (parseMessage wholeInt)
                claudePath (str "/tmp") (str "hello") startsFine NilOptions
                transportTurns)
      as (_ & _ & H3).
    apply H3; vm_compute; reflexivity.
Defined.

(** ** From a decoded line to the typed message *)

Section MessageConversion.
Variable float64 : Type.
Variable toInt : float64 -> Z.

Lemma parseContentBlock_converts (data : Messages.gomap float64) (block : any float64) :
  parseContentBlock data = Some block ->
  exists b, convertContentBlock block = Some b.
Proof.
  unfold parseContentBlock.
  destruct (getStringOk data (str "type")) as [blockType|]; [|discriminate].
  destruct (eqb blockType (str "text")).
  { destruct (getStringOk data (str "text")); [|discriminate].
    intros E. inversion E. eexists. vm_compute. reflexivity. }
  destruct (eqb blockType (str "tool_use")).
  { intros E. inversion E. eexists. vm_compute. reflexivity. }
  destruct (eqb blockType (str "tool_result")); [|discriminate].
  destruct (lookup data (str "content")), (getBoolOk data (str "is_error"));
    intros E; inversion E; eexists; vm_compute; reflexivity.
Qed.

Lemma parsed_blocks_convert (contentData : list (any float64)) :
  List.length (convertBlocks (parseBlocks contentData))
  = List.length (parseBlocks contentData)
  /\ convertBlocks (parseBlocks contentData)
     = flat_map (fun b => match convertParsedBlock b with
                          | Some x => [x]
                          | None => []
                          end) contentData.
Proof.
  induction contentData as [|b rest [IH1 IH2]]; [split; reflexivity|].
  cbn [parseBlocks flat_map].
  destruct b as [|s|f|i|bb|l|m]; try (split; assumption).
  cbn [convertParsedBlock].
  destruct (parseContentBlock m) as [block|] eqn:P; [|split; assumption].
  destruct (parseContentBlock_converts m block P) as (x & Hx).
  cbn [convertBlocks]. rewrite Hx. cbn [List.length app].
  split; [f_equal; exact IH1|f_equal; exact IH2].
Qed.

(** X16: Nothing is lost between the two stages: whatever [parseMessage] makes
    of a decoded line, [convertMessage] turns into a typed message.  A line
    that yields no message is dropped by [parseMessage]. *)
Theorem parsed_message_converts (data : Messages.gomap float64) (raw : any float64) :
  parseMessage toInt data = Some raw ->
  exists msg, convertMessage toInt raw = Some msg.
Proof.
  unfold parseMessage.
  destruct (getStringOk data (str "type")) as [msgType|]; [|discriminate].
  destruct (eqb msgType (str "user")).
  { destruct (getMapOk data (str "message")) as [msgData|]; [|discriminate].
    destruct (getStringOk msgData (str "content")); [|discriminate].
    intros E. inversion E. eexists. vm_compute. reflexivity. }
  destruct (eqb msgType (str "assistant")).
  { destruct (getMapOk data (str "message")) as [msgData|]; [|discriminate].
    destruct (getSliceOk msgData (str "content")); [|discriminate].
    intros E. inversion E. eexists. reflexivity. }
  destruct (eqb msgType (str "system")).
  { intros E. inversion E. eexists. reflexivity. }
  destruct (eqb msgType (str "result")); [|discriminate].
  destruct (getFloatOk data (str "total_cost_usd")),
           (getMapOk data (str "usage")),
           (getStringOk data (str "result"));
    intros E; inversion E; eexists; reflexivity.
Qed.

(** X17: A user line whose [message.content] is a string becomes a
    [UserMessage] with that string. *)
Theorem user_message_round_trip
        (data msgData : Messages.gomap float64) (content : gostring) :
  getStringOk data (str "type") = Some (str "user") ->
  getMapOk data (str "message") = Some msgData ->
  getStringOk msgData (str "content") = Some content ->
  pipeline toInt data = Some (UserMessage float64 content).
Proof.
  intros Ht Hm Hc. unfold pipeline, parseMessage. rewrite Ht.
  change (eqb (str "user") (str "user")) with true. cbv iota.
  rewrite Hm, Hc. reflexivity.
Qed.

(** X18: A system line becomes a [SystemMessage] whose [Data] is the whole
    decoded line, its "type" and "subtype" members included, and whose
    [Subtype] is the "subtype" member if that is a string and the empty
    string otherwise. *)
Theorem system_message_carries_record (data : Messages.gomap float64) :
  getStringOk data (str "type") = Some (str "system") ->
  pipeline toInt data
  = Some (SystemMessage (stringOr (getStringOk data (str "subtype"))) data).
Proof.
  intros Ht. unfold pipeline, parseMessage. rewrite Ht. reflexivity.
Qed.

(** X19: A result line always becomes a [ResultMessage].  Each string, number
    and bool field is the member of that name if it has the right JSON
    type, and the zero value otherwise (a number given as a string reads
    as 0); [TotalCostUSD] and [Result] are nil, and [Usage] is empty,
    unless the member is a number, a string and an object. *)
Theorem result_message_fields (data : Messages.gomap float64) :
  getStringOk data (str "type") = Some (str "result") ->
  pipeline toInt data
  = Some (ResultMsg
            {| Subtype := stringOr (getStringOk data (str "subtype"));
               DurationMs := intOfFloatOr toInt (getFloatOk data (str "duration_ms"));
               DurationAPIMs :=
                 intOfFloatOr toInt (getFloatOk data (str "duration_api_ms"));
               IsError := boolOr (getBoolOk data (str "is_error"));
               NumTurns := intOfFloatOr toInt (getFloatOk data (str "num_turns"));
               SessionID := stringOr (getStringOk data (str "session_id"));
               TotalCostUSD := getFloatOk data (str "total_cost_usd");
               Usage := mapOr (getMapOk data (str "usage"));
               Result := getStringOk data (str "result") |}).
Proof.
  intros Ht. unfold pipeline, parseMessage. rewrite Ht.
  change (eqb (str "result") (str "user")) with false.
  change (eqb (str "result") (str "assistant")) with false.
  change (eqb (str "result") (str "system")) with false.
  change (eqb (str "result") (str "result")) with true. cbv iota zeta.
  destruct (getFloatOk data (str "total_cost_usd")),
           (getMapOk data (str "usage")),
           (getStringOk data (str "result")); reflexivity.
Qed.

(** X20: What becomes of one element of the content of an assistant line.  A
    text block with a string text becomes a [TextBlock]; a tool_use block
    becomes a [ToolUseBlock] and a tool_result block a [ToolResultBlock],
    whatever else they hold, with the zero value for a member that is
    absent or of another type, any [content] as it is, and [IsError] nil
    unless [is_error] is a bool; everything else (no string "type", an
    unknown type, a text block without a string text) yields no block. *)
Theorem content_block_fields (data : Messages.gomap float64) :
  convertParsedBlock (MapV data)
  = match getStringOk data (str "type") with
    | None => None
    | Some blockType =>
        if eqb blockType (str "text") then
          match getStringOk data (str "text") with
          | Some text => Some (TextBlock float64 text)
          | None => None
          end
        else if eqb blockType (str "tool_use") then
          Some (ToolUseBlock (stringOr (getStringOk data (str "id")))
                             (stringOr (getStringOk data (str "name")))
                             (mapOr (getMapOk data (str "input"))))
        else if eqb blockType (str "tool_result") then
          Some (ToolResultBlock
                  (stringOr (getStringOk data (str "tool_use_id")))
                  (match lookup data (str "content") with
                   | Some content => content
                   | None => Nil
                   end)
                  (getBoolOk data (str "is_error")))
        else None
    end.
Proof.
  unfold convertParsedBlock, parseContentBlock.
  destruct (getStringOk data (str "type")) as [blockType|]; [|reflexivity].
  destruct (eqb blockType (str "text")).
  { destruct (getStringOk data (str "text")); reflexivity. }
  destruct (eqb blockType (str "tool_use")); [reflexivity|].
  destruct (eqb blockType (str "tool_result")); [|reflexivity].
  destruct (lookup data (str "content")), (getBoolOk data (str "is_error"));
    reflexivity.
Qed.

(** X21: An assistant line whose [message.content] is an array becomes an
    [AssistantMessage] whose blocks are those of the elements of the array
    that yield one, in the order of the array; every block that
    [parseMessage] keeps is a block of the message, so there are at most as
    many as elements. *)
Theorem assistant_blocks_in_order
        (data msgData : Messages.gomap float64) (contentData : list (any float64)) :
  getStringOk data (str "type") = Some (str "assistant") ->
  getMapOk data (str "message") = Some msgData ->
  getSliceOk msgData (str "content") = Some contentData ->
  exists blocks,
    pipeline toInt data = Some (AssistantMessage blocks)
    /\ blocks = flat_map (fun b => match convertParsedBlock b with
                                   | Some x => [x]
                                   | None => []
                                   end) contentData
    /\ List.length blocks = List.length (parseBlocks contentData)
    /\ (List.length blocks <= List.length contentData)%nat.
Proof.
  intros Ht Hm Hc. unfold pipeline, parseMessage. rewrite Ht.
  change (eqb (str "assistant") (str "user")) with false.
  change (eqb (str "assistant") (str "assistant")) with true. cbv iota.
  rewrite Hm, Hc.
  destruct (parsed_blocks_convert contentData) as [L F].
  exists (convertBlocks (parseBlocks contentData)).
  split; [reflexivity|]. split; [exact F|]. split; [exact L|].
  rewrite L. clear. induction contentData as [|b rest IH]; [simpl; lia|].
  cbn [parseBlocks List.length].
  destruct b; try lia. destruct (parseContentBlock m); cbn [List.length]; lia.
Qed.

End MessageConversion.

Lemma parsed_message_converts_witness :
  parseMessage wholeInt userRecord
  = Some (MapV [(str "_type", StringV (str "user"));
                (str "content", StringV (str "Hello, Claude!"))])
  /\ exists msg,
      convertMessage wholeInt
        (MapV [(str "_type", StringV (str "user"));
               (str "content", StringV (str "Hello, Claude!"))])
      = Some msg.
Proof.
  split; [reflexivity|].
  apply (parsed_message_converts Z wholeInt userRecord). reflexivity.
Defined.

Lemma user_message_round_trip_witness :
  pipeline wholeInt userRecord = Some (UserMessage Z (str "Hello, Claude!")).
Proof.
  apply (user_message_round_trip Z wholeInt userRecord
           [(str "role", StringV (str "user"));
            (str "content", StringV (str "Hello, Claude!"))]);
    reflexivity.
Defined.

Lemma system_message_carries_record_witness :
  pipeline wholeInt systemRecord = Some (SystemMessage (str "init") systemRecord).
Proof.
  apply (system_message_carries_record Z wholeInt systemRecord). reflexivity.
Defined.

Lemma result_message_fields_witness :
  pipeline wholeInt resultRecord
  = Some (ResultMsg
            {| Subtype := str "success"; DurationMs := 1500; DurationAPIMs := 0;
               IsError := false; NumTurns := 0; SessionID := str "abc";
               TotalCostUSD := Some 2; Usage := []; Result := Some (str "done") |}).
Proof.
  apply (result_message_fields Z wholeInt resultRecord). reflexivity.
Defined.

Lemma assistant_blocks_in_order_witness :
  exists blocks,
    pipeline wholeInt assistantRecord = Some (AssistantMessage blocks)
    /\ blocks = flat_map (fun b => match convertParsedBlock b with
                                   | Some x => [x]
                                   | None => []
                                   end) assistantContent
    /\ List.length blocks = List.length (parseBlocks assistantContent)
    /\ (List.length blocks <= List.length assistantContent)%nat.
Proof.
  apply (assistant_blocks_in_order Z wholeInt assistantRecord
           [(str "role", StringV (str "assistant"));
            (str "content", SliceV assistantContent)]);
    reflexivity.
Defined.

(** ** The command line built from the options *)

Section CommandLine.
Variable McpServerConfig : Type.
Variable Marshal : list (gostring * McpServerConfig) -> gostring + error.
Variable Quote : gostring -> gostring.

Import CLIArgs.

Lemma cleanArg_empty : cleanArg [].
Proof. split; [vm_compute; discriminate|constructor]. Qed.

Lemma nonEmpty_false (s : gostring) : nonEmpty s = false -> s = [].
Proof. destruct s; [reflexivity|discriminate]. Qed.

Lemma validateToolList_inl (toolType : gostring) (tools : list gostring) :
  forall acc out,
    validateToolList Quote acc tools toolType = inl out
    <-> Forall cleanArg tools /\ out = acc ++ map scrub tools.
Proof.
  induction tools as [|tool rest IH]; intros acc out; cbn [validateToolList map].
  - rewrite app_nil_r. split; [intros E; inversion E; auto|intros [_ ->]; reflexivity].
  - destruct (SanitizeCommandArg tool) as [x|e] eqn:E.
    + apply SanitizeCommandArg_inl in E. destruct E as [C ->].
      rewrite IH, <- app_assoc. cbn [app]. split.
      * intros [F ->]. split; [constructor; assumption|reflexivity].
      * intros [F ->]. inversion F; subst. split; [assumption|reflexivity].
    + split; [discriminate|]. intros [F _]. inversion F as [|? ? C _]; subst.
      assert (X : SanitizeCommandArg tool = inl (scrub tool))
        by (apply SanitizeCommandArg_inl; auto).
      congruence.
Qed.

(** A list of tool names and its flag. *)
Lemma tools_flag (name toolType : gostring) (tools args args' : list gostring) :
  match tools with
  | _ :: _ =>
      match validateToolList Quote [] tools toolType with
      | inr err => (args, Some err)
      | inl ts => (args ++ [name; Join ts (str ",")], None)
      end
  | [] => (args, None)
  end = (args', None)
  <-> Forall cleanArg tools
      /\ args' = args ++ flag (someTools tools) name (Join (map scrub tools) (str ",")).
Proof.
  destruct tools as [|t rest].
  - cbn [someTools flag]. rewrite app_nil_r.
    split; [intros E; inversion E; auto|intros [_ ->]; reflexivity].
  - cbn [someTools flag].
    destruct (validateToolList Quote [] (t :: rest) toolType) as [ts|e] eqn:E.
    + apply validateToolList_inl in E. destruct E as [F ->]. cbn [app].
      split; [intros X; inversion X; auto|intros [_ ->]; reflexivity].
    + split; [discriminate|]. intros [F _].
      assert (X : validateToolList Quote [] (t :: rest) toolType
                  = inl ([] ++ map scrub (t :: rest)))
        by (apply validateToolList_inl; auto).
      congruence.
Qed.

(** A string given to [SanitizeString] and its flag. *)
Lemma string_flag (name prefix s : gostring) (args args' : list gostring) :
  (if negb (eqb s []) then
     match SanitizeString s Validation.MaxStringLength with
     | inr err => (args, Some (wrapf prefix err))
     | inl sanitized => (args ++ [name; sanitized], None)
     end
   else (args, None)) = (args', None)
  <-> len s <= Validation.MaxStringLength
      /\ args' = args ++ flag (nonEmpty s) name (scrub s).
Proof.
  fold (nonEmpty s). destruct (nonEmpty s) eqn:N; cbn [flag].
  - destruct (SanitizeString s Validation.MaxStringLength) as [x|e] eqn:E.
    + apply SanitizeString_inl in E. destruct E as [L ->].
      split; [intros X; inversion X; auto|intros [_ ->]; reflexivity].
    + split; [discriminate|]. intros [L _].
      assert (X : SanitizeString s Validation.MaxStringLength = inl (scrub s))
        by (apply SanitizeString_inl; auto).
      congruence.
  - apply nonEmpty_false in N. subst s. rewrite app_nil_r.
    split; [intros X; inversion X; split; [vm_compute; discriminate|reflexivity]
           |intros [_ ->]; reflexivity].
Qed.

(** A string given to [SanitizeCommandArg] and its flag. *)
Lemma arg_flag (name prefix s : gostring) (args args' : list gostring) :
  (if negb (eqb s []) then
     match SanitizeCommandArg s with
     | inr err => (args, Some (wrapf prefix err))
     | inl sanitized => (args ++ [name; sanitized], None)
     end
   else (args, None)) = (args', None)
  <-> cleanArg s /\ args' = args ++ flag (nonEmpty s) name (scrub s).
Proof.
  fold (nonEmpty s). destruct (nonEmpty s) eqn:N; cbn [flag].
  - destruct (SanitizeCommandArg s) as [x|e] eqn:E.
    + apply SanitizeCommandArg_inl in E. destruct E as [L ->].
      split; [intros X; inversion X; auto|intros [_ ->]; reflexivity].
    + split; [discriminate|]. intros [L _].
      assert (X : SanitizeCommandArg s = inl (scrub s))
        by (apply SanitizeCommandArg_inl; auto).
      congruence.
  - apply nonEmpty_false in N. subst s. rewrite app_nil_r.
    split; [intros X; inversion X; split; [apply cleanArg_empty|reflexivity]
           |intros [_ ->]; reflexivity].
Qed.

(** Two steps in a row. *)
Lemma then_step (r : step) (k : list gostring -> step) (args' : list gostring) :
  match r with
  | (args, Some err) => (args, Some err)
  | (args, None) => k args
  end = (args', None)
  <-> exists mid, r = (mid, None) /\ k mid = (args', None).
Proof.
  destruct r as [mid [e|]].
  - split; [discriminate|]. intros (m & E & _). discriminate.
  - split; [intros E; exists mid; auto|].
    intros (m & E & K). inversion E; subst. exact K.
Qed.

Lemma addPromptArgs_ok (o : ArgOptions McpServerConfig) (args args' : list gostring) :
  addPromptArgs o args = (args', None)
  <-> len (SystemPrompt o) <= Validation.MaxStringLength
      /\ len (AppendSystemPrompt o) <= Validation.MaxStringLength
      /\ args' = args
                 ++ flag (nonEmpty (SystemPrompt o)) (str "--system-prompt")
                         (scrub (SystemPrompt o))
                 ++ flag (nonEmpty (AppendSystemPrompt o)) (str "--append-system-prompt")
                         (scrub (AppendSystemPrompt o)).
Proof.
  unfold addPromptArgs. cbv zeta. rewrite then_step. split.
  - intros (mid & E1 & E2). apply string_flag in E1. apply string_flag in E2.
    destruct E1 as [L1 ->], E2 as [L2 ->]. rewrite <- app_assoc. auto.
  - intros (L1 & L2 & ->). eexists. split.
    + apply string_flag. split; [exact L1|reflexivity].
    + apply string_flag. split; [exact L2|]. rewrite <- app_assoc. reflexivity.
Qed.

Lemma addToolArgs_ok (o : ArgOptions McpServerConfig) (args args' : list gostring) :
  addToolArgs Quote o args = (args', None)
  <-> Forall cleanArg (AllowedTools o) /\ Forall cleanArg (DisallowedTools o)
      /\ args' = args
                 ++ flag (someTools (AllowedTools o)) (str "--allowedTools")
                         (Join (map scrub (AllowedTools o)) (str ","))
                 ++ flag (someTools (DisallowedTools o)) (str "--disallowedTools")
                         (Join (map scrub (DisallowedTools o)) (str ",")).
Proof.
  unfold addToolArgs. cbv zeta. rewrite then_step. split.
  - intros (mid & E1 & E2). apply tools_flag in E1. apply tools_flag in E2.
    destruct E1 as [L1 ->], E2 as [L2 ->]. rewrite <- app_assoc. auto.
  - intros (L1 & L2 & ->). eexists. split.
    + apply tools_flag. split; [exact L1|reflexivity].
    + apply tools_flag. split; [exact L2|]. rewrite <- app_assoc. reflexivity.
Qed.

Lemma addConfigArgs_ok (o : ArgOptions McpServerConfig) (args args' : list gostring) :
  addConfigArgs o args = (args', None)
  <-> (forall n, MaxTurns o = Some n -> 0 <= n <= 1000)
      /\ (Model o = [] \/ HasPrefix (Model o) (str "claude-") = true)
      /\ 0 <= MaxThinkingTokens o <= 100000
      /\ args' = args
                 ++ match MaxTurns o with
                    | Some n => [str "--max-turns"; itoa n]
                    | None => []
                    end
                 ++ flag (nonEmpty (Model o)) (str "--model") (Model o)
                 ++ flag (negb (MaxThinkingTokens o =? 8000))
                         (str "--max-thinking-tokens") (itoa (MaxThinkingTokens o)).
Proof.
  unfold addConfigArgs. cbv zeta. rewrite then_step.
  assert (T : forall a a',
             match MaxTurns o with
             | Some maxTurns =>
                 if (maxTurns <? 0) || (1000 <? maxTurns)
                 then (a, Some (errorString (str "max turns must be between 0 and 1000")))
                 else (a ++ [str "--max-turns"; itoa maxTurns], None)
             | None => (a, None)
             end = (a', None)
             <-> (forall n, MaxTurns o = Some n -> 0 <= n <= 1000)
                 /\ a' = a ++ match MaxTurns o with
                              | Some n => [str "--max-turns"; itoa n]
                              | None => []
                              end).
  { intros a a'. destruct (MaxTurns o) as [n|].
    - destruct (Z.ltb_spec n 0); [|destruct (Z.ltb_spec 1000 n)]; cbn [orb].
      + split; [discriminate|]. intros [R _]. specialize (R n eq_refl). lia.
      + split; [discriminate|]. intros [R _]. specialize (R n eq_refl). lia.
      + split; [intros X; inversion X; split; [|reflexivity]|intros [_ ->]; reflexivity].
        intros k K. inversion K; subst. lia.
    - rewrite app_nil_r.
      split; [intros X; inversion X; split; [discriminate|reflexivity]
             |intros [_ ->]; reflexivity]. }
  assert (M : forall a a',
             (if negb (eqb (Model o) []) then
                match ValidateModel (Model o) with
                | Some err => (a, Some err)
                | None => (a ++ [str "--model"; Model o], None)
                end
              else (a, None)) = (a', None)
             <-> (Model o = [] \/ HasPrefix (Model o) (str "claude-") = true)
                 /\ a' = a ++ flag (nonEmpty (Model o)) (str "--model") (Model o)).
  { intros a a'. fold (nonEmpty (Model o)).
    destruct (nonEmpty (Model o)) eqn:N; cbn [flag].
    - destruct (ValidateModel (Model o)) as [e|] eqn:V.
      + split; [discriminate|]. intros [A _]. apply ValidateModel_accepts in A.
        congruence.
      + apply ValidateModel_accepts in V.
        split; [intros X; inversion X; auto|intros [_ ->]; reflexivity].
    - apply nonEmpty_false in N. rewrite N, app_nil_r.
      split; [intros X; inversion X; auto|intros [_ ->]; reflexivity]. }
  assert (K : forall a a',
             (if negb (MaxThinkingTokens o =? 8000) then
                if (MaxThinkingTokens o <? 0) || (100000 <? MaxThinkingTokens o)
                then (a, Some (errorString
                                 (str "max thinking tokens must be between 0 and 100000")))
                else (a ++ [str "--max-thinking-tokens"; itoa (MaxThinkingTokens o)], None)
              else (a, None)) = (a', None)
             <-> 0 <= MaxThinkingTokens o <= 100000
                 /\ a' = a ++ flag (negb (MaxThinkingTokens o =? 8000))
                                   (str "--max-thinking-tokens")
                                   (itoa (MaxThinkingTokens o))).
  { intros a a'. destruct (Z.eqb_spec (MaxThinkingTokens o) 8000) as [E|E];
      cbn [negb flag].
    - rewrite app_nil_r.
      split; [intros X; inversion X; split; [lia|reflexivity]|intros [_ ->]; reflexivity].
    - destruct (Z.ltb_spec (MaxThinkingTokens o) 0);
        [|destruct (Z.ltb_spec 100000 (MaxThinkingTokens o))]; cbn [orb].
      + split; [discriminate|]. intros [R _]. lia.
      + split; [discriminate|]. intros [R _]. lia.
      + split; [intros X; inversion X; split; [lia|reflexivity]
               |intros [_ ->]; reflexivity]. }
  split.
  - intros (mid & E1 & E2). apply T in E1. destruct E1 as [R1 ->].
    apply then_step in E2. destruct E2 as (mid2 & E2 & E3).
    apply M in E2. destruct E2 as [R2 ->]. apply K in E3. destruct E3 as [R3 ->].
    rewrite <- !app_assoc. auto.
  - intros (R1 & R2 & R3 & ->). eexists. split.
    + apply T. split; [exact R1|reflexivity].
    + apply then_step. eexists. split.
      * apply M. split; [exact R2|reflexivity].
      * apply K. split; [exact R3|]. rewrite <- !app_assoc. reflexivity.
Qed.

Lemma addPermissionArgs_ok (o : ArgOptions McpServerConfig) (args args' : list gostring) :
  addPermissionArgs o args = (args', None)
  <-> cleanArg (PermissionPromptToolName o)
      /\ (forall mode, PermissionMode o = Some mode ->
                       mode = str "default" \/ mode = str "acceptEdits"
                       \/ mode = str "bypassPermissions")
      /\ args' = args
                 ++ flag (nonEmpty (PermissionPromptToolName o))
                         (str "--permission-prompt-tool")
                         (scrub (PermissionPromptToolName o))
                 ++ match PermissionMode o with
                    | Some mode => [str "--permission-mode"; mode]
                    | None => []
                    end.
Proof.
  unfold addPermissionArgs. cbv zeta. rewrite then_step.
  assert (P : forall a a',
             match PermissionMode o with
             | Some mode =>
                 if negb (eqb mode (str "default")) && negb (eqb mode (str "acceptEdits"))
                    && negb (eqb mode (str "bypassPermissions"))
                 then (a, Some (errorString (str "invalid permission mode: " ++ mode)))
                 else (a ++ [str "--permission-mode"; mode], None)
             | None => (a, None)
             end = (a', None)
             <-> (forall mode, PermissionMode o = Some mode ->
                               mode = str "default" \/ mode = str "acceptEdits"
                               \/ mode = str "bypassPermissions")
                 /\ a' = a ++ match PermissionMode o with
                              | Some mode => [str "--permission-mode"; mode]
                              | None => []
                              end).
  { intros a a'. destruct (PermissionMode o) as [mode|].
    - destruct (eqb mode (str "default")) eqn:E1;
        [|destruct (eqb mode (str "acceptEdits")) eqn:E2;
          [|destruct (eqb mode (str "bypassPermissions")) eqn:E3]]; cbn [negb andb].
      + apply gostring_eqb_eq in E1.
        split; [intros X; inversion X; split; [|reflexivity]|intros [_ ->]; reflexivity].
        intros m Hm. inversion Hm; subst. auto.
      + apply gostring_eqb_eq in E2.
        split; [intros X; inversion X; split; [|reflexivity]|intros [_ ->]; reflexivity].
        intros m Hm. inversion Hm; subst. auto.
      + apply gostring_eqb_eq in E3.
        split; [intros X; inversion X; split; [|reflexivity]|intros [_ ->]; reflexivity].
        intros m Hm. inversion Hm; subst. auto.
      + split; [discriminate|]. intros [R _].
        destruct (R mode eq_refl) as [-> | [-> | ->]]; discriminate.
    - rewrite app_nil_r.
      split; [intros X; inversion X; split; [discriminate|reflexivity]
             |intros [_ ->]; reflexivity]. }
  split.
  - intros (mid & E1 & E2). apply arg_flag in E1. apply P in E2.
    destruct E1 as [L1 ->], E2 as [L2 ->]. rewrite <- app_assoc. auto.
  - intros (L1 & L2 & ->). eexists. split.
    + apply arg_flag. split; [exact L1|reflexivity].
    + apply P. split; [exact L2|]. rewrite <- app_assoc. reflexivity.
Qed.

Lemma addSessionArgs_ok (o : ArgOptions McpServerConfig) (args args' : list gostring) :
  addSessionArgs o args = (args', None)
  <-> cleanArg (Resume o)
      /\ args' = args
                 ++ (if ContinueConversation o then [str "--continue"] else [])
                 ++ flag (nonEmpty (Resume o)) (str "--resume") (scrub (Resume o)).
Proof.
  unfold addSessionArgs. cbv zeta. rewrite arg_flag.
  destruct (ContinueConversation o); [rewrite <- app_assoc|cbn [app]]; tauto.
Qed.

Lemma addMCPArgs_ok (o : ArgOptions McpServerConfig) (args args' : list gostring) :
  addMCPArgs Marshal Quote o args = (args', None)
  <-> Forall cleanArg (McpTools o)
      /\ (McpServers o <> [] ->
          exists configJSON,
            Marshal (McpServers o) = inl configJSON
            /\ len configJSON <= Validation.MaxJSONSize)
      /\ args' = args
                 ++ flag (someTools (McpTools o)) (str "--mcp-tools")
                         (Join (map scrub (McpTools o)) (str ","))
                 ++ match McpServers o with
                    | [] => []
                    | _ :: _ =>
                        match Marshal (McpServers o) with
                        | inl configJSON => [str "--mcp-config"; configJSON]
                        | inr _ => []
                        end
                    end.
Proof.
  unfold addMCPArgs. cbv zeta. rewrite then_step.
  assert (S : forall a a',
             match McpServers o with
             | _ :: _ =>
                 match Marshal (McpServers o) with
                 | inr err => (a, Some (wrapf (str "failed to marshal MCP config") err))
                 | inl configJSON =>
                     if Validation.MaxJSONSize <? len configJSON
                     then (a, Some (errorString (str "MCP config exceeds maximum size")))
                     else (a ++ [str "--mcp-config"; configJSON], None)
                 end
             | [] => (a, None)
             end = (a', None)
             <-> (McpServers o <> [] ->
                  exists configJSON,
                    Marshal (McpServers o) = inl configJSON
                    /\ len configJSON <= Validation.MaxJSONSize)
                 /\ a' = a ++ match McpServers o with
                              | [] => []
                              | _ :: _ =>
                                  match Marshal (McpServers o) with
                                  | inl configJSON => [str "--mcp-config"; configJSON]
                                  | inr _ => []
                                  end
                              end).
  { intros a a'. destruct (McpServers o) as [|b rest] eqn:Sv.
    - rewrite app_nil_r.
      split; [intros X; inversion X; split; [congruence|reflexivity]
             |intros [_ ->]; reflexivity].
    - destruct (Marshal (b :: rest)) as [cfg|e] eqn:Mv.
      + destruct (Z.ltb_spec Validation.MaxJSONSize (len cfg)).
        * split; [discriminate|]. intros [R _].
          destruct R as (c & Hc & Hl); [discriminate|]. inversion Hc; subst. lia.
        * split; [intros X; inversion X; split; [|reflexivity]
                 |intros [_ ->]; reflexivity].
          intros _. exists cfg. split; [reflexivity|lia].
      + split; [discriminate|]. intros [R _].
        destruct R as (c & Hc & _); [discriminate|]. discriminate. }
  split.
  - intros (mid & E1 & E2). apply tools_flag in E1. apply S in E2.
    destruct E1 as [L1 ->], E2 as [L2 ->]. rewrite <- app_assoc. auto.
  - intros (L1 & L2 & ->). eexists. split.
    + apply tools_flag. split; [exact L1|reflexivity].
    + apply S. split; [exact L2|]. rewrite <- app_assoc. reflexivity.
Qed.

Lemma BuildCLIArgs_steps (o : ArgOptions McpServerConfig) (args : list gostring) :
  BuildCLIArgs Marshal Quote (Some o) = inl args
  <-> exists a1 a2 a3 a4 a5,
      addPromptArgs o [] = (a1, None)
      /\ addToolArgs Quote o a1 = (a2, None)
      /\ addConfigArgs o a2 = (a3, None)
      /\ addPermissionArgs o a3 = (a4, None)
      /\ addSessionArgs o a4 = (a5, None)
      /\ addMCPArgs Marshal Quote o a5 = (args, None).
Proof.
  unfold BuildCLIArgs. split.
  - destruct (addPromptArgs o []) as [a1 [e|]] eqn:E1; [discriminate|].
    destruct (addToolArgs Quote o a1) as [a2 [e|]] eqn:E2; [discriminate|].
    destruct (addConfigArgs o a2) as [a3 [e|]] eqn:E3; [discriminate|].
    destruct (addPermissionArgs o a3) as [a4 [e|]] eqn:E4; [discriminate|].
    destruct (addSessionArgs o a4) as [a5 [e|]] eqn:E5; [discriminate|].
    destruct (addMCPArgs Marshal Quote o a5) as [a6 [e|]] eqn:E6; [discriminate|].
    intros E. inversion E; subst. exists a1, a2, a3, a4, a5. splits; auto.
  - intros (a1 & a2 & a3 & a4 & a5 & E1 & E2 & E3 & E4 & E5 & E6).
    rewrite E1, E2, E3, E4, E5, E6. reflexivity.
Qed.

(** X22: [BuildCLIArgs] accepts the options exactly when both prompts are at
    most 10000 bytes long; every tool name, the permission prompt tool name
    and the resume ID are at most 10000 bytes long and, once their NUL
    bytes and the white space around them are removed, hold no shell
    metacharacter (an empty string passes); [MaxTurns], when set, is
    between 0 and 1000; the model is empty or begins with "claude-"
    (nothing else of it is checked, and it is passed on as it is);
    [MaxThinkingTokens] is between 0 and 100000; the permission mode, when
    set, is one of the three known; and the MCP servers, when there are
    any, marshal to at most [MaxJSONSize] bytes.  The arguments it then
    returns are the flags below in this order, each left out when its
    field is empty, nil or (for the thinking tokens) 8000, with the
    sanitized value for the prompts, the tool names (joined by commas) and
    the IDs. *)
Theorem BuildCLIArgs_spec (o : ArgOptions McpServerConfig) (args : list gostring) :
  BuildCLIArgs Marshal Quote (Some o) = inl args
  <-> (len (SystemPrompt o) <= Validation.MaxStringLength
       /\ len (AppendSystemPrompt o) <= Validation.MaxStringLength
       /\ Forall cleanArg (AllowedTools o)
       /\ Forall cleanArg (DisallowedTools o)
       /\ (forall n, MaxTurns o = Some n -> 0 <= n <= 1000)
       /\ (Model o = [] \/ HasPrefix (Model o) (str "claude-") = true)
       /\ 0 <= MaxThinkingTokens o <= 100000
       /\ cleanArg (PermissionPromptToolName o)
       /\ (forall mode, PermissionMode o = Some mode ->
                        mode = str "default" \/ mode = str "acceptEdits"
                        \/ mode = str "bypassPermissions")
       /\ cleanArg (Resume o)
       /\ Forall cleanArg (McpTools o)
       /\ (McpServers o <> [] ->
           exists configJSON,
             Marshal (McpServers o) = inl configJSON
             /\ len configJSON <= Validation.MaxJSONSize))
      /\ args
         = flag (nonEmpty (SystemPrompt o)) (str "--system-prompt")
                (scrub (SystemPrompt o))
           ++ flag (nonEmpty (AppendSystemPrompt o)) (str "--append-system-prompt")
                   (scrub (AppendSystemPrompt o))
           ++ flag (someTools (AllowedTools o)) (str "--allowedTools")
                   (Join (map scrub (AllowedTools o)) (str ","))
           ++ flag (someTools (DisallowedTools o)) (str "--disallowedTools")
                   (Join (map scrub (DisallowedTools o)) (str ","))
           ++ match MaxTurns o with
              | Some n => [str "--max-turns"; itoa n]
              | None => []
              end
           ++ flag (nonEmpty (Model o)) (str "--model") (Model o)
           ++ flag (negb (MaxThinkingTokens o =? 8000))
                   (str "--max-thinking-tokens") (itoa (MaxThinkingTokens o))
           ++ flag (nonEmpty (PermissionPromptToolName o))
                   (str "--permission-prompt-tool")
                   (scrub (PermissionPromptToolName o))
           ++ match PermissionMode o with
              | Some mode => [str "--permission-mode"; mode]
              | None => []
              end
           ++ (if ContinueConversation o then [str "--continue"] else [])
           ++ flag (nonEmpty (Resume o)) (str "--resume") (scrub (Resume o))
           ++ flag (someTools (McpTools o)) (str "--mcp-tools")
                   (Join (map scrub (McpTools o)) (str ","))
           ++ match McpServers o with
              | [] => []
              | _ :: _ =>
                  match Marshal (McpServers o) with
                  | inl configJSON => [str "--mcp-config"; configJSON]
                  | inr _ => []
                  end
              end.
Proof.
  rewrite BuildCLIArgs_steps. split.
  - intros (a1 & a2 & a3 & a4 & a5 & E1 & E2 & E3 & E4 & E5 & E6).
    apply addPromptArgs_ok in E1. destruct E1 as (P1 & P2 & ->).
    apply addToolArgs_ok in E2. destruct E2 as (T1 & T2 & ->).
    apply addConfigArgs_ok in E3. destruct E3 as (C1 & C2 & C3 & ->).
    apply addPermissionArgs_ok in E4. destruct E4 as (Q1 & Q2 & ->).
    apply addSessionArgs_ok in E5. destruct E5 as (S1 & ->).
    apply addMCPArgs_ok in E6. destruct E6 as (M1 & M2 & ->).
    split; [tauto|].
    cbn [app]. rewrite <- !app_assoc. reflexivity.
  - intros ((P1 & P2 & T1 & T2 & C1 & C2 & C3 & Q1 & Q2 & S1 & M1 & M2) & ->).
    do 5 eexists.
    split; [apply addPromptArgs_ok; exact (conj P1 (conj P2 eq_refl))|].
    split; [apply addToolArgs_ok; exact (conj T1 (conj T2 eq_refl))|].
    split; [apply addConfigArgs_ok; exact (conj C1 (conj C2 (conj C3 eq_refl)))|].
    split; [apply addPermissionArgs_ok; exact (conj Q1 (conj Q2 eq_refl))|].
    split; [apply addSessionArgs_ok; exact (conj S1 eq_refl)|].
    apply addMCPArgs_ok. split; [exact M1|]. split; [exact M2|].
    cbn [app]. rewrite <- !app_assoc. reflexivity.
Qed.

End CommandLine.

Lemma BuildCLIArgs_spec_witness :
  CLIArgs.BuildCLIArgs marshalNone quoteName (Some readOnly)
  = inl [str "--system-prompt"; str "Be brief."; str "--allowedTools"; str "Read,Grep";
         str "--max-turns"; str "3"; str "--model"; str "claude-sonnet-4";
         str "--permission-mode"; str "default"; str "--continue"]
  /\ Forall cleanArg (CLIArgs.AllowedTools readOnly)
  /\ forall args,
      CLIArgs.BuildCLIArgs marshalNone quoteName (Some withPattern) <> inl args.
Proof.
  assert (H : CLIArgs.BuildCLIArgs marshalNone quoteName (Some readOnly)
              = inl [str "--system-prompt"; str "Be brief."; str "--allowedTools";
                     str "Read,Grep"; str "--max-turns"; str "3"; str "--model";
                     str "claude-sonnet-4"; str "--permission-mode"; str "default";
                     str "--continue"])
    by (vm_compute; reflexivity).
  split; [exact H|]. split.
  - apply (BuildCLIArgs_spec unit marshalNone quoteName readOnly) in H.
    destruct H as ((_ & _ & F & _) & _). exact F.
  - intros args X.
    apply (BuildCLIArgs_spec unit marshalNone quoteName withPattern) in X.
    destruct X as ((_ & _ & F & _) & _).
    inversion F as [|? ? _ F']. inversion F' as [|? ? [_ C] _].
    apply existsb_false_Forall in C. vm_compute in C. discriminate.
Defined.
